(** * Telegram agent pool: lifecycle and behaviour orchestration

    A shallow embedding of the TypeScript sources of the Telegram plugin
    (types.ts, TelegramStorage.ts, AiReplyEngine.ts, BaseAgent.ts,
    BotAgent.ts, UserBotAgent.ts, AgentManager.ts, TelegramPlugin.ts) and
    the properties of the agent engine established over it.

    Conventions of the embedding.
    - Every method is a computation in [M S], a state-and-exception monad
      over the process environment [Env] and the receiver object [S]; a
      [Throw] keeps the state reached so far, as a JavaScript exception does.
    - Behaviour objects live in [heap] and are passed by reference ([loc]),
      because the broadcast pass mutates one of them in place; the SQLite
      columns hold JSON text, hence values ([snapshot]).
    - The transport libraries, the completion API, node-cron and randomUUID
      are external: every request is appended to [wire] and answered by the
      oracle [w_answer] of the [World], which sees the requests made so far.
    - An async function started without [await] ([run()], [runParser()]) is
      recorded in [tasks]; its body is a definition of its own, and the part
      of it that JavaScript runs before its first [await] is taken together
      with the rest.  Awaited calls are taken one after the other.
    - Calls on the SQLite store succeed where every NOT NULL column is
      bound to a value that is always there; [saveAgent] binds the name and
      the type tag the caller of [create] passed, and throws when one of
      them is undefined.
    - [AgentManager.init], the monitor handlers and [runParser] have no
      part in the properties below; of the latter two only the registration
      is embedded.
    - Logger calls have no effect on the modelled state and are left out.
    - A JavaScript string is a [string]; [toLowerCase] folds the ASCII
      letters only.  [new Date().toISOString()] is the clock reading [clock]
      (milliseconds), kept as a number. *)

From stdpp Require Import gmap strings list.
From Stdlib Require Import ZArith Ascii.

Local Open Scope Z_scope.
Local Open Scope string_scope.
Local Open Scope list_scope.

(** ** JavaScript strings *)

Definition lower_ascii (c : ascii) : ascii :=
  let n := nat_of_ascii c in
  if ((65 <=? n) && (n <=? 90))%nat then ascii_of_nat (n + 32) else c.

Fixpoint toLowerCase (s : string) : string :=
  match s with
  | EmptyString => EmptyString
  | String c s' => String (lower_ascii c) (toLowerCase s')
  end.

(** [s.includes(sub)] *)
Fixpoint includes (s sub : string) : bool :=
  if String.prefix sub s then true
  else match s with
       | EmptyString => false
       | String _ s' => includes s' sub
       end.

(** [s.slice(0, n)] *)
Definition slice0 (n : nat) (s : string) : string := String.substring 0 n s.

(** The one-character string "…" both [safeRecord] and [aiReply] use. *)
Definition ellipsis : string := "…".

(** Truthiness of a string value: the empty string is falsy. *)
Definition truthy (s : string) : bool := negb (String.eqb s "").

(** Truthiness of a possibly undefined string. *)
Definition truthy_opt (o : option string) : bool :=
  match o with Some s => truthy s | None => false end.

(** [xs?.length] as a condition: defined and not empty. *)
Definition has_length {A} (o : option (list A)) : bool :=
  match o with Some (_ :: _) => true | _ => false end.

(** A thrown value is kept as the text [String(err)] gives for it;
    [Error msg] is that text for [new Error(msg)]. *)
Definition Error (msg : string) : string := "Error: " +:+ msg.

Definition TypeError (msg : string) : string := "TypeError: " +:+ msg.

(** The error of the SQLite driver. *)
Definition SqliteError (msg : string) : string := "SqliteError: " +:+ msg.

(** ** types.ts *)

Inductive AgentStatus := stopped | starting | running | error.

Global Instance AgentStatus_eq_dec : EqDecision AgentStatus.
Proof. solve_decision. Defined.

(** Credentials as they arrive at run time: an object with whichever of
    the [type] tag and the payload fields are present. *)
Record AgentCredentials := {
  cred_type : option string;
  token : option string;
  phoneNumber : option string;
  sessionString : option string;
}.

Inductive ReplyMode := ai | template.

Record Template := { trigger : string; response : string }.

Record AutoReplyBehavior := {
  ar_enabled : bool;
  replyMode : ReplyMode;
  aiSystemPrompt : option string;
  triggerKeywords : option (list string);
  templates : option (list Template);
  onlyInChats : option (list string);
  cooldownSeconds : option Z;
}.

Record MonitorBehavior := {
  mon_enabled : bool;
  mon_targets : list string;
  mon_keywords : option (list string);
  mon_webhookUrl : option string;
  mon_saveToDb : option bool;
}.

Record BroadcastBehavior := {
  bc_enabled : bool;
  bc_targets : list string;
  message : string;
  schedule : option string;
  parseMode : option string;
  delayBetweenMs : option Z;
  onlyOnce : option bool;
}.

Record ParserBehavior := {
  ps_enabled : bool;
  ps_targets : list string;
  parseMessages : option bool;
  parseMembers : option bool;
  limit : option Z;
  ps_webhookUrl : option string;
  ps_saveToDb : option bool;
}.

Inductive BehaviorConfig :=
| auto_reply (c : AutoReplyBehavior)
| monitor (c : MonitorBehavior)
| broadcast (c : BroadcastBehavior)
| parser (c : ParserBehavior).

Inductive BehaviorType := t_auto_reply | t_monitor | t_broadcast | t_parser.

Global Instance BehaviorType_eq_dec : EqDecision BehaviorType.
Proof. solve_decision. Defined.

(** [b.type] *)
Definition behavior_type (b : BehaviorConfig) : BehaviorType :=
  match b with
  | auto_reply _ => t_auto_reply
  | monitor _ => t_monitor
  | broadcast _ => t_broadcast
  | parser _ => t_parser
  end.

(** [b.enabled] *)
Definition enabled (b : BehaviorConfig) : bool :=
  match b with
  | auto_reply c => ar_enabled c
  | monitor c => mon_enabled c
  | broadcast c => bc_enabled c
  | parser c => ps_enabled c
  end.

Record Stats := { sent : Z; received : Z; parsed : Z }.

(** A reference to a behaviour object: its index in the heap. *)
Abbreviation loc := nat (only parsing).

(** The record an agent holds in memory; [behaviors] is an array of
    references to behaviour objects. *)
Record AgentRecord := {
  id : string;
  name : string;
  rec_type : string;
  status : AgentStatus;
  credentials : AgentCredentials;
  behaviors : list loc;
  createdAt : Z;
  updatedAt : Z;
  lastError : option string;
  stats : Stats;
}.

(** The object [create] builds.  Its declared type is [AgentRecord], but
    [name] and [type] are what the caller passed and may be undefined at
    run time. *)
Record RecordObject := {
  o_id : string;
  o_name : option string;
  o_type : option string;
  o_status : AgentStatus;
  o_credentials : AgentCredentials;
  o_behaviors : list loc;
  o_createdAt : Z;
  o_updatedAt : Z;
  o_lastError : option string;
  o_stats : Stats;
}.

Inductive EventType := message_in | message_out | parsed_item | status_change | error_event.

Global Instance EventType_eq_dec : EqDecision EventType.
Proof. solve_decision. Defined.

Inductive Payload :=
| PStatus (st : AgentStatus) (err : option string)
| PMessage (text : string) (chat : string)
| PBroadcast (target : string)
| PParsed (source : string).

Record TelegramEvent := {
  agentId : string;
  agentName : string;
  ev_type : EventType;
  payload : Payload;
  timestamp : Z;
}.

(** ** The persistent store: the tables of TelegramStorage.ts *)

(** A row of [tg_agents]; the JSON columns hold values. *)
Record Row := {
  c_id : string;
  c_name : string;
  c_type : string;
  c_status : AgentStatus;
  c_credentials : AgentCredentials;
  c_behaviors : list BehaviorConfig;
  c_created_at : Z;
  c_updated_at : Z;
  c_last_error : option string;
  c_stats : Stats;
}.

Inductive StatField := f_sent | f_received | f_parsed.

(** A row of [tg_parsed]. *)
Record ParsedRow := {
  pr_agent_id : string;
  pr_source : string;
  pr_data_type : string;
  pr_content : string;
  pr_captured : Z;
}.

Record Storage := {
  tg_agents : gmap string Row;
  tg_events : list TelegramEvent;
  tg_parsed : list ParsedRow;
}.

(** The calls made on the storage object, as a journal. *)
Inductive StorageCall :=
| SaveAgent (i : string)
| UpdateStatus (i : string) (st : AgentStatus) (err : option string)
| UpdateBehaviors (i : string) (bs : list BehaviorConfig)
| UpdateSession (i : string) (s : string)
| IncrementStat (i : string) (f : StatField)
| DeleteAgent (i : string)
| SaveEvent (e : TelegramEvent)
| SaveParsed (i : string).

(** ** External collaborators *)

Record HistEntry := { role_user : bool; content : string }.

Inductive Handler :=
| CommandStart
| CommandStatus
| OnMessageText
| OnChannelPost (cfg : loc)
| BotCatch
| AutoReplyHandler (cfg : loc)
| MonitorHandler (cfg : loc).

(** Requests to the libraries the agents drive. *)
Inductive Request :=
| RandomUUID
| NewBot (tok : option string)
| BotRegister (h : Handler)
| BotStart (onStart : bool)
| BotStop
| BotSendMessage (target text parse_mode : string)
| BotGetMe
| CtxChatAction (chat action : string)
| CtxReply (chat text : string)
| CronSchedule (expr : string)
| NewClient (session : string)
| Connect
| Disconnect
| IsUserAuthorized
| SessionSave
| SendCode (phone : option string)
| SignInUser (phone : option string) (code : string) (password : option string)
| AddEventHandler (h : Handler)
| SendMessage (target text : string) (parse_mode : option string)
| GetMessages (target : string) (lim : Z)
| GetParticipants (target : string) (lim : Z)
| GetInputEntity (target : string)
| JoinChannel (target : string)
| LeaveChannel (target : string)
| GetMe
| MsgReply (chat text : string)
| MessagesCreate (system : string) (messages : list HistEntry).

Record RawMessage := { m_id : Z; m_message : string; m_date : Z; m_media : bool }.
Record RawUser := {
  p_id : option string; p_username : option string;
  p_firstName : option string; p_lastName : option string;
}.

Inductive Answer :=
| AUnit
| ABool (b : bool)
| AText (s : string)
| AMessages (ms : list RawMessage)
| AUsers (us : list RawUser)
| AFail (err : string).

Record World := {
  (** The answer to a request, given the requests made before it. *)
  w_answer : list Request → Request → Answer;
  (** The time an awaited request takes, in milliseconds. *)
  w_elapsed : list Request → Request → Z;
  (** The value [randomUUID()] returns, given the requests made before it. *)
  w_randomUUID : list Request → string;
  (** [parseInt(process.env.TG_API_ID ?? "0")], 0 when unset or not a number *)
  TG_API_ID : Z;
  (** [process.env.TG_API_HASH ?? ""] *)
  TG_API_HASH : string;
}.

(** Async functions started without [await]. *)
Inductive Task :=
| BroadcastRun (cfg : loc)
| ParserRun.

Record Env := {
  world : World;
  storage : Storage;
  db_calls : list StorageCall;
  heap : list BehaviorConfig;
  emitted : list TelegramEvent;
  wire : list Request;
  tasks : list (string * Task);
  clock : Z;
  (** [const cooldowns = new Map<string, number>()] of UserBotAgent.ts *)
  cooldowns : gmap string Z;
  (** [const histories = new Map(...)] of AiReplyEngine.ts *)
  histories : gmap string (list HistEntry);
}.

Definition set_storage (f : Storage → Storage) (c : StorageCall) (e : Env) : Env :=
  {| world := world e; storage := f (storage e); db_calls := db_calls e ++ [c];
     heap := heap e; emitted := emitted e; wire := wire e; tasks := tasks e;
     clock := clock e; cooldowns := cooldowns e; histories := histories e |}.

Definition set_heap (h : list BehaviorConfig) (e : Env) : Env :=
  {| world := world e; storage := storage e; db_calls := db_calls e;
     heap := h; emitted := emitted e; wire := wire e; tasks := tasks e;
     clock := clock e; cooldowns := cooldowns e; histories := histories e |}.

Definition add_emitted (ev : TelegramEvent) (e : Env) : Env :=
  {| world := world e; storage := storage e; db_calls := db_calls e;
     heap := heap e; emitted := emitted e ++ [ev]; wire := wire e; tasks := tasks e;
     clock := clock e; cooldowns := cooldowns e; histories := histories e |}.

Definition add_wire (r : Request) (dt : Z) (e : Env) : Env :=
  {| world := world e; storage := storage e; db_calls := db_calls e;
     heap := heap e; emitted := emitted e; wire := wire e ++ [r]; tasks := tasks e;
     clock := clock e + dt; cooldowns := cooldowns e; histories := histories e |}.

Definition add_task (t : string * Task) (e : Env) : Env :=
  {| world := world e; storage := storage e; db_calls := db_calls e;
     heap := heap e; emitted := emitted e; wire := wire e; tasks := tasks e ++ [t];
     clock := clock e; cooldowns := cooldowns e; histories := histories e |}.

Definition advance (dt : Z) (e : Env) : Env :=
  {| world := world e; storage := storage e; db_calls := db_calls e;
     heap := heap e; emitted := emitted e; wire := wire e; tasks := tasks e;
     clock := clock e + dt; cooldowns := cooldowns e; histories := histories e |}.

Definition set_cooldowns (m : gmap string Z) (e : Env) : Env :=
  {| world := world e; storage := storage e; db_calls := db_calls e;
     heap := heap e; emitted := emitted e; wire := wire e; tasks := tasks e;
     clock := clock e; cooldowns := m; histories := histories e |}.

Definition set_histories (m : gmap string (list HistEntry)) (e : Env) : Env :=
  {| world := world e; storage := storage e; db_calls := db_calls e;
     heap := heap e; emitted := emitted e; wire := wire e; tasks := tasks e;
     clock := clock e; cooldowns := cooldowns e; histories := m |}.

(** [JSON.stringify(behaviors)]: the objects the references point to. *)
Definition snapshot (h : list BehaviorConfig) (bs : list loc) : list BehaviorConfig :=
  omap (λ l, h !! l) bs.

(** ** The monad of methods *)

Inductive result (A : Type) :=
| Ok (a : A)
| Throw (err : string).
Arguments Ok {A} a.
Arguments Throw {A} err.

Definition M (S A : Type) : Type := Env → S → result A * Env * S.

Global Instance M_ret {S} : MRet (M S) := λ A a e s, (Ok a, e, s).

Global Instance M_bind {S} : MBind (M S) := λ A B f m e s,
  match m e s with
  | (Ok a, e', s') => f a e' s'
  | (Throw err, e', s') => (Throw err, e', s')
  end.

Definition throw {S A} (err : string) : M S A := λ e s, (Throw err, e, s).

(** [try { m } catch (err) { h err }] *)
Definition try_catch {S A} (m : M S A) (h : string → M S A) : M S A := λ e s,
  match m e s with
  | (Ok a, e', s') => (Ok a, e', s')
  | (Throw err, e', s') => h err e' s'
  end.

Definition getEnv {S} : M S Env := λ e s, (Ok e, e, s).
Definition modifyEnv {S} (f : Env → Env) : M S unit := λ e s, (Ok tt, f e, s).
Definition getSelf {S} : M S S := λ e s, (Ok s, e, s).
Definition modifySelf {S} (f : S → S) : M S unit := λ e s, (Ok tt, e, f s).

(** A request whose answer is not awaited. *)
Definition notify {S} (r : Request) : M S unit := modifyEnv (add_wire r 0).

(** A synchronous call into a library; a failure is thrown. *)
Definition invoke {S} (r : Request) : M S Answer := λ e s,
  match w_answer (world e) (wire e) r with
  | AFail err => (Throw err, add_wire r 0 e, s)
  | a => (Ok a, add_wire r 0 e, s)
  end.

(** [await] of a request: the clock moves on, a rejection is thrown. *)
Definition await {S} (r : Request) : M S Answer := λ e s,
  match w_answer (world e) (wire e) r with
  | AFail err => (Throw err, add_wire r (w_elapsed (world e) (wire e) r) e, s)
  | a => (Ok a, add_wire r (w_elapsed (world e) (wire e) r) e, s)
  end.

(** [for (const x of xs) body(x)] *)
Fixpoint for_of {S A} (xs : list A) (body : A → M S unit) : M S unit :=
  match xs with
  | [] => mret tt
  | x :: xs' => body x ≫= λ _, for_of xs' body
  end.

Definition when {S} (b : bool) (m : M S unit) : M S unit :=
  if b then m else mret tt.

(** ** TelegramStorage.ts *)

Module TelegramStorage.

Definition with_agents (f : gmap string Row → gmap string Row) (st : Storage) : Storage :=
  {| tg_agents := f (tg_agents st); tg_events := tg_events st; tg_parsed := tg_parsed st |}.

(** [INSERT OR REPLACE INTO tg_agents] with a value bound to every
    NOT NULL column *)
Definition insertAgent (r : AgentRecord) (e : Env) : Env :=
  let row := {| c_id := id r; c_name := name r; c_type := rec_type r;
                c_status := status r; c_credentials := credentials r;
                c_behaviors := snapshot (heap e) (behaviors r);
                c_created_at := createdAt r; c_updated_at := updatedAt r;
                c_last_error := lastError r; c_stats := stats r |} in
  set_storage (with_agents (insert (id r) row)) (SaveAgent (id r)) e.

(** [saveAgent(r)].  An undefined value is bound as NULL, and the columns
    [name] and [type] are NOT NULL without a default: the INSERT throws
    when one of them is missing (the first in column order is reported) and
    writes nothing.  The other NOT NULL columns are bound to values that
    are always there.  The source returns nothing and its caller goes on
    with the object it passed; here the call returns that object, as the
    record it is now known to be. *)
Definition saveAgent {S} (o : RecordObject) : M S AgentRecord :=
  match o_name o, o_type o with
  | None, _ =>
      modifyEnv (set_storage (λ st, st) (SaveAgent (o_id o)));;
      throw (SqliteError "NOT NULL constraint failed: tg_agents.name")
  | Some _, None =>
      modifyEnv (set_storage (λ st, st) (SaveAgent (o_id o)));;
      throw (SqliteError "NOT NULL constraint failed: tg_agents.type")
  | Some n, Some t =>
      let r := {| id := o_id o; name := n; rec_type := t; status := o_status o;
                  credentials := o_credentials o; behaviors := o_behaviors o;
                  createdAt := o_createdAt o; updatedAt := o_updatedAt o;
                  lastError := o_lastError o; stats := o_stats o |} in
      modifyEnv (insertAgent r);;
      mret r
  end.

(** [JSON.parse] of the behaviours column allocates new objects. *)
Definition toRecord (row : Row) (e : Env) : AgentRecord * Env :=
  ({| id := c_id row; name := c_name row; rec_type := c_type row;
      status := c_status row; credentials := c_credentials row;
      behaviors := seq (length (heap e)) (length (c_behaviors row));
      createdAt := c_created_at row; updatedAt := c_updated_at row;
      lastError := c_last_error row; stats := c_stats row |},
   set_heap (heap e ++ c_behaviors row) e).

Definition getAgent (i : string) (e : Env) : option AgentRecord * Env :=
  match tg_agents (storage e) !! i with
  | Some row => let '(r, e') := toRecord row e in (Some r, e')
  | None => (None, e)
  end.

(** [UPDATE tg_agents SET status=?,last_error=?,updated_at=? WHERE id=?] *)
Definition updateStatus (i : string) (st : AgentStatus) (err : option string)
    (e : Env) : Env :=
  set_storage
    (with_agents (alter (λ row,
       {| c_id := c_id row; c_name := c_name row; c_type := c_type row;
          c_status := st; c_credentials := c_credentials row;
          c_behaviors := c_behaviors row; c_created_at := c_created_at row;
          c_updated_at := clock e; c_last_error := err;
          c_stats := c_stats row |}) i))
    (UpdateStatus i st err) e.

(** [UPDATE tg_agents SET behaviors=?,updated_at=? WHERE id=?] *)
Definition updateBehaviors (i : string) (bs : list loc) (e : Env) : Env :=
  set_storage
    (with_agents (alter (λ row,
       {| c_id := c_id row; c_name := c_name row; c_type := c_type row;
          c_status := c_status row; c_credentials := c_credentials row;
          c_behaviors := snapshot (heap e) bs; c_created_at := c_created_at row;
          c_updated_at := clock e; c_last_error := c_last_error row;
          c_stats := c_stats row |}) i))
    (UpdateBehaviors i (snapshot (heap e) bs)) e.

Definition with_sessionString (s : string) (c : AgentCredentials) : AgentCredentials :=
  {| cred_type := cred_type c; token := token c; phoneNumber := phoneNumber c;
     sessionString := Some s |}.

Definition updateSession (i : string) (s : string) (e : Env) : Env :=
  set_storage
    (with_agents (alter (λ row,
       {| c_id := c_id row; c_name := c_name row; c_type := c_type row;
          c_status := c_status row;
          c_credentials := with_sessionString s (c_credentials row);
          c_behaviors := c_behaviors row; c_created_at := c_created_at row;
          c_updated_at := clock e; c_last_error := c_last_error row;
          c_stats := c_stats row |}) i))
    (UpdateSession i s) e.

(** [stats[field] = (stats[field] || 0) + 1] *)
Definition bump (f : StatField) (s : Stats) : Stats :=
  match f with
  | f_sent => {| sent := sent s + 1; received := received s; parsed := parsed s |}
  | f_received => {| sent := sent s; received := received s + 1; parsed := parsed s |}
  | f_parsed => {| sent := sent s; received := received s; parsed := parsed s + 1 |}
  end.

Definition incrementStat (i : string) (f : StatField) (e : Env) : Env :=
  set_storage
    (with_agents (alter (λ row,
       {| c_id := c_id row; c_name := c_name row; c_type := c_type row;
          c_status := c_status row; c_credentials := c_credentials row;
          c_behaviors := c_behaviors row; c_created_at := c_created_at row;
          c_updated_at := c_updated_at row; c_last_error := c_last_error row;
          c_stats := bump f (c_stats row) |}) i))
    (IncrementStat i f) e.

Definition deleteAgent (i : string) (e : Env) : Env :=
  set_storage (with_agents (delete i)) (DeleteAgent i) e.

Definition saveEvent (ev : TelegramEvent) (e : Env) : Env :=
  set_storage
    (λ st, {| tg_agents := tg_agents st; tg_events := tg_events st ++ [ev];
              tg_parsed := tg_parsed st |})
    (SaveEvent ev) e.

(** [LIMIT ?]: a negative limit is no limit. *)
Definition sql_limit {A} (n : Z) (rows : list A) : list A :=
  if (n <? 0)%Z then rows else take (Z.to_nat n) rows.

(** [SELECT * FROM tg_events [WHERE agent_id=?] ORDER BY id DESC LIMIT ?],
    filtered when [agentId] is truthy, [limit] defaulting to 200 *)
Definition getEvents (i : option string) (lim : option Z) (e : Env) : list TelegramEvent :=
  let rows := if truthy_opt i
              then filter (λ ev, agentId ev = default "" i) (tg_events (storage e))
              else tg_events (storage e) in
  sql_limit (default 200 lim) (reverse rows).

Definition saveParsed (i source dataType content : string) (e : Env) : Env :=
  set_storage
    (λ st, {| tg_agents := tg_agents st; tg_events := tg_events st;
              tg_parsed := tg_parsed st ++
                [{| pr_agent_id := i; pr_source := source; pr_data_type := dataType;
                    pr_content := content; pr_captured := clock e |}] |})
    (SaveParsed i) e.

Definition getParsed (i : string) (lim : option Z) (e : Env) : list ParsedRow :=
  sql_limit (default 1000 lim)
            (reverse (filter (λ r, pr_agent_id r = i) (tg_parsed (storage e)))).

End TelegramStorage.

(** The behaviours column of an agent's row. *)
Definition persisted_behaviors (i : string) (e : Env) : option (list BehaviorConfig) :=
  c_behaviors <$> tg_agents (storage e) !! i.

(** The stats column of an agent's row. *)
Definition persisted_stats (i : string) (e : Env) : option Stats :=
  c_stats <$> tg_agents (storage e) !! i.

(** ** AiReplyEngine.ts *)

Module AiReplyEngine.

Definition default_prompt : string :=
  "You are a helpful Telegram assistant. Be concise and friendly.".

Definition user (text : string) : HistEntry := {| role_user := true; content := text |}.
Definition assistant (text : string) : HistEntry := {| role_user := false; content := text |}.

(** [if (hist.length > 20) hist.splice(0, hist.length - 20)] *)
Definition trim (hist : list HistEntry) : list HistEntry :=
  if (20 <? length hist)%nat then drop (length hist - 20) hist else hist.

(** [hist] is the array stored under [chatKey] when there is one, so the
    push and the splice before the request change the stored history at
    once; a new array reaches the map only with [histories.set]. *)
Definition aiReply {S} (text chatKey : string) (systemPrompt : option string) : M S string :=
  e ← getEnv;
  let stored := histories e !! chatKey in
  let hist := trim (default [] stored ++ [user text]) in
  when (bool_decide (is_Some stored))
    (modifyEnv (λ e, set_histories (<[chatKey := hist]> (histories e)) e)) ≫= λ _,
  res ← await (MessagesCreate (default default_prompt systemPrompt) hist);
  let reply := match res with AText s => s | _ => ellipsis end in
  modifyEnv (λ e, set_histories (<[chatKey := hist ++ [assistant reply]]> (histories e)) e) ≫= λ _,
  mret reply.

Definition clearHistory (chatKey : string) (e : Env) : Env :=
  set_histories (delete chatKey (histories e)) e.

End AiReplyEngine.

(** ** BaseAgent.ts *)

Record CronJob := { cron_expr : string; cron_task : Task }.

(** The fields of the abstract class. *)
Record BaseAgent := {
  self_id : string;
  self_name : string;
  record : AgentRecord;
  cronJobs : gmap string CronJob;
}.

(** A class that extends [BaseAgent]: access to the inherited fields. *)
Class Extends (S : Type) := {
  base : S → BaseAgent;
  with_base : (BaseAgent → BaseAgent) → S → S;
}.

(** A concrete agent class implements the hook that [updateBehaviors] calls
    ([protected abstract onBehaviorsChanged]). *)
Class Agent (S : Type) `{Extends S} := {
  onBehaviorsChanged : list loc → M S unit;
}.

Definition with_record (f : AgentRecord → AgentRecord) (b : BaseAgent) : BaseAgent :=
  {| self_id := self_id b; self_name := self_name b; record := f (record b);
     cronJobs := cronJobs b |}.

Definition with_cronJobs (f : gmap string CronJob → gmap string CronJob)
    (b : BaseAgent) : BaseAgent :=
  {| self_id := self_id b; self_name := self_name b; record := record b;
     cronJobs := f (cronJobs b) |}.

Definition with_status (st : AgentStatus) (r : AgentRecord) : AgentRecord :=
  {| id := id r; name := name r; rec_type := rec_type r; status := st;
     credentials := credentials r; behaviors := behaviors r;
     createdAt := createdAt r; updatedAt := updatedAt r;
     lastError := lastError r; stats := stats r |}.

Definition with_behaviors (bs : list loc) (r : AgentRecord) : AgentRecord :=
  {| id := id r; name := name r; rec_type := rec_type r; status := status r;
     credentials := credentials r; behaviors := bs;
     createdAt := createdAt r; updatedAt := updatedAt r;
     lastError := lastError r; stats := stats r |}.

Definition with_credentials (c : AgentCredentials) (r : AgentRecord) : AgentRecord :=
  {| id := id r; name := name r; rec_type := rec_type r; status := status r;
     credentials := c; behaviors := behaviors r;
     createdAt := createdAt r; updatedAt := updatedAt r;
     lastError := lastError r; stats := stats r |}.

Inductive Direction := dir_in | dir_out.

Module BaseAgent.

(** [constructor(record, storage, logger)] *)
Definition new (r : AgentRecord) : BaseAgent :=
  {| self_id := id r; self_name := name r; record := r; cronJobs := ∅ |}.

(** [this.record.behaviors.find((b) => b.type === type)] *)
Definition find_behavior (h : list BehaviorConfig) (ty : BehaviorType)
    (bs : list loc) : option loc :=
  List.find (λ l, match h !! l with
                  | Some b => bool_decide (behavior_type b = ty)
                  | None => false
                  end) bs.

Definition shouldAutoReply (cfg : AutoReplyBehavior) (text chatId : string) : bool :=
  if negb (ar_enabled cfg) then false
  else if has_length (onlyInChats cfg) && truthy chatId
          && negb (bool_decide (chatId ∈ default [] (onlyInChats cfg)))
  then false
  else if has_length (triggerKeywords cfg) then
    let low := toLowerCase text in
    existsb (λ k, includes low (toLowerCase k)) (default [] (triggerKeywords cfg))
  else true.

Section Methods.
Context {S : Type} `{Extends S}.

Definition this : M S BaseAgent := s ← getSelf; mret (base s).

Definition getRecord : M S AgentRecord := b ← this; mret (record b).

Definition getStatus : M S AgentStatus := b ← this; mret (status (record b)).

Definition pushEvent (ty : EventType) (p : Payload) : M S unit :=
  b ← this;
  e ← getEnv;
  let event := {| agentId := self_id b; agentName := self_name b; ev_type := ty;
                  payload := p; timestamp := clock e |} in
  modifyEnv (TelegramStorage.saveEvent event);;
  modifyEnv (add_emitted event).

Definition setStatus (st : AgentStatus) (err : option string) : M S unit :=
  modifySelf (with_base (with_record (with_status st)));;
  b ← this;
  modifyEnv (TelegramStorage.updateStatus (self_id b) st err);;
  pushEvent status_change (PStatus st err).

Definition getBehavior (ty : BehaviorType) : M S (option loc) :=
  b ← this;
  e ← getEnv;
  mret (find_behavior (heap e) ty (behaviors (record b))).

Definition trackMessage (d : Direction) (text chat : string) : M S unit :=
  b ← this;
  modifyEnv (TelegramStorage.incrementStat (self_id b)
               (match d with dir_in => f_received | dir_out => f_sent end));;
  pushEvent (match d with dir_in => message_in | dir_out => message_out end)
            (PMessage (slice0 500 text) chat).

(** [await this.delay(ms)] *)
Definition delay (ms : Z) : M S unit := modifyEnv (advance (Z.max 0 ms)).

(** [for (const j of this.cronJobs.values()) j.stop(); this.cronJobs.clear()] *)
Definition clearCron : M S unit := modifySelf (with_base (with_cronJobs (λ _, ∅))).

(** The object a reference points to. *)
Definition deref (l : loc) : M S (option BehaviorConfig) :=
  e ← getEnv; mret (heap e !! l).

(** [cfg?.enabled] for the result of [getBehavior]. *)
Definition cfg_enabled (cfg : option loc) : M S bool :=
  match cfg with
  | None => mret false
  | Some l => b ← deref l; mret (from_option enabled false b)
  end.

(** [cfg.enabled = false] *)
Definition disable (b : BehaviorConfig) : BehaviorConfig :=
  match b with
  | auto_reply c =>
      auto_reply {| ar_enabled := false; replyMode := replyMode c;
                    aiSystemPrompt := aiSystemPrompt c;
                    triggerKeywords := triggerKeywords c; templates := templates c;
                    onlyInChats := onlyInChats c;
                    cooldownSeconds := cooldownSeconds c |}
  | monitor c =>
      monitor {| mon_enabled := false; mon_targets := mon_targets c;
                 mon_keywords := mon_keywords c; mon_webhookUrl := mon_webhookUrl c;
                 mon_saveToDb := mon_saveToDb c |}
  | broadcast c =>
      broadcast {| bc_enabled := false; bc_targets := bc_targets c;
                   message := message c; schedule := schedule c;
                   parseMode := parseMode c; delayBetweenMs := delayBetweenMs c;
                   onlyOnce := onlyOnce c |}
  | parser c =>
      parser {| ps_enabled := false; ps_targets := ps_targets c;
                parseMessages := parseMessages c; parseMembers := parseMembers c;
                limit := limit c; ps_webhookUrl := ps_webhookUrl c;
                ps_saveToDb := ps_saveToDb c |}
  end.

Definition set_disabled (l : loc) : M S unit :=
  modifyEnv (λ e, set_heap (alter disable l (heap e)) e).

(** Starting an async function of the agent without awaiting it. *)
Definition spawn (t : Task) : M S unit :=
  b ← this; modifyEnv (add_task (self_id b, t)).

End Methods.

Definition updateBehaviors {S : Type} `{Agent S} (bs : list loc) : M S unit :=
  modifySelf (with_base (with_record (with_behaviors bs)));;
  b ← this;
  modifyEnv (TelegramStorage.updateBehaviors (self_id b) bs);;
  onBehaviorsChanged bs.

End BaseAgent.

(** Property reads on a behaviour object obtained as [any]. *)
Definition get_targets (b : BehaviorConfig) : list string :=
  match b with
  | broadcast c => bc_targets c
  | monitor c => mon_targets c
  | parser c => ps_targets c
  | auto_reply _ => []
  end.

Definition get_broadcast (o : option BehaviorConfig) : option BroadcastBehavior :=
  match o with Some (broadcast c) => Some c | _ => None end.

Definition has_type (ty : BehaviorType) (o : option BehaviorConfig) : bool :=
  from_option (λ b, bool_decide (behavior_type b = ty)) false o.

(** The arguments of a tool call, as the tools destructure them. *)
Record ToolArgs := {
  arg_target : string;
  arg_message : string;
  arg_parseMode : option string;
  arg_limit : option Z;
}.

Record MessageDto := { dto_id : Z; dto_text : string; dto_date : Z; hasMedia : bool }.

Inductive ToolResult :=
| Raw (a : Answer)
| Messages (ms : list MessageDto)
| Members (us : list RawUser).

(** ** BotAgent.ts *)

Record Bot := { bot_token : option string }.

Record BotAgent := { b_base : BaseAgent; bot : option Bot }.

(** The update a handler receives ([ctx.message?.text], [ctx.chat?.id]). *)
Record Context := { ctx_text : option string; ctx_chat : option string }.

Module BotAgent.
Import BaseAgent.

Definition with_bot (b : option Bot) (a : BotAgent) : BotAgent :=
  {| b_base := b_base a; bot := b |}.

Global Instance extends : Extends BotAgent :=
  {| base := b_base;
     with_base := λ f a, {| b_base := f (b_base a); bot := bot a |} |}.

Definition new (r : AgentRecord) : BotAgent :=
  {| b_base := BaseAgent.new r; bot := None |}.

Definition getBot : M BotAgent (option Bot) := s ← getSelf; mret (bot s).

(** [this.creds.token]; [creds] is the credentials object of the record. *)
Definition creds_token : M BotAgent (option string) :=
  r ← getRecord; mret (token (credentials r)).

Definition parse_mode (pm : option string) : string :=
  if bool_decide (pm = Some "markdown") then "Markdown" else "HTML".

Definition setupBroadcast : M BotAgent unit :=
  cfg ← getBehavior t_broadcast;
  en ← cfg_enabled cfg;
  b ← getBot;
  match cfg with
  | Some l =>
      if en && bool_decide (is_Some b) then
        o ← deref l;
        let sched := get_broadcast o ≫= schedule in
        if truthy_opt sched then
          invoke (CronSchedule (default "" sched));;
          modifySelf (with_base (with_cronJobs
            (insert "broadcast" {| cron_expr := default "" sched;
                                   cron_task := BroadcastRun l |})))
        else spawn (BroadcastRun l)
      else mret tt
  | None => mret tt
  end.

Definition setupMonitorViaUpdates : M BotAgent unit :=
  cfg ← getBehavior t_monitor;
  en ← cfg_enabled cfg;
  b ← getBot;
  match cfg with
  | Some l =>
      if en && bool_decide (is_Some b) then notify (BotRegister (OnChannelPost l))
      else mret tt
  | None => mret tt
  end.

Definition registerBehaviors (bs : list loc) : M BotAgent unit :=
  for_of bs (λ l,
    o ← deref l;
    when (has_type t_broadcast o) setupBroadcast;;
    when (has_type t_monitor o) setupMonitorViaUpdates).

Definition setupBaseHandlers : M BotAgent unit :=
  b ← getBot;
  match b with
  | None => mret tt
  | Some _ =>
      notify (BotRegister CommandStart);;
      notify (BotRegister CommandStatus);;
      notify (BotRegister OnMessageText);;
      notify (BotRegister BotCatch)
  end.

(** [new Bot(this.creds.token)] *)
Definition newBot : M BotAgent unit :=
  tok ← creds_token;
  invoke (NewBot tok);;
  modifySelf (with_bot (Some {| bot_token := tok |})).

Definition onBehaviorsChanged (bs : list loc) : M BotAgent unit :=
  b ← getBot;
  when (bool_decide (is_Some b)) (await BotStop;; newBot);;
  clearCron;;
  registerBehaviors bs;;
  setupBaseHandlers;;
  st ← getStatus;
  if decide (st = running) then
    b ← getBot;
    match b with
    | Some _ => notify (BotStart false)
    | None => throw (TypeError "Cannot read properties of null (reading 'start')")
    end
  else mret tt.

Global Instance agent : Agent BotAgent := Build_Agent _ _ onBehaviorsChanged.

(** One turn of the loop of [run]: the [try] block for one target. *)
Definition run_target (cfg : loc) (target : string) : M BotAgent unit :=
  try_catch
    (c ← deref cfg;
     b ← getBot;
     match b, get_broadcast c with
     | Some _, Some c =>
         await (BotSendMessage target (message c) (parse_mode (parseMode c)));;
         trackMessage dir_out (message c) target;;
         delay (default 1000 (delayBetweenMs c))
     | _, _ => throw (TypeError "Cannot read properties of null (reading 'api')")
     end)
    (λ _, mret tt).

(** The body of [run], the broadcast pass set up for the behaviour object
    [cfg]. *)
Definition run (cfg : loc) : M BotAgent unit :=
  o ← deref cfg;
  for_of (from_option get_targets [] o) (run_target cfg);;
  c ← deref cfg;
  if bool_decide (get_broadcast c ≫= onlyOnce = Some true) then
    set_disabled cfg;;
    r ← getRecord;
    updateBehaviors (behaviors r)
  else mret tt.

(** The [onStart] callback handed to [bot.start]. *)
Definition onStart : M BotAgent unit := setStatus running None.

Definition start : M BotAgent unit :=
  st ← getStatus;
  if decide (st = running) then mret tt
  else
    setStatus starting None;;
    try_catch
      (newBot;;
       r ← getRecord;
       registerBehaviors (behaviors r);;
       setupBaseHandlers;;
       notify (BotStart true))
      (λ err, setStatus error (Some err);; throw err).

Definition stop : M BotAgent unit :=
  clearCron;;
  b ← getBot;
  when (bool_decide (is_Some b)) (await BotStop;; mret tt);;
  modifySelf (with_bot None);;
  setStatus stopped None.

Definition callTool (tool : string) (args : ToolArgs) : M BotAgent ToolResult :=
  b ← getBot;
  match b with
  | None => throw (Error "Agent not running")
  | Some _ =>
      if bool_decide (tool = "sendMessage") then
        a ← await (BotSendMessage (arg_target args) (arg_message args)
                     (parse_mode (arg_parseMode args)));
        mret (Raw a)
      else if bool_decide (tool = "getMe") then
        a ← await BotGetMe; mret (Raw a)
      else if bool_decide (tool = "getMessages") then
        throw (Error "Bot API does not support getMessages — use a userbot agent")
      else throw (Error ("Unknown tool: " +:+ tool))
  end.

(** [templates?.find(t => text.toLowerCase().includes(t.trigger.toLowerCase()))?.response ?? ""] *)
Definition template_reply (c : AutoReplyBehavior) (text : string) : string :=
  from_option response ""
    (List.find (λ t, includes (toLowerCase text) (toLowerCase (trigger t)))
               (default [] (templates c))).

Definition handleText (ctx : Context) : M BotAgent unit :=
  let text := default "" (ctx_text ctx) in
  let chatId := default "" (ctx_chat ctx) in
  trackMessage dir_in text chatId;;
  cfg ← getBehavior t_auto_reply;
  o ← from_option deref (mret None) cfg;
  match o with
  | Some (auto_reply c) =>
      if negb (ar_enabled c) || negb (shouldAutoReply c text chatId) then mret tt
      else
        b ← this;
        reply ← match replyMode c with
                | ai =>
                    await (CtxChatAction chatId "typing");;
                    AiReplyEngine.aiReply text (self_id b +:+ ":" +:+ chatId)
                                          (aiSystemPrompt c)
                | template => mret (template_reply c text)
                end;
        if truthy reply then
          await (CtxReply chatId reply);;
          trackMessage dir_out reply chatId
        else mret tt
  | _ => mret tt
  end.

End BotAgent.

(** ** UserBotAgent.ts *)

Record TelegramClient := { session : string }.

Record UserBotAgent := { u_base : BaseAgent; client : option TelegramClient }.

(** A [NewMessage] event: [event.message] with its [out], [message] and
    [chatId] fields. *)
Record Message := { msg_out : bool; msg_text : option string; msg_chatId : option string }.
Record NewMessageEvent := { ev_message : option Message }.

Module UserBotAgent.
Import BaseAgent.

Definition with_client (c : option TelegramClient) (a : UserBotAgent) : UserBotAgent :=
  {| u_base := u_base a; client := c |}.

Global Instance extends : Extends UserBotAgent :=
  {| base := u_base;
     with_base := λ f a, {| u_base := f (u_base a); client := client a |} |}.

Definition new (r : AgentRecord) : UserBotAgent :=
  {| u_base := BaseAgent.new r; client := None |}.

Definition getClient : M UserBotAgent (option TelegramClient) :=
  s ← getSelf; mret (client s).

Definition creds : M UserBotAgent AgentCredentials :=
  r ← getRecord; mret (credentials r).

(** [this.creds.sessionString = s]; the object is the record's. *)
Definition set_creds_sessionString (s : string) : M UserBotAgent unit :=
  modifySelf (with_base (with_record (λ r,
    with_credentials (TelegramStorage.with_sessionString s (credentials r)) r))).

Definition setupAutoReply : M UserBotAgent unit :=
  cfg ← getBehavior t_auto_reply;
  en ← cfg_enabled cfg;
  c ← getClient;
  match cfg with
  | Some l =>
      if en && bool_decide (is_Some c) then notify (AddEventHandler (AutoReplyHandler l))
      else mret tt
  | None => mret tt
  end.

Definition setupMonitor : M UserBotAgent unit :=
  cfg ← getBehavior t_monitor;
  en ← cfg_enabled cfg;
  c ← getClient;
  match cfg with
  | Some l =>
      if en && bool_decide (is_Some c) then notify (AddEventHandler (MonitorHandler l))
      else mret tt
  | None => mret tt
  end.

Definition setupBroadcast : M UserBotAgent unit :=
  cfg ← getBehavior t_broadcast;
  en ← cfg_enabled cfg;
  c ← getClient;
  match cfg with
  | Some l =>
      if en && bool_decide (is_Some c) then
        o ← deref l;
        let sched := get_broadcast o ≫= schedule in
        if truthy_opt sched then
          invoke (CronSchedule (default "" sched));;
          modifySelf (with_base (with_cronJobs
            (insert "broadcast" {| cron_expr := default "" sched;
                                   cron_task := BroadcastRun l |})))
        else spawn (BroadcastRun l)
      else mret tt
  | None => mret tt
  end.

Definition registerBehaviors (bs : list loc) : M UserBotAgent unit :=
  for_of bs (λ l,
    o ← deref l;
    when (has_type t_auto_reply o) setupAutoReply;;
    when (has_type t_monitor o) setupMonitor;;
    when (has_type t_broadcast o) setupBroadcast;;
    when (has_type t_parser o) (spawn ParserRun)).

Definition onBehaviorsChanged (bs : list loc) : M UserBotAgent unit :=
  st ← getStatus;
  c ← getClient;
  if bool_decide (st ≠ running) || negb (bool_decide (is_Some c)) then mret tt
  else
    clearCron;;
    await Disconnect;;
    await Connect;;
    registerBehaviors bs.

Global Instance agent : Agent UserBotAgent := Build_Agent _ _ onBehaviorsChanged.

(** One turn of the loop of [run]: the [try] block for one target. *)
Definition run_target (cfg : loc) (target : string) : M UserBotAgent unit :=
  try_catch
    (c ← deref cfg;
     cl ← getClient;
     match cl, get_broadcast c with
     | Some _, Some c =>
         await (SendMessage target (message c) (Some (default "html" (parseMode c))));;
         trackMessage dir_out (message c) target;;
         pushEvent message_out (PBroadcast target);;
         delay (default 2000 (delayBetweenMs c))
     | _, _ => throw (TypeError "Cannot read properties of null (reading 'sendMessage')")
     end)
    (λ _, mret tt).

(** The body of [run], the broadcast pass set up for the behaviour object
    [cfg]. *)
Definition run (cfg : loc) : M UserBotAgent unit :=
  o ← deref cfg;
  for_of (from_option get_targets [] o) (run_target cfg);;
  c ← deref cfg;
  if bool_decide (get_broadcast c ≫= onlyOnce = Some true) then
    set_disabled cfg;;
    r ← getRecord;
    updateBehaviors (behaviors r)
  else mret tt.

Definition start : M UserBotAgent unit :=
  st ← getStatus;
  if decide (st = running) then mret tt
  else
    setStatus starting None;;
    try_catch
      (e ← getEnv;
       if bool_decide (TG_API_ID (world e) = 0) || negb (truthy (TG_API_HASH (world e)))
       then throw (Error "TG_API_ID / TG_API_HASH not configured")
       else
         cr ← creds;
         let s := default "" (sessionString cr) in
         invoke (NewClient s);;
         modifySelf (with_client (Some {| session := s |}));;
         await Connect;;
         auth ← await IsUserAuthorized;
         if negb (match auth with ABool b => b | _ => false end) then
           setStatus error
             (Some "Not authorized — call telegram.agent.authStart then authSubmit")
         else
           saved ← invoke SessionSave;
           let saved := match saved with AText s => s | _ => "" end in
           when (truthy saved && negb (bool_decide (Some saved = sessionString cr)))
             (set_creds_sessionString saved;;
              b ← this;
              modifyEnv (TelegramStorage.updateSession (self_id b) saved));;
           r ← getRecord;
           registerBehaviors (behaviors r);;
           setStatus running None)
      (λ err, setStatus error (Some err);; throw err).

Definition stop : M UserBotAgent unit :=
  clearCron;;
  c ← getClient;
  when (bool_decide (is_Some c)) (await Disconnect;; mret tt);;
  modifySelf (with_client None);;
  setStatus stopped None.

Definition authStart : M UserBotAgent unit :=
  invoke (NewClient "");;
  modifySelf (with_client (Some {| session := "" |}));;
  await Connect;;
  cr ← creds;
  await (SendCode (phoneNumber cr));;
  mret tt.

Definition authSubmit (code : string) (password : option string) : M UserBotAgent unit :=
  c ← getClient;
  match c with
  | None => throw (Error "Call authStart first")
  | Some _ =>
      cr ← creds;
      await (SignInUser (phoneNumber cr) code
               (if truthy_opt password then password else None));;
      saved ← invoke SessionSave;
      let s := match saved with AText s => s | _ => "" end in
      set_creds_sessionString s;;
      b ← this;
      modifyEnv (TelegramStorage.updateSession (self_id b) s)
  end.

Definition to_dto (m : RawMessage) : MessageDto :=
  {| dto_id := m_id m; dto_text := m_message m; dto_date := m_date m * 1000;
     hasMedia := m_media m |}.

Definition callTool (tool : string) (args : ToolArgs) : M UserBotAgent ToolResult :=
  c ← getClient;
  match c with
  | None => throw (Error "Agent not running")
  | Some _ =>
      if bool_decide (tool = "sendMessage") then
        a ← await (SendMessage (arg_target args) (arg_message args) (arg_parseMode args));
        mret (Raw a)
      else if bool_decide (tool = "getMessages") then
        a ← await (GetMessages (arg_target args) (default 50 (arg_limit args)));
        match a with
        | AMessages ms => mret (Messages (to_dto <$> ms))
        | _ => throw (TypeError "msgs.map is not a function")
        end
      else if bool_decide (tool = "getMembers") then
        a ← await (GetParticipants (arg_target args) (default 200 (arg_limit args)));
        match a with
        | AUsers us => mret (Members us)
        | _ => throw (TypeError "parts.map is not a function")
        end
      else if bool_decide (tool = "joinChat") then
        await (GetInputEntity (arg_target args));;
        a ← await (JoinChannel (arg_target args));
        mret (Raw a)
      else if bool_decide (tool = "leaveChat") then
        await (GetInputEntity (arg_target args));;
        a ← await (LeaveChannel (arg_target args));
        mret (Raw a)
      else if bool_decide (tool = "getMe") then
        a ← await GetMe; mret (Raw a)
      else throw (Error ("Unknown tool: " +:+ tool))
  end.

(** The handler [setupAutoReply] registers for the behaviour object [cfg]. *)
Definition autoReplyHandler (cfg : loc) (event : NewMessageEvent) : M UserBotAgent unit :=
  match ev_message event with
  | None => mret tt
  | Some msg =>
      if msg_out msg then mret tt
      else
        let text := default "" (msg_text msg) in
        let chatId := default "" (msg_chatId msg) in
        b ← this;
        let key := self_id b +:+ ":" +:+ chatId in
        e ← getEnv;
        let now := clock e in
        o ← deref cfg;
        match o with
        | Some (auto_reply c) =>
            let cd := default 5 (cooldownSeconds c) * 1000 in
            match cooldowns e !! key with
            | Some last => if bool_decide (now - last < cd) then mret false else mret true
            | None => mret true
            end ≫= λ go,
            if negb go then mret tt
            else if negb (shouldAutoReply c text chatId) then mret tt
            else
              trackMessage dir_in text chatId;;
              reply ← match replyMode c with
                      | ai => AiReplyEngine.aiReply text key (aiSystemPrompt c)
                      | template => mret (BotAgent.template_reply c text)
                      end;
              if truthy reply then
                await (MsgReply chatId reply);;
                modifyEnv (λ e, set_cooldowns (<[key := clock e]> (cooldowns e)) e);;
                trackMessage dir_out reply chatId
              else mret tt
        | _ => throw (TypeError "Cannot read properties of undefined")
        end
  end.

End UserBotAgent.

(** ** AgentManager.ts *)

(** A JavaScript [Map] with string keys: iteration follows insertion order. *)
Module JsMap.

Definition t (V : Type) : Type := list (string * V).

Fixpoint get {V} (k : string) (m : t V) : option V :=
  match m with
  | [] => None
  | (k', v) :: m' => if decide (k = k') then Some v else get k m'
  end.

Fixpoint set {V} (k : string) (v : V) (m : t V) : t V :=
  match m with
  | [] => [(k, v)]
  | (k', v') :: m' =>
      if decide (k = k') then (k', v) :: m' else (k', v') :: set k v m'
  end.

Definition delete {V} (k : string) (m : t V) : t V :=
  filter (λ kv, kv.1 ≠ k) m.

Definition values {V} (m : t V) : list V := m.*2.

End JsMap.

(** An object of the pool is of one of the two classes. *)
Inductive PooledAgent :=
| PBot (a : BotAgent)
| PUser (a : UserBotAgent).

Record AgentManager := { pool : JsMap.t PooledAgent }.

Module AgentManager.

Definition with_pool (f : JsMap.t PooledAgent → JsMap.t PooledAgent)
    (m : AgentManager) : AgentManager :=
  {| pool := f (pool m) |}.

(** [agent.getRecord()] *)
Definition getRecord (a : PooledAgent) : AgentRecord :=
  match a with
  | PBot a => record (b_base a)
  | PUser a => record (u_base a)
  end.

(** [spawn(record)]; the events of the agent reach the listeners of the
    manager through [emitted]. *)
Definition spawn (r : AgentRecord) : PooledAgent :=
  if bool_decide (rec_type r = "userbot") then PUser (UserBotAgent.new r)
  else PBot (BotAgent.new r).

Definition randomUUID : M AgentManager string :=
  e ← getEnv;
  notify RandomUUID;;
  mret (w_randomUUID (world e) (wire e)).

(** [name] and [credentials] are [None] when the caller passed
    [undefined]. *)
Definition create (nm : option string) (creds : option AgentCredentials)
    (bs : list loc) : M AgentManager AgentRecord :=
  e ← getEnv;
  let now := clock e in
  uuid ← randomUUID;
  match creds with
  | None => throw (TypeError "Cannot read properties of undefined (reading 'type')")
  | Some c =>
      r ← TelegramStorage.saveAgent
             {| o_id := uuid; o_name := nm; o_type := cred_type c; o_status := stopped;
                o_credentials := c; o_behaviors := bs; o_createdAt := now;
                o_updatedAt := now; o_lastError := None;
                o_stats := {| sent := 0; received := 0; parsed := 0 |} |};
      modifySelf (with_pool (JsMap.set (id r) (spawn r)));;
      mret r
  end.

Definition get (i : string) : M AgentManager (option AgentRecord) :=
  m ← getSelf;
  match JsMap.get i (pool m) with
  | Some a => mret (Some (getRecord a))
  | None => λ e s, let '(r, e') := TelegramStorage.getAgent i e in (Ok r, e', s)
  end.

(** A method call on a pooled object, dispatched on its class; the object
    is changed in place, also when the method throws. *)
Definition on_agent {A} (i : string) (a : PooledAgent)
    (mb : M BotAgent A) (mu : M UserBotAgent A) : M AgentManager A := λ e m,
  match a with
  | PBot b => let '(r, e', b') := mb e b in
              (r, e', with_pool (JsMap.set i (PBot b')) m)
  | PUser u => let '(r, e', u') := mu e u in
               (r, e', with_pool (JsMap.set i (PUser u')) m)
  end.

Definition get_or_throw (i : string) : M AgentManager PooledAgent :=
  m ← getSelf;
  match JsMap.get i (pool m) with
  | Some a => mret a
  | None => throw (Error ("Agent not found: " +:+ i))
  end.

Definition delete (i : string) : M AgentManager unit :=
  m ← getSelf;
  match JsMap.get i (pool m) with
  | Some a => on_agent i a BotAgent.stop UserBotAgent.stop
  | None => mret tt
  end;;
  modifySelf (with_pool (JsMap.delete i));;
  modifyEnv (TelegramStorage.deleteAgent i).

Definition start (i : string) : M AgentManager unit :=
  a ← get_or_throw i; on_agent i a BotAgent.start UserBotAgent.start.

Definition stop (i : string) : M AgentManager unit :=
  a ← get_or_throw i; on_agent i a BotAgent.stop UserBotAgent.stop.

Definition restart (i : string) : M AgentManager unit :=
  stop i;;
  modifyEnv (advance 800);;
  start i.

Definition setBehaviors (i : string) (bs : list loc) : M AgentManager unit :=
  a ← get_or_throw i;
  on_agent i a (BaseAgent.updateBehaviors bs) (BaseAgent.updateBehaviors bs).

Definition authStart (i : string) : M AgentManager unit :=
  a ← get_or_throw i;
  on_agent i a (throw (Error "Only userbot agents support auth")) UserBotAgent.authStart.

Definition authSubmit (i : string) (code : string) (password : option string)
    : M AgentManager unit :=
  a ← get_or_throw i;
  on_agent i a (throw (Error "Only userbot agents support auth"))
    (UserBotAgent.authSubmit code password;; UserBotAgent.start).

Definition callTool (i : string) (tool : string) (args : ToolArgs)
    : M AgentManager ToolResult :=
  a ← get_or_throw i;
  on_agent i a (BotAgent.callTool tool args) (UserBotAgent.callTool tool args).

Definition getEvents (i : option string) (lim : option Z)
    : M AgentManager (list TelegramEvent) :=
  e ← getEnv; mret (TelegramStorage.getEvents i lim e).

Definition getParsed (i : string) (lim : option Z) : M AgentManager (list ParsedRow) :=
  e ← getEnv; mret (TelegramStorage.getParsed i lim e).

(** [Promise.allSettled] over the stops of the pooled agents, taken one
    after the other; a failing stop does not reach the caller. *)
Definition shutdown : M AgentManager unit :=
  m ← getSelf;
  for_of (pool m) (λ '(i, _),
    try_catch (stop i) (λ _, mret tt)).

Definition list : M AgentManager (list AgentRecord) :=
  m ← getSelf; mret (getRecord <$> JsMap.values (pool m)).

End AgentManager.

(** ** TelegramPlugin.ts *)

(** A gateway message, read as its method with the parameters that method
    takes from [msg.params]; the behaviour lists arrive as JSON. *)
Inductive GatewayMessage :=
| agent_list
| agent_get (agentId : string)
| agent_create (nm : option string) (creds : option AgentCredentials)
    (bs : option (list BehaviorConfig))
| agent_delete (agentId : string)
| agent_start (agentId : string)
| agent_stop (agentId : string)
| agent_restart (agentId : string)
| agent_setBehaviors (agentId : string) (bs : list BehaviorConfig)
| agent_authStart (agentId : string)
| agent_authSubmit (agentId : string) (code : string) (password : option string)
| tool_call (agentId : string) (tool : string) (args : ToolArgs)
| events_get (agentId : option string) (lim : option Z)
| parsed_get (agentId : string) (lim : option Z)
| other_method (method : string).

(** What is handed to [reply] or [res.json]. *)
Inductive Reply :=
| RRecords (rs : list (option AgentRecord))
| RRecord (r : option AgentRecord)
| RDeleted
| RStatus (s : string)
| ROk
| RCodeSent
| RAuthenticated
| RData (d : ToolResult)
| REvents (evs : list TelegramEvent)
| RParsed (rows : list ParsedRow)
| RError (err : string).

Inductive HttpRequest :=
| GET_agents
| GET_agent (i : string)
| POST_agents (nm : option string) (creds : option AgentCredentials)
    (bs : option (list BehaviorConfig))
| DELETE_agent (i : string)
| POST_start (i : string)
| POST_stop (i : string)
| POST_restart (i : string)
| PUT_behaviors (i : string) (bs : list BehaviorConfig)
| POST_auth_start (i : string)
| POST_auth_submit (i : string) (code : string) (password : option string)
| POST_tool (i : string) (tool : string) (args : ToolArgs)
| GET_events (i : string) (lim : option Z)
| GET_parsed (i : string) (lim : option Z).

Record HttpResponse := { http_status : Z; http_body : Reply }.

Module TelegramPlugin.

Definition mask (c : AgentCredentials) : AgentCredentials :=
  {| cred_type := cred_type c;
     token := if truthy_opt (token c)
              then Some (slice0 10 (default "" (token c)) +:+ ellipsis)
              else token c;
     phoneNumber := phoneNumber c;
     sessionString := if truthy_opt (sessionString c) then Some "[saved]"
                      else sessionString c |}.

(** Mask token / sessionString in API responses *)
Definition safeRecord (r : option AgentRecord) : option AgentRecord :=
  match r with
  | None => None
  | Some r => Some (with_credentials (mask (credentials r)) r)
  end.

(** The objects [JSON.parse] builds for a behaviour list of a request. *)
Definition alloc {S} (vs : list BehaviorConfig) : M S (list loc) :=
  e ← getEnv;
  modifyEnv (set_heap (heap e ++ vs));;
  mret (seq (length (heap e)) (length vs)).

(** [handleMessage]: [None] is [return false] (not ours); otherwise the
    message handed to [reply]. *)
Definition handleMessage (msg : GatewayMessage) : M AgentManager (option Reply) :=
  match msg with
  | other_method m =>
      if String.prefix "telegram." m then mret (Some (RError ("Unknown method: " +:+ m)))
      else mret None
  | _ =>
      try_catch
        (match msg with
         | agent_list =>
             rs ← AgentManager.list; mret (RRecords ((safeRecord ∘ Some) <$> rs))
         | agent_get i =>
             r ← AgentManager.get i; mret (RRecord (safeRecord r))
         | agent_create nm creds bs =>
             ls ← alloc (default [] bs);
             r ← AgentManager.create nm creds ls;
             mret (RRecord (safeRecord (Some r)))
         | agent_delete i => AgentManager.delete i;; mret RDeleted
         | agent_start i => AgentManager.start i;; mret (RStatus "started")
         | agent_stop i => AgentManager.stop i;; mret (RStatus "stopped")
         | agent_restart i => AgentManager.restart i;; mret (RStatus "restarted")
         | agent_setBehaviors i bs =>
             ls ← alloc bs; AgentManager.setBehaviors i ls;; mret ROk
         | agent_authStart i => AgentManager.authStart i;; mret RCodeSent
         | agent_authSubmit i code password =>
             AgentManager.authSubmit i code password;; mret RAuthenticated
         | tool_call i tool args =>
             d ← AgentManager.callTool i tool args; mret (RData d)
         | events_get i lim =>
             evs ← AgentManager.getEvents i lim; mret (REvents evs)
         | parsed_get i lim =>
             rows ← AgentManager.getParsed i lim; mret (RParsed rows)
         | other_method m => mret (RError ("Unknown method: " +:+ m))
         end)
        (λ err, mret (RError err)) ≫= λ r, mret (Some r)
  end.

(** The handlers of [httpRoutes()]; they have no [catch] of their own. *)
Definition httpRoutes (req : HttpRequest) : M AgentManager HttpResponse :=
  let json (st : Z) (b : Reply) : M AgentManager HttpResponse :=
    mret {| http_status := st; http_body := b |} in
  match req with
  | GET_agents =>
      rs ← AgentManager.list; json 200 (RRecords ((safeRecord ∘ Some) <$> rs))
  | GET_agent i =>
      r ← AgentManager.get i;
      match r with
      | Some r => json 200 (RRecord (safeRecord (Some r)))
      | None => json 404 (RError "Not found")
      end
  | POST_agents nm creds bs =>
      ls ← alloc (default [] bs);
      r ← AgentManager.create nm creds ls;
      json 201 (RRecord (safeRecord (Some r)))
  | DELETE_agent i => AgentManager.delete i;; json 200 ROk
  | POST_start i => AgentManager.start i;; json 200 ROk
  | POST_stop i => AgentManager.stop i;; json 200 ROk
  | POST_restart i => AgentManager.restart i;; json 200 ROk
  | PUT_behaviors i bs => ls ← alloc bs; AgentManager.setBehaviors i ls;; json 200 ROk
  | POST_auth_start i => AgentManager.authStart i;; json 200 RCodeSent
  | POST_auth_submit i code password =>
      AgentManager.authSubmit i code password;; json 200 RAuthenticated
  | POST_tool i tool args =>
      d ← AgentManager.callTool i tool args; json 200 (RData d)
  | GET_events i lim =>
      evs ← AgentManager.getEvents (Some i) (Some (default 200 lim)); json 200 (REvents evs)
  | GET_parsed i lim =>
      rows ← AgentManager.getParsed i (Some (default 1000 lim)); json 200 (RParsed rows)
  end.

End TelegramPlugin.

(** * Specification vocabulary *)

(** ** Observations on the environment *)

(** The [sendMessage] requests among the requests made. *)
Definition is_send (r : Request) : bool :=
  match r with
  | BotSendMessage _ _ _ | SendMessage _ _ _ => true
  | _ => false
  end.

Definition sends (w : list Request) : list Request := List.filter is_send w.

(** The broadcast passes among the tasks started. *)
Definition is_run (t : string * Task) : bool :=
  match t.2 with BroadcastRun _ => true | ParserRun => false end.

Definition runs (ts : list (string * Task)) : list (string * Task) := List.filter is_run ts.

(** The writes of a behaviour list among the storage calls. *)
Definition is_update (c : StorageCall) : bool :=
  match c with UpdateBehaviors _ _ => true | _ => false end.

Definition updates (cs : list StorageCall) : list StorageCall := List.filter is_update cs.

(** [getBehavior("broadcast")?.enabled] is falsy. *)
Definition broadcast_off (h : list BehaviorConfig) (bs : list loc) : Prop :=
  from_option (λ l, from_option enabled false (h !! l)) false
              (BaseAgent.find_behavior h t_broadcast bs) = false.

(** The state a computation ends in. *)
Definition final {S A} (x : result A * Env * S) : Env * S := (x.1.2, x.2).

(** ** Relations between states *)

(** [keeps R m]: whatever [m] does, and whether it returns or throws, the
    state it ends in is related by [R] to the state it started from. *)
Definition keeps {S : Type} (R : relation (Env * S)) {A : Type} (m : M S A) : Prop :=
  ∀ e s, R (e, s) (final (m e s)).

(** [quiet x y]: from [x] to [y] nothing was written to the store, no
    behaviour object and no record changed, no message was sent, and no
    broadcast pass was started unless the broadcast behaviour is enabled. *)
Definition quiet {S : Type} `{Extends S} (x y : Env * S) : Prop :=
  world y.1 = world x.1 ∧
  storage y.1 = storage x.1 ∧
  db_calls y.1 = db_calls x.1 ∧
  heap y.1 = heap x.1 ∧
  emitted y.1 = emitted x.1 ∧
  sends (wire y.1) = sends (wire x.1) ∧
  record (base y.2) = record (base x.2) ∧
  self_id (base y.2) = self_id (base x.2) ∧
  (broadcast_off (heap x.1) (behaviors (record (base x.2))) →
   runs (tasks y.1) = runs (tasks x.1)).

(** [later x y]: from [x] to [y] events were only added, to the log of the
    store and to the emitter, and no [received] counter changed. *)
Definition later {S : Type} `{Extends S} (x y : Env * S) : Prop :=
  (∃ rest, emitted y.1 = emitted x.1 ++ rest) ∧
  (∃ rest, tg_events (storage y.1) = tg_events (storage x.1) ++ rest) ∧
  (∀ i, received <$> persisted_stats i y.1 = received <$> persisted_stats i x.1) ∧
  base y.2 = base x.2.

(** ** The broadcast pass *)

(** The environment after a message was counted as sent and its event
    pushed. *)
Definition tracked_out (i nm text chat : string) (e : Env) : Env :=
  let e1 := TelegramStorage.incrementStat i f_sent e in
  let ev := {| agentId := i; agentName := nm; ev_type := message_out;
               payload := PMessage (slice0 500 text) chat; timestamp := clock e1 |} in
  add_emitted ev (TelegramStorage.saveEvent ev e1).

(** The environment after the extra [message_out] event of the session
    agent. *)
Definition broadcast_event (i nm target : string) (e : Env) : Env :=
  let ev := {| agentId := i; agentName := nm; ev_type := message_out;
               payload := PBroadcast target; timestamp := clock e |} in
  add_emitted ev (TelegramStorage.saveEvent ev e).

(** [pass_step rs x y]: from [x] to [y] the [sendMessage] requests [rs]
    were made, in this order, and no behaviour object, no behaviour list,
    no row and no task came or went. *)
Definition pass_step {S : Type} (rs : list Request) (x y : Env * S) : Prop :=
  world y.1 = world x.1 ∧ heap y.1 = heap x.1 ∧ y.2 = x.2 ∧
  sends (wire y.1) = sends (wire x.1) ++ rs ∧
  updates (db_calls y.1) = updates (db_calls x.1) ∧
  (∀ i, persisted_behaviors i y.1 = persisted_behaviors i x.1) ∧
  (∀ i, is_Some (tg_agents (storage x.1) !! i) → is_Some (tg_agents (storage y.1) !! i)) ∧
  tasks y.1 = tasks x.1.

(** What one pass over the targets [A; B] leaves behind when the send to
    [A] succeeds and the send to [B] fails: both sends were made, once
    each and in this order; one message was counted as sent; the
    behaviour object is disabled; the behaviour list was written to the
    store once, with the object disabled; no further pass was started. *)
Definition pass_outcome {S} `{Extends S} (sendA sendB : Request) (cfg : loc)
    (row : Row) (e : Env) (s : S) (x : result () * Env * S) : Prop :=
  let i := self_id (base s) in
  let bs := behaviors (record (base s)) in
  sends (wire x.1.2) = sends (wire e) ++ [sendA; sendB] ∧
  sent <$> persisted_stats i x.1.2 = Some (sent (c_stats row) + 1) ∧
  heap x.1.2 = alter BaseAgent.disable cfg (heap e) ∧
  enabled <$> heap x.1.2 !! cfg = Some false ∧
  updates (db_calls x.1.2)
    = updates (db_calls e) ++ [UpdateBehaviors i (snapshot (heap x.1.2) bs)] ∧
  persisted_behaviors i x.1.2 = Some (snapshot (heap x.1.2) bs) ∧
  runs (tasks x.1.2) = runs (tasks e).

(** ** Reads through the gateway *)

(** The agent records a reply carries. *)
Definition records_of (r : Reply) : list AgentRecord :=
  match r with
  | RRecords rs => omap (λ r, r) rs
  | RRecord (Some r) => [r]
  | _ => []
  end.

(** A token as a reader may see it: of the token of the agent only the
    first ten characters are there, followed by the ellipsis; a token
    that is absent or empty holds nothing to hide and is shown as it is. *)
Definition shown_token (t0 t : option string) : Prop :=
  match t0 with
  | None => t = None
  | Some EmptyString => t = Some EmptyString
  | Some s =>
      ∃ visible hidden,
        s = visible +:+ hidden ∧
        String.length visible = Nat.min 10 (String.length s) ∧
        t = Some (visible +:+ ellipsis)
  end.

(** A session string as a reader may see it: the placeholder in its place;
    absent or empty it is shown as it is. *)
Definition shown_session (s0 s : option string) : Prop :=
  match s0 with
  | None => s = None
  | Some EmptyString => s = Some EmptyString
  | Some _ => s = Some "[saved]"
  end.

(** [shown r0 r]: [r] is the record [r0] of an agent as a reader may see
    it.  Every field but the token and the session string is the field of
    [r0]; the token and the session string are shown as above. *)
Definition shown (r0 r : AgentRecord) : Prop :=
  id r = id r0 ∧ name r = name r0 ∧ rec_type r = rec_type r0 ∧
  status r = status r0 ∧ behaviors r = behaviors r0 ∧
  createdAt r = createdAt r0 ∧ updatedAt r = updatedAt r0 ∧
  lastError r = lastError r0 ∧ stats r = stats r0 ∧
  cred_type (credentials r) = cred_type (credentials r0) ∧
  phoneNumber (credentials r) = phoneNumber (credentials r0) ∧
  shown_token (token (credentials r0)) (token (credentials r)) ∧
  shown_session (sessionString (credentials r0)) (sessionString (credentials r)).

(** The records the manager holds at [x]: the record of a pooled agent, or
    the record read from a row of the store. *)
Definition held (x : Env * AgentManager) (r0 : AgentRecord) : Prop :=
  (∃ i a, (i, a) ∈ pool x.2 ∧ AgentManager.getRecord a = r0) ∨
  (∃ i row e0, tg_agents (storage x.1) !! i = Some row ∧
               r0 = (TelegramStorage.toRecord row e0).1).

(** A reply in which every agent record is a record the manager holds, as
    a reader may see it. *)
Definition safe_reply (x : Env * AgentManager) (rep : Reply) : Prop :=
  ∀ r, r ∈ records_of rep → ∃ r0, held x r0 ∧ shown r0 r.

(** ** Creating an agent *)


(** ** What a method may change *)

(** A class whose [with_base] changes the inherited fields and nothing
    else of them. *)
Class Lawful (S : Type) `{Extends S} : Prop :=
  base_with_base : ∀ (f : BaseAgent → BaseAgent) (s : S), base (with_base f s) = f (base s).

Global Instance bot_lawful : Lawful BotAgent := λ _ _, eq_refl.
Global Instance userbot_lawful : Lawful UserBotAgent := λ _ _, eq_refl.

(** The columns of a row that say which agent it is. *)
Definition identity (row : Row) : string * string * string * Z :=
  (c_id row, c_name row, c_type row, c_created_at row).

(** The credentials but for the session string. *)
Definition login (c : AgentCredentials)
    : option string * option string * option string :=
  (cred_type c, token c, phoneNumber c).

(** The fields of the record an agent holds in memory, but for its status,
    its behaviour list and the session string. *)
Definition frozen (r : AgentRecord)
    : string * string * string * Z * Z * option string * Stats
      * (option string * option string * option string) :=
  (id r, name r, rec_type r, createdAt r, updatedAt r, lastError r, stats r,
   login (credentials r)).

(** The status column of the agent's row, when it has a row, is the status
    of the record in memory. *)
Definition in_sync {S : Type} `{Extends S} (x : Env * S) : Prop :=
  ∀ row, tg_agents (storage x.1) !! self_id (base x.2) = Some row →
         c_status row = status (record (base x.2)).

(** [steady x y]: from [x] to [y] the agent is the same agent, nothing of
    its record changed but the status, the behaviour list and the session
    string, no row came or went, no row changed its identity or login, no
    row of another agent changed at all, events were only added, and the
    status column followed the record. *)
Definition steady {S : Type} `{Extends S} (x y : Env * S) : Prop :=
  world y.1 = world x.1 ∧
  self_id (base y.2) = self_id (base x.2) ∧
  self_name (base y.2) = self_name (base x.2) ∧
  frozen (record (base y.2)) = frozen (record (base x.2)) ∧
  (∀ j, identity <$> tg_agents (storage y.1) !! j
        = identity <$> tg_agents (storage x.1) !! j) ∧
  (∀ j, login ∘ c_credentials <$> tg_agents (storage y.1) !! j
        = login ∘ c_credentials <$> tg_agents (storage x.1) !! j) ∧
  (∀ j, j ≠ self_id (base x.2) →
        tg_agents (storage y.1) !! j = tg_agents (storage x.1) !! j) ∧
  (∃ rest, tg_events (storage y.1) = tg_events (storage x.1) ++ rest) ∧
  (∃ rest, emitted y.1 = emitted x.1 ++ rest) ∧
  (in_sync x → in_sync y).


(** [preserves I x y]: if [I] holds at [x], it holds at [y]. *)
Definition preserves {S : Type} (I : Env * S → Prop) : relation (Env * S) :=
  λ x y, I x → I y.




(** The inherited fields of a pooled object. *)
Definition agent_base (a : PooledAgent) : BaseAgent :=
  match a with PBot b => b_base b | PUser u => u_base u end.

(** Every pooled agent is pooled under its own id and has a row, whose
    status column is the status of the agent's record. *)
Definition pool_ok (x : Env * AgentManager) : Prop :=
  ∀ i a, JsMap.get i (pool x.2) = Some a →
         self_id (agent_base a) = i ∧
         ∃ row, tg_agents (storage x.1) !! i = Some row ∧
                c_status row = status (record (agent_base a)).

(** ** Events and rows *)

(** [sub] occurs in [s]. *)
Definition occurs_in (sub s : string) : Prop := ∃ pre post, s = pre +:+ sub +:+ post.

(** The [status_change] event of an agent. *)
Definition status_event (b : BaseAgent) (st : AgentStatus) (err : option string) (t : Z)
    : TelegramEvent :=
  {| agentId := self_id b; agentName := self_name b; ev_type := status_change;
     payload := PStatus st err; timestamp := t |}.

(** From [x] to [y] the agent kept the handle it had. *)
Definition same_bot (x y : Env * BotAgent) : Prop := bot y.2 = bot x.2.

(** The status and the error text in the agent's row are [st] and [err];
    an agent without a row in [e] still has none. *)
Definition row_status (i : string) (st : AgentStatus) (err : option string)
    (e e' : Env) : Prop :=
  ((λ row, (c_status row, c_last_error row)) <$> tg_agents (storage e') !! i)
  = ((λ _, (st, err)) <$> tg_agents (storage e) !! i).

(** ** Concrete agents, used to exercise the statements below *)

Module Scenario.

(** A world in which every request succeeds, but for the requests [bad]
    says fail. *)
Definition world_failing (bad : Request → bool) : World :=
  {| w_answer := λ _ r,
       if bad r then AFail "Error: network"
       else match r with
            | IsUserAuthorized => ABool true
            | SessionSave => AText "1BVtsOK4Bu5"
            | MessagesCreate _ _ => AText "ok"
            | _ => AUnit
            end;
     w_elapsed := λ _ _, 100;
     w_randomUUID := λ _, "7f9c0000-0000-4000-8000-000000000001";
     TG_API_ID := 12345678;
     TG_API_HASH := "abcdef" |}.

Definition boot (w : World) (h : list BehaviorConfig) : Env :=
  {| world := w;
     storage := {| tg_agents := ∅; tg_events := []; tg_parsed := [] |};
     db_calls := []; heap := h; emitted := []; wire := []; tasks := [];
     clock := 1000; cooldowns := ∅; histories := ∅ |}.

Definition bot_credentials : AgentCredentials :=
  {| cred_type := Some "bot"; token := Some "123456:ABC-DEF1234ghIkl";
     phoneNumber := None; sessionString := None |}.

Definition userbot_credentials : AgentCredentials :=
  {| cred_type := Some "userbot"; token := None; phoneNumber := Some "+79001234567";
     sessionString := Some "1BVtsOK4Bu5" |}.

Definition hello : BehaviorConfig :=
  auto_reply {| ar_enabled := true; replyMode := template; aiSystemPrompt := None;
                triggerKeywords := None;
                templates := Some [{| trigger := "hi"; response := "hello!" |}];
                onlyInChats := None; cooldownSeconds := Some 5 |}.

Definition once (targets : list string) : BehaviorConfig :=
  broadcast {| bc_enabled := true; bc_targets := targets; message := "news";
               schedule := None; parseMode := None; delayBetweenMs := None;
               onlyOnce := Some true |}.

(** The pool and the environment after [create] in a new process. *)
Definition created (w : World) (h : list BehaviorConfig) (c : AgentCredentials)
    : Env * AgentManager :=
  final (AgentManager.create (Some "agent") (Some c) (seq 0 (length h)) (boot w h)
           {| pool := [] |}).

Definition the_id : string := "7f9c0000-0000-4000-8000-000000000001".

Definition blank : AgentRecord :=
  {| id := ""; name := ""; rec_type := "bot"; status := stopped;
     credentials := bot_credentials; behaviors := []; createdAt := 0;
     updatedAt := 0; lastError := None;
     stats := {| sent := 0; received := 0; parsed := 0 |} |}.

(** The agent object [create] pooled. *)
Definition bot_of (m : AgentManager) : BotAgent :=
  match JsMap.get the_id (pool m) with
  | Some (PBot a) => a
  | _ => BotAgent.new blank
  end.

Definition userbot_of (m : AgentManager) : UserBotAgent :=
  match JsMap.get the_id (pool m) with
  | Some (PUser a) => a
  | _ => UserBotAgent.new blank
  end.

(** A token agent after [start()] and the [onStart] callback. *)
Definition running_bot (w : World) (h : list BehaviorConfig) : Env * BotAgent :=
  let '(e, m) := created w h bot_credentials in
  let '(e1, a1) := final (BotAgent.start e (bot_of m)) in
  final (BotAgent.onStart e1 a1).

(** A session agent after [start()]. *)
Definition running_userbot (w : World) (h : list BehaviorConfig) : Env * UserBotAgent :=
  let '(e, m) := created w h userbot_credentials in
  final (UserBotAgent.start e (userbot_of m)).

(** [n] exchanges in one conversation. *)
Fixpoint exchanges (n : nat) (key : string) : M () () :=
  match n with
  | O => mret ()
  | S n' => AiReplyEngine.aiReply "hello" key None;; exchanges n' key
  end.

(** An inbound "hi" in chat 42. *)
Definition hi : Context := {| ctx_text := Some "hi"; ctx_chat := Some "42" |}.

Definition hi_event : NewMessageEvent :=
  {| ev_message := Some {| msg_out := false; msg_text := Some "hi";
                           msg_chatId := Some "42" |} |}.

(** The replies among the requests made. *)
Definition replies (w : list Request) : list Request :=
  List.filter (λ r, match r with CtxReply _ _ | MsgReply _ _ => true | _ => false end) w.

End Scenario.

(** Arguments for a tool call. *)
Definition no_args : ToolArgs :=
  {| arg_target := "@someone"; arg_message := "hi"; arg_parseMode := None;
     arg_limit := None |}.

(** * Proofs *)

(** ** Rules for [keeps] *)

Section Keeps.
Context {S : Type} (R : relation (Env * S)) `{!PreOrder R}.

Lemma keeps_ret {A} (a : A) : keeps R (mret a).
Proof. intros e s. reflexivity. Qed.

Lemma keeps_throw {A} err : keeps R (throw (A:=A) err).
Proof. intros e s. reflexivity. Qed.

Lemma keeps_getEnv : keeps R getEnv.
Proof. intros e s. reflexivity. Qed.

Lemma keeps_getSelf : keeps R getSelf.
Proof. intros e s. reflexivity. Qed.

Lemma keeps_bind {A B} (m : M S A) (f : A → M S B) :
  keeps R m → (∀ a, keeps R (f a)) → keeps R (m ≫= f).
Proof.
  intros Hm Hf e s. specialize (Hm e s).
  unfold mbind, M_bind. destruct (m e s) as [[[a|err] e'] s']; [|exact Hm].
  etrans; [exact Hm|]. apply Hf.
Qed.

Lemma keeps_try_catch {A} (m : M S A) (h : string → M S A) :
  keeps R m → (∀ err, keeps R (h err)) → keeps R (try_catch m h).
Proof.
  intros Hm Hh e s. specialize (Hm e s).
  unfold try_catch. destruct (m e s) as [[[a|err] e'] s']; [exact Hm|].
  etrans; [exact Hm|]. apply Hh.
Qed.

Lemma keeps_when (b : bool) (m : M S unit) : keeps R m → keeps R (when b m).
Proof. intros Hm. destruct b; [exact Hm|apply keeps_ret]. Qed.

Lemma keeps_for_of {A} (xs : list A) (body : A → M S unit) :
  (∀ x, keeps R (body x)) → keeps R (for_of xs body).
Proof.
  intros Hb. induction xs as [|x xs IH]; simpl; [apply keeps_ret|].
  apply keeps_bind; auto.
Qed.

Lemma keeps_modifyEnv (f : Env → Env) :
  (∀ e s, R (e, s) (f e, s)) → keeps R (modifyEnv f).
Proof. intros Hf e s. apply Hf. Qed.

Lemma keeps_modifySelf (f : S → S) :
  (∀ e s, R (e, s) (e, f s)) → keeps R (modifySelf f).
Proof. intros Hf e s. apply Hf. Qed.

Lemma keeps_notify r :
  (∀ e s, R (e, s) (add_wire r 0 e, s)) → keeps R (notify r).
Proof. intros Hr e s. apply Hr. Qed.

Lemma keeps_invoke r :
  (∀ e s, R (e, s) (add_wire r 0 e, s)) → keeps R (invoke r).
Proof.
  intros Hr e s. unfold invoke.
  destruct (w_answer (world e) (wire e) r); apply Hr.
Qed.

Lemma keeps_await r :
  (∀ dt e s, R (e, s) (add_wire r dt e, s)) → keeps R (await r).
Proof.
  intros Hr e s. unfold await.
  destruct (w_answer (world e) (wire e) r); apply Hr.
Qed.

Context `{Extends S}.

Lemma keeps_this : keeps R BaseAgent.this.
Proof.
  apply keeps_bind; [apply keeps_getSelf|]. intros; apply keeps_ret.
Qed.

Lemma keeps_getRecord : keeps R BaseAgent.getRecord.
Proof. apply keeps_bind; [apply keeps_this|]. intros; apply keeps_ret. Qed.

Lemma keeps_getStatus : keeps R BaseAgent.getStatus.
Proof. apply keeps_bind; [apply keeps_this|]. intros; apply keeps_ret. Qed.

Lemma keeps_getBehavior ty : keeps R (BaseAgent.getBehavior ty).
Proof.
  apply keeps_bind; [apply keeps_this|]. intros.
  apply keeps_bind; [apply keeps_getEnv|]. intros; apply keeps_ret.
Qed.

Lemma keeps_deref l : keeps R (BaseAgent.deref l).
Proof. apply keeps_bind; [apply keeps_getEnv|]. intros; apply keeps_ret. Qed.

Lemma keeps_cfg_enabled cfg : keeps R (BaseAgent.cfg_enabled cfg).
Proof.
  destruct cfg; simpl; [|apply keeps_ret].
  apply keeps_bind; [apply keeps_deref|]. intros; apply keeps_ret.
Qed.

End Keeps.

(** ** [quiet] computations *)

Section Quiet.
Context {S : Type} `{Extends S}.

Global Instance quiet_preorder : PreOrder quiet.
Proof.
  split.
  - intros x. unfold quiet; tauto.
  - intros x y z. unfold quiet.
    intros (?&?&?&Hh&?&?&Hr&?&Ht) (?&?&?&?&?&?&?&?&Ht').
    repeat split; try congruence.
    intros Hoff. rewrite Ht', Ht; auto. by rewrite Hh, Hr.
Qed.

Lemma sends_app w r : sends (w ++ [r]) = sends w ++ (if is_send r then [r] else []).
Proof. unfold sends. rewrite List.filter_app. simpl. by destruct (is_send r). Qed.

Lemma quiet_add_wire r dt e (s : S) : is_send r = false → quiet (e, s) (add_wire r dt e, s).
Proof.
  intros Hr. unfold quiet; simpl. rewrite sends_app, Hr, app_nil_r. tauto.
Qed.

Lemma quiet_modifySelf (f : S → S) e s :
  record (base (f s)) = record (base s) →
  self_id (base (f s)) = self_id (base s) →
  quiet (e, s) (e, f s).
Proof.
  intros Hr Hi. unfold quiet; simpl. rewrite Hr, Hi. tauto.
Qed.

(** Starting the parser task is not starting a broadcast pass. *)
Lemma keeps_spawn_parser : keeps quiet (BaseAgent.spawn ParserRun).
Proof.
  intros e s. unfold quiet; simpl.
  unfold runs. rewrite List.filter_app. simpl. rewrite app_nil_r. tauto.
Qed.

End Quiet.

(** Applying a rule of [keeps]; the preorder is found by resolution. *)
Ltac kapply l := apply l; try solve [apply _].

Ltac keeps_step :=
  lazymatch goal with
  | |- keeps _ (mbind _ _) => kapply @keeps_bind; [|intros]
  | |- keeps _ (mret _) => kapply @keeps_ret
  | |- keeps _ (throw _) => kapply @keeps_throw
  | |- keeps _ (when _ _) => kapply @keeps_when
  | |- keeps _ (try_catch _ _) => kapply @keeps_try_catch; [|intros]
  | |- keeps _ (for_of _ _) => kapply @keeps_for_of; intros
  | |- keeps _ getEnv => kapply @keeps_getEnv
  | |- keeps _ getSelf => kapply @keeps_getSelf
  | |- keeps _ BaseAgent.this => kapply @keeps_this
  | |- keeps _ BaseAgent.getRecord => kapply @keeps_getRecord
  | |- keeps _ BaseAgent.getStatus => kapply @keeps_getStatus
  | |- keeps _ (BaseAgent.getBehavior _) => kapply @keeps_getBehavior
  | |- keeps _ (BaseAgent.deref _) => kapply @keeps_deref
  | |- keeps _ (BaseAgent.cfg_enabled _) => kapply @keeps_cfg_enabled
  | |- keeps quiet (notify _) =>
      apply keeps_notify; intros; by apply quiet_add_wire
  | |- keeps quiet (await _) =>
      apply keeps_await; intros; by apply quiet_add_wire
  | |- keeps quiet (invoke _) =>
      apply keeps_invoke; intros; by apply quiet_add_wire
  | |- keeps quiet (BaseAgent.spawn ParserRun) => apply keeps_spawn_parser
  | |- keeps quiet (modifySelf _) =>
      apply keeps_modifySelf; intros ? []; by apply quiet_modifySelf
  | |- keeps _ (match ?x with _ => _ end) => destruct x
  end.

(** Symbolic execution of a computation on given states. *)
Ltac mrun :=
  cbv [mbind M_bind mret M_ret getSelf getEnv modifySelf modifyEnv throw try_catch
       when notify BaseAgent.this BaseAgent.getRecord BaseAgent.getStatus
       BaseAgent.getBehavior BaseAgent.deref BaseAgent.cfg_enabled BaseAgent.spawn
       BaseAgent.clearCron BaseAgent.delay BaseAgent.set_disabled final];
  cbn [fst snd base with_base BotAgent.extends UserBotAgent.extends
       world storage db_calls heap emitted wire tasks clock cooldowns histories
       set_storage set_heap add_emitted add_wire add_task advance
       set_cooldowns set_histories b_base bot u_base client
       self_id self_name record cronJobs with_record with_cronJobs].

Section QuietBot.

Lemma keeps_getBot : keeps quiet BotAgent.getBot.
Proof. unfold BotAgent.getBot. repeat keeps_step. Qed.

Lemma keeps_bot_setupBroadcast : keeps quiet BotAgent.setupBroadcast.
Proof.
  intros e s. unfold BotAgent.setupBroadcast. mrun.
  destruct (BaseAgent.find_behavior _ _ _) as [l|] eqn:Hf; mrun; [|reflexivity].
  destruct (from_option enabled false (heap e !! l)) eqn:Hen; simpl;
    [|reflexivity].
  destruct (bot s); simpl; [|reflexivity].
  destruct (truthy_opt _).
  - unfold invoke. destruct (w_answer _ _ _); mrun;
      (unfold quiet; simpl; rewrite sends_app, app_nil_r;
       repeat split; try done;
       unfold broadcast_off; rewrite Hf; simpl; congruence).
  - unfold quiet; simpl. repeat split; try done.
    unfold broadcast_off; rewrite Hf; simpl; congruence.
Qed.

Lemma keeps_setupMonitorViaUpdates : keeps quiet BotAgent.setupMonitorViaUpdates.
Proof.
  unfold BotAgent.setupMonitorViaUpdates.
  do 3 keeps_step; try apply keeps_getBot.
  keeps_step; [|keeps_step]. destruct (_ && _); keeps_step.
Qed.

Lemma keeps_bot_registerBehaviors bs : keeps quiet (BotAgent.registerBehaviors bs).
Proof.
  unfold BotAgent.registerBehaviors. repeat keeps_step.
  - apply keeps_bot_setupBroadcast.
  - apply keeps_setupMonitorViaUpdates.
Qed.

Lemma keeps_setupBaseHandlers : keeps quiet BotAgent.setupBaseHandlers.
Proof.
  unfold BotAgent.setupBaseHandlers.
  keeps_step; [apply keeps_getBot|]. repeat keeps_step.
Qed.

Lemma keeps_newBot : keeps quiet BotAgent.newBot.
Proof.
  unfold BotAgent.newBot, BotAgent.creds_token. repeat keeps_step.
Qed.

Lemma keeps_bot_onBehaviorsChanged bs : keeps quiet (BotAgent.onBehaviorsChanged bs).
Proof.
  unfold BotAgent.onBehaviorsChanged, BaseAgent.clearCron.
  keeps_step; [apply keeps_getBot|].
  keeps_step; [keeps_step; keeps_step; [keeps_step|apply keeps_newBot]|].
  keeps_step; [keeps_step|].
  keeps_step; [apply keeps_bot_registerBehaviors|].
  keeps_step; [apply keeps_setupBaseHandlers|].
  keeps_step; [keeps_step|].
  destruct (decide _); [|keeps_step].
  keeps_step; [apply keeps_getBot|]. repeat keeps_step.
Qed.

End QuietBot.

Section QuietUserBot.

Lemma keeps_getClient : keeps quiet UserBotAgent.getClient.
Proof. unfold UserBotAgent.getClient. repeat keeps_step. Qed.

Lemma keeps_user_setupBroadcast : keeps quiet UserBotAgent.setupBroadcast.
Proof.
  intros e s. unfold UserBotAgent.setupBroadcast. mrun.
  destruct (BaseAgent.find_behavior _ _ _) as [l|] eqn:Hf; mrun; [|reflexivity].
  destruct (from_option enabled false (heap e !! l)) eqn:Hen; simpl;
    [|reflexivity].
  destruct (client s); simpl; [|reflexivity].
  destruct (truthy_opt _).
  - unfold invoke. destruct (w_answer _ _ _); mrun;
      (unfold quiet; simpl; rewrite sends_app, app_nil_r;
       repeat split; try done;
       unfold broadcast_off; rewrite Hf; simpl; congruence).
  - unfold quiet; simpl. repeat split; try done.
    unfold broadcast_off; rewrite Hf; simpl; congruence.
Qed.

Lemma keeps_setupAutoReply : keeps quiet UserBotAgent.setupAutoReply.
Proof.
  unfold UserBotAgent.setupAutoReply.
  do 3 keeps_step; try apply keeps_getClient.
  keeps_step; [|keeps_step]. destruct (_ && _); keeps_step.
Qed.

Lemma keeps_setupMonitor : keeps quiet UserBotAgent.setupMonitor.
Proof.
  unfold UserBotAgent.setupMonitor.
  do 3 keeps_step; try apply keeps_getClient.
  keeps_step; [|keeps_step]. destruct (_ && _); keeps_step.
Qed.

Lemma keeps_user_registerBehaviors bs : keeps quiet (UserBotAgent.registerBehaviors bs).
Proof.
  unfold UserBotAgent.registerBehaviors. repeat keeps_step.
  - apply keeps_setupAutoReply.
  - apply keeps_setupMonitor.
  - apply keeps_user_setupBroadcast.
Qed.

Lemma keeps_user_onBehaviorsChanged bs : keeps quiet (UserBotAgent.onBehaviorsChanged bs).
Proof.
  unfold UserBotAgent.onBehaviorsChanged, BaseAgent.clearCron.
  keeps_step; [keeps_step|].
  keeps_step; [apply keeps_getClient|].
  destruct (_ || _); [keeps_step|].
  repeat keeps_step. apply keeps_user_registerBehaviors.
Qed.

End QuietUserBot.

(** ** The write of [updateBehaviors] and what follows it *)

Lemma snapshot_persisted i bs e row :
  tg_agents (storage e) !! i = Some row →
  persisted_behaviors i (TelegramStorage.updateBehaviors i bs e) = Some (snapshot (heap e) bs).
Proof.
  intros Hrow. unfold persisted_behaviors, TelegramStorage.updateBehaviors; simpl.
  rewrite lookup_alter_eq, Hrow. reflexivity.
Qed.

Section UpdateBehaviors.
Context {S : Type} `{Agent S}.
Hypothesis with_base_record :
  ∀ f (s : S), base (with_base (with_record f) s) = with_record f (base s).
Hypothesis hook_keeps : ∀ bs, keeps quiet (onBehaviorsChanged bs).

(** The list is in the record and in the store when the hook starts, and
    the hook writes to neither. *)
Lemma updateBehaviors_spec (bs : list loc) (e : Env) (s : S) :
  let i := self_id (base s) in
  let x := BaseAgent.updateBehaviors bs e s in
  let e1 := TelegramStorage.updateBehaviors i bs e in
  storage x.1.2 = storage e1 ∧
  db_calls x.1.2 = db_calls e ++ [UpdateBehaviors i (snapshot (heap e) bs)] ∧
  heap x.1.2 = heap e ∧
  emitted x.1.2 = emitted e ∧
  sends (wire x.1.2) = sends (wire e) ∧
  record (base x.2) = with_behaviors bs (record (base s)) ∧
  (broadcast_off (heap e) bs → runs (tasks x.1.2) = runs (tasks e)).
Proof.
  intros i x e1. subst x. unfold BaseAgent.updateBehaviors. mrun.
  rewrite with_base_record. simpl.
  pose proof (hook_keeps bs e1 (with_base (with_record (with_behaviors bs)) s)) as Hk.
  fold i. fold e1.
  destruct (onBehaviorsChanged bs e1 _) as [[r e'] s']. simpl in *.
  destruct Hk as (?&?&?&?&?&?&Hr&?&Ht). simpl in *.
  rewrite with_base_record in Hr, Ht. simpl in *.
  repeat split; try done.
Qed.

End UpdateBehaviors.

(** ** Updating behaviours, starting, calling tools *)

(** C1. [updateBehaviors] (reached through [setBehaviors]) writes the
    submitted list to the store and only then runs the reconciliation of
    the agent's class: the reconciliation starts from a state [e1] in which
    the agent's row already holds the list, and however it ends, by
    returning or by throwing, the row still holds the submitted list.
    The agent is one that has a row in the store. *)
Theorem updateBehaviors_persists_before_reconciling (bs : list loc) (e : Env) :
  (∀ (a : BotAgent) (row : Row),
     tg_agents (storage e) !! self_id (b_base a) = Some row →
     let i := self_id (b_base a) in
     let e1 := TelegramStorage.updateBehaviors i bs e in
     let x := BaseAgent.updateBehaviors bs e a in
     persisted_behaviors i e1 = Some (snapshot (heap e1) bs) ∧
     x = BotAgent.onBehaviorsChanged bs e1 (with_base (with_record (with_behaviors bs)) a) ∧
     persisted_behaviors i x.1.2 = Some (snapshot (heap x.1.2) bs) ∧
     behaviors (record (b_base x.2)) = bs) ∧
  (∀ (a : UserBotAgent) (row : Row),
     tg_agents (storage e) !! self_id (u_base a) = Some row →
     let i := self_id (u_base a) in
     let e1 := TelegramStorage.updateBehaviors i bs e in
     let x := BaseAgent.updateBehaviors bs e a in
     persisted_behaviors i e1 = Some (snapshot (heap e1) bs) ∧
     x = UserBotAgent.onBehaviorsChanged bs e1
           (with_base (with_record (with_behaviors bs)) a) ∧
     persisted_behaviors i x.1.2 = Some (snapshot (heap x.1.2) bs) ∧
     behaviors (record (u_base x.2)) = bs).
Proof.
  split; intros a row Hrow i e1 x.
  - pose proof (updateBehaviors_spec (S:=BotAgent) (λ _ _, eq_refl)
                  keeps_bot_onBehaviorsChanged bs e a) as (Hs&_&Hh&_&_&Hr&_).
    fold x in Hs, Hh, Hr. fold i e1 in Hs.
    assert (persisted_behaviors i e1 = Some (snapshot (heap e) bs)) as Hp
      by (by eapply snapshot_persisted).
    change (heap e1) with (heap e).
    split; [exact Hp|]. split; [reflexivity|].
    unfold persisted_behaviors in *. rewrite Hs, Hh.
    split; [exact Hp|]. simpl in Hr. by rewrite Hr.
  - pose proof (updateBehaviors_spec (S:=UserBotAgent) (λ _ _, eq_refl)
                  keeps_user_onBehaviorsChanged bs e a) as (Hs&_&Hh&_&_&Hr&_).
    fold x in Hs, Hh, Hr. fold i e1 in Hs.
    assert (persisted_behaviors i e1 = Some (snapshot (heap e) bs)) as Hp
      by (by eapply snapshot_persisted).
    change (heap e1) with (heap e).
    split; [exact Hp|]. split; [reflexivity|].
    unfold persisted_behaviors in *. rewrite Hs, Hh.
    split; [exact Hp|]. simpl in Hr. by rewrite Hr.
Qed.

(** A started token agent whose [bot.stop()] is rejected: the
    reconciliation throws, and the row holds the submitted list. *)
Lemma updateBehaviors_persists_before_reconciling_witness :
  let w := Scenario.world_failing (λ r, match r with BotStop => true | _ => false end) in
  let st := Scenario.running_bot w [Scenario.hello] in
  let x := BaseAgent.updateBehaviors [0%nat] st.1 st.2 in
  is_Some (tg_agents (storage st.1) !! self_id (b_base st.2)) ∧
  x.1.1 = Throw "Error: network" ∧
  persisted_behaviors (self_id (b_base st.2)) x.1.2 = Some [Scenario.hello].
Proof.
  intros w st x.
  destruct (tg_agents (storage st.1) !! self_id (b_base st.2)) as [row|] eqn:Hrow;
    [|by vm_compute in Hrow].
  pose proof (proj1 (updateBehaviors_persists_before_reconciling [0%nat] st.1)
                st.2 row Hrow) as (_&_&Hp&_).
  split; [by eexists|]. split; [by vm_compute|].
  fold x in Hp. rewrite Hp. by vm_compute.
Defined.

(** The same through the manager: [setBehaviors] finds the pooled agent and
    calls its [updateBehaviors]. *)
Lemma setBehaviors_persists (i : string) (bs : list loc) (e : Env) (m : AgentManager)
    (a : PooledAgent) (row : Row) :
  JsMap.get i (pool m) = Some a →
  let j := self_id (match a with PBot b => b_base b | PUser u => u_base u end) in
  tg_agents (storage e) !! j = Some row →
  let x := AgentManager.setBehaviors i bs e m in
  persisted_behaviors j x.1.2 = Some (snapshot (heap x.1.2) bs).
Proof.
  intros Hget j Hrow x. subst x j.
  unfold AgentManager.setBehaviors, AgentManager.get_or_throw. mrun. rewrite Hget.
  unfold AgentManager.on_agent. destruct a as [b|u].
  - pose proof (updateBehaviors_spec (S:=BotAgent) (λ _ _, eq_refl)
                  keeps_bot_onBehaviorsChanged bs e b) as (Hs&_&Hh&_).
    destruct (BaseAgent.updateBehaviors bs e b) as [[r e'] b']. simpl in *.
    unfold persisted_behaviors. rewrite Hs, Hh. simpl.
    by rewrite lookup_alter_eq, Hrow.
  - pose proof (updateBehaviors_spec (S:=UserBotAgent) (λ _ _, eq_refl)
                  keeps_user_onBehaviorsChanged bs e u) as (Hs&_&Hh&_).
    destruct (BaseAgent.updateBehaviors bs e u) as [[r e'] u']. simpl in *.
    unfold persisted_behaviors. rewrite Hs, Hh. simpl.
    by rewrite lookup_alter_eq, Hrow.
Qed.

(** C7. [start()] on an agent whose status is [running] returns at once:
    the whole state is the one before the call, so the status, the stats,
    the row in the store and the agent object are unchanged, nothing is
    asked of the transport, and no [status_change] event is saved or
    emitted.  Both classes. *)
Theorem start_on_running_is_noop (e : Env) :
  (∀ a : BotAgent,
     status (record (b_base a)) = running → BotAgent.start e a = (Ok (), e, a)) ∧
  (∀ a : UserBotAgent,
     status (record (u_base a)) = running → UserBotAgent.start e a = (Ok (), e, a)).
Proof.
  split; intros a Hrun.
  - unfold BotAgent.start. mrun. by rewrite Hrun.
  - unfold UserBotAgent.start. mrun. by rewrite Hrun.
Qed.

Lemma start_on_running_is_noop_witness :
  let w := Scenario.world_failing (λ _, false) in
  let b := Scenario.running_bot w [Scenario.hello] in
  let u := Scenario.running_userbot w [Scenario.hello] in
  (status (record (b_base b.2)) = running ∧ BotAgent.start b.1 b.2 = (Ok (), b.1, b.2)) ∧
  (status (record (u_base u.2)) = running ∧
   UserBotAgent.start u.1 u.2 = (Ok (), u.1, u.2)).
Proof.
  intros w b u.
  assert (status (record (b_base b.2)) = running) as Hb by (by vm_compute).
  assert (status (record (u_base u.2)) = running) as Hu by (by vm_compute).
  split; (split; [assumption|]).
  - exact (proj1 (start_on_running_is_noop b.1) b.2 Hb).
  - exact (proj2 (start_on_running_is_noop u.1) u.2 Hu).
Defined.

(** C4, as the code has it.  The guard of [callTool] looks at the transport
    handle, not at the status: an agent that holds no handle ([bot],
    [client] is null: never started, or stopped) fails every tool call with
    "Agent not running", and nothing is asked of the transport. *)
Theorem callTool_without_handle_fails (tool : string) (args : ToolArgs) (e : Env) :
  (∀ a : BotAgent,
     bot a = None →
     BotAgent.callTool tool args e a = (Throw (Error "Agent not running"), e, a)) ∧
  (∀ a : UserBotAgent,
     client a = None →
     UserBotAgent.callTool tool args e a = (Throw (Error "Agent not running"), e, a)).
Proof.
  split; intros a Hnone.
  - unfold BotAgent.callTool, BotAgent.getBot. mrun. by rewrite Hnone.
  - unfold UserBotAgent.callTool, UserBotAgent.getClient. mrun. by rewrite Hnone.
Qed.

Lemma callTool_without_handle_fails_witness :
  let w := Scenario.world_failing (λ _, false) in
  let '(e, m) := Scenario.created w [] Scenario.bot_credentials in
  bot (Scenario.bot_of m) = None ∧
  BotAgent.callTool "getMe" no_args e (Scenario.bot_of m)
  = (Throw "Error: Agent not running", e, Scenario.bot_of m).
Proof.
  intros w.
  destruct (Scenario.created w [] Scenario.bot_credentials) as [e m] eqn:Hc.
  assert (bot (Scenario.bot_of m) = None) as Hb.
  { apply (f_equal snd) in Hc. simpl in Hc. subst m. by vm_compute. }
  split; [exact Hb|].
  exact (proj1 (callTool_without_handle_fails "getMe" no_args e) _ Hb).
Defined.

(** C4 as stated fails.  After [start()] a token agent is [starting] until
    the polling loop calls [onStart], and it already holds its [bot]: the
    tool is executed.  After [authStart()] a session agent is still
    [stopped] and holds a [client]: the tool is executed. *)
Lemma callTool_runs_when_not_running :
  ¬ (∀ (e : Env) (a : BotAgent) (tool : string) (args : ToolArgs),
       status (record (b_base a)) ≠ running →
       ∃ err, (BotAgent.callTool tool args e a).1.1 = Throw err) ∧
  ¬ (∀ (e : Env) (a : UserBotAgent) (tool : string) (args : ToolArgs),
       status (record (u_base a)) ≠ running →
       ∃ err, (UserBotAgent.callTool tool args e a).1.1 = Throw err).
Proof.
  set (w := Scenario.world_failing (λ _, false)).
  split; intros Hclaim.
  - set (c := Scenario.created w [] Scenario.bot_credentials).
    set (st := final (BotAgent.start c.1 (Scenario.bot_of c.2))).
    destruct (Hclaim st.1 st.2 "getMe" no_args) as [err Herr]; [by vm_compute|].
    by vm_compute in Herr.
  - set (c := Scenario.created w [] Scenario.userbot_credentials).
    set (st := final (UserBotAgent.authStart c.1 (Scenario.userbot_of c.2))).
    destruct (Hclaim st.1 st.2 "getMe" no_args) as [err Herr]; [by vm_compute|].
    by vm_compute in Herr.
Qed.

(** C5, at the failing inputs.  On a started token agent [getMessages] is
    refused with the message that names the agent type, but [getMembers],
    [joinChat] and [leaveChat] fall to the default case and are reported as
    unknown tools, the error any misspelt name gets. *)
Theorem bot_callTool_session_only_tools :
  let w := Scenario.world_failing (λ _, false) in
  let st := Scenario.running_bot w [] in
  let call tool := (BotAgent.callTool tool no_args st.1 st.2).1.1 in
  call "getMessages"
    = Throw "Error: Bot API does not support getMessages — use a userbot agent" ∧
  call "getMembers" = Throw "Error: Unknown tool: getMembers" ∧
  call "joinChat" = Throw "Error: Unknown tool: joinChat" ∧
  call "leaveChat" = Throw "Error: Unknown tool: leaveChat" ∧
  call "no such tool" = Throw "Error: Unknown tool: no such tool".
Proof. by vm_compute. Qed.

(** ** What happens after a message was tracked *)

Section Later.
Context {S : Type} `{Extends S}.

Global Instance later_preorder : PreOrder later.
Proof.
  split.
  - intros x. unfold later. repeat split; try done; exists []; by rewrite app_nil_r.
  - intros x y z ([r1 Hem]&[r3 Hev]&Hrc&Hb) ([r2 Hem']&[r4 Hev']&Hrc'&Hb').
    unfold later. repeat split.
    + exists (r1 ++ r2). by rewrite Hem', Hem, app_assoc.
    + exists (r3 ++ r4). by rewrite Hev', Hev, app_assoc.
    + intros i. by rewrite Hrc', Hrc.
    + congruence.
Qed.







End Later.



(** ** The broadcast pass *)

Lemma await_ok {S} (r : Request) (e : Env) (s : S) :
  (∀ err, w_answer (world e) (wire e) r ≠ AFail err) →
  await r e s
  = (Ok (w_answer (world e) (wire e) r), add_wire r (w_elapsed (world e) (wire e) r) e, s).
Proof.
  intros Hok. unfold await. destruct (w_answer _ _ _) eqn:Ha; try done.
  by destruct (Hok err).
Qed.

(** Disabling a behaviour object does not change what [getBehavior] finds. *)
Lemma find_behavior_disable h l ty bs :
  BaseAgent.find_behavior (alter BaseAgent.disable l h) ty bs
  = BaseAgent.find_behavior h ty bs.
Proof.
  unfold BaseAgent.find_behavior. induction bs as [|l' bs IH]; simpl; [done|].
  rewrite IH. destruct (decide (l = l')) as [<-|Hne].
  - rewrite list_lookup_alter_eq. by destruct (h !! l) as [[]|].
  - by rewrite list_lookup_alter_ne.
Qed.

Lemma broadcast_off_disable h l bs :
  BaseAgent.find_behavior h t_broadcast bs = Some l →
  broadcast_off (alter BaseAgent.disable l h) bs.
Proof.
  intros Hf. unfold broadcast_off. rewrite find_behavior_disable, Hf. simpl.
  rewrite list_lookup_alter_eq. by destruct (h !! l) as [[]|].
Qed.

Lemma await_throws {S} (r : Request) (e : Env) (s : S) err :
  w_answer (world e) (wire e) r = AFail err →
  await r e s = (Throw err, add_wire r (w_elapsed (world e) (wire e) r) e, s).
Proof. intros Ha. unfold await. by rewrite Ha. Qed.

Lemma trackMessage_out {S} `{Extends S} text chat e (s : S) :
  BaseAgent.trackMessage dir_out text chat e s
  = (Ok (), tracked_out (self_id (base s)) (self_name (base s)) text chat e, s).
Proof. reflexivity. Qed.

Section BotPass.
Context (e : Env) (a : BotAgent) (cfg : loc) (c : BroadcastBehavior) (b : Bot).
Hypothesis Hcfg : heap e !! cfg = Some (broadcast c).
Hypothesis Hbot : bot a = Some b.

Let request (t : string) : Request :=
  BotSendMessage t (message c) (BotAgent.parse_mode (parseMode c)).

(** A send that succeeds is counted and followed by the delay. *)
Lemma bot_run_target_ok t :
  (∀ err, w_answer (world e) (wire e) (request t) ≠ AFail err) →
  BotAgent.run_target cfg t e a
  = (Ok (),
     advance (0 `max` default 1000 (delayBetweenMs c))
       (tracked_out (self_id (b_base a)) (self_name (b_base a)) (message c) t
          (add_wire (request t) (w_elapsed (world e) (wire e) (request t)) e)),
     a).
Proof.
  intros Hok. unfold BotAgent.run_target, BotAgent.getBot. mrun.
  rewrite Hcfg, Hbot. simpl. fold (request t). rewrite await_ok by done.
  reflexivity.
Qed.

(** A send that fails is caught: the turn ends normally, nothing is
    counted, and there is no delay. *)
Lemma bot_run_target_fail t err :
  w_answer (world e) (wire e) (request t) = AFail err →
  BotAgent.run_target cfg t e a
  = (Ok (), add_wire (request t) (w_elapsed (world e) (wire e) (request t)) e, a).
Proof.
  intros Hfail. unfold BotAgent.run_target, BotAgent.getBot. mrun.
  rewrite Hcfg, Hbot. simpl. fold (request t). by rewrite (await_throws _ _ _ err).
Qed.

End BotPass.

Section UserBotPass.
Context (e : Env) (a : UserBotAgent) (cfg : loc) (c : BroadcastBehavior)
        (cl : TelegramClient).
Hypothesis Hcfg : heap e !! cfg = Some (broadcast c).
Hypothesis Hclient : client a = Some cl.

Let request (t : string) : Request :=
  SendMessage t (message c) (Some (default "html" (parseMode c))).

Lemma user_run_target_ok t :
  (∀ err, w_answer (world e) (wire e) (request t) ≠ AFail err) →
  UserBotAgent.run_target cfg t e a
  = (Ok (),
     advance (0 `max` default 2000 (delayBetweenMs c))
       (broadcast_event (self_id (u_base a)) (self_name (u_base a)) t
          (tracked_out (self_id (u_base a)) (self_name (u_base a)) (message c) t
             (add_wire (request t) (w_elapsed (world e) (wire e) (request t)) e))),
     a).
Proof.
  intros Hok. unfold UserBotAgent.run_target, UserBotAgent.getClient. mrun.
  rewrite Hcfg, Hclient. simpl. fold (request t). rewrite await_ok by done.
  reflexivity.
Qed.

Lemma user_run_target_fail t err :
  w_answer (world e) (wire e) (request t) = AFail err →
  UserBotAgent.run_target cfg t e a
  = (Ok (), add_wire (request t) (w_elapsed (world e) (wire e) (request t)) e, a).
Proof.
  intros Hfail. unfold UserBotAgent.run_target, UserBotAgent.getClient. mrun.
  rewrite Hcfg, Hclient. simpl. fold (request t). by rewrite (await_throws _ _ _ err).
Qed.

End UserBotPass.

Ltac env_simpl :=
  unfold broadcast_event, tracked_out, TelegramStorage.saveEvent,
    TelegramStorage.incrementStat, TelegramStorage.updateBehaviors,
    TelegramStorage.with_agents;
  cbn [world storage db_calls heap emitted wire tasks clock cooldowns histories
       set_storage set_heap add_emitted add_wire add_task advance
       set_cooldowns set_histories tg_agents tg_events tg_parsed].

(** *** A pass over any list of targets *)

Lemma pass_step_nil {S} (x : Env * S) : pass_step [] x x.
Proof. unfold pass_step. rewrite app_nil_r. tauto. Qed.

Lemma pass_step_app {S} rs1 rs2 (x y z : Env * S) :
  pass_step rs1 x y → pass_step rs2 y z → pass_step (rs1 ++ rs2) x z.
Proof.
  intros (?&?&?&Hs&?&Hp&Hr&?) (?&?&?&Hs'&?&Hp'&Hr'&?).
  unfold pass_step.
  split; [congruence|]. split; [congruence|]. split; [congruence|].
  split; [by rewrite Hs', Hs, app_assoc|]. split; [congruence|].
  split; [intros i; by rewrite Hp', Hp|].
  split; [intros i Hi; by apply Hr', Hr|congruence].
Qed.

Lemma pass_step_failed {S} r dt e (s : S) :
  is_send r = true → pass_step [r] (e, s) (add_wire r dt e, s).
Proof.
  intros Hr. unfold pass_step; simpl. rewrite sends_app, Hr. repeat split; done.
Qed.

Lemma pass_step_tracked {S} j nm text chat e (s : S) :
  pass_step [] (e, s) (tracked_out j nm text chat e, s).
Proof.
  unfold pass_step; cbn [fst snd]. rewrite app_nil_r.
  split; [done|]. split; [done|]. split; [done|]. split; [done|].
  split. { env_simpl. unfold updates. rewrite !List.filter_app. simpl.
           by rewrite !app_nil_r. }
  split. { intros i. unfold persisted_behaviors. env_simpl.
           destruct (decide (i = j)) as [->|Hne].
           - rewrite lookup_alter_eq. by destruct (tg_agents (storage e) !! j).
           - by rewrite lookup_alter_ne. }
  split; [|done].
  intros i. env_simpl. destruct (decide (i = j)) as [->|Hne].
  - rewrite lookup_alter_eq. intros [row ->]. by eexists.
  - by rewrite lookup_alter_ne.
Qed.

Lemma pass_step_event {S} j nm target e (s : S) :
  pass_step [] (e, s) (broadcast_event j nm target e, s).
Proof.
  unfold pass_step; cbn [fst snd]. rewrite app_nil_r.
  repeat split; try done.
  env_simpl. unfold updates. rewrite !List.filter_app. simpl. by rewrite !app_nil_r.
Qed.

Lemma pass_step_advance {S} ms e (s : S) : pass_step [] (e, s) (advance ms e, s).
Proof. unfold pass_step; simpl. rewrite app_nil_r. repeat split; done. Qed.

(** A send that succeeded, counted and followed by the delay. *)
Lemma pass_step_sent {S} r dt ms j nm text chat e (s : S) :
  is_send r = true →
  pass_step [r] (e, s) (advance ms (tracked_out j nm text chat (add_wire r dt e)), s).
Proof.
  intros Hr.
  apply (pass_step_app [r] [] _ (add_wire r dt e, s)); [by apply pass_step_failed|].
  apply (pass_step_app [] [] _ (tracked_out j nm text chat (add_wire r dt e), s));
    [apply pass_step_tracked|apply pass_step_advance].
Qed.

(** The same for the session agent, with its extra event. *)
Lemma pass_step_sent_event {S} r dt ms j nm text chat e (s : S) :
  is_send r = true →
  pass_step [r] (e, s)
    (advance ms (broadcast_event j nm chat (tracked_out j nm text chat (add_wire r dt e))), s).
Proof.
  intros Hr.
  apply (pass_step_app [r] [] _ (add_wire r dt e, s)); [by apply pass_step_failed|].
  apply (pass_step_app [] [] _ (tracked_out j nm text chat (add_wire r dt e), s));
    [apply pass_step_tracked|].
  apply (pass_step_app [] [] _
           (broadcast_event j nm chat (tracked_out j nm text chat (add_wire r dt e)), s));
    [apply pass_step_event|apply pass_step_advance].
Qed.

Section BotPassAny.
Context (a : BotAgent) (cfg : loc) (c : BroadcastBehavior) (b : Bot).
Hypothesis Hbot : bot a = Some b.

Let request (t : string) : Request :=
  BotSendMessage t (message c) (BotAgent.parse_mode (parseMode c)).

Lemma bot_run_target_step e t :
  heap e !! cfg = Some (broadcast c) →
  let x := BotAgent.run_target cfg t e a in
  x.1.1 = Ok () ∧ pass_step [request t] (e, a) (final x).
Proof.
  intros Hcfg x. subst x.
  destruct (w_answer (world e) (wire e) (request t)) eqn:Hans.
  6: { rewrite (bot_run_target_fail e a cfg c b Hcfg Hbot t err Hans).
       split; [done|]. by apply pass_step_failed. }
  all: rewrite (bot_run_target_ok e a cfg c b Hcfg Hbot t)
         by (intros err; fold (request t); by rewrite Hans).
  all: split; [done|]; unfold final; cbn [fst snd].
  all: by apply pass_step_sent.
Qed.

Lemma bot_run_loop targets e :
  heap e !! cfg = Some (broadcast c) →
  let x := for_of targets (BotAgent.run_target cfg) e a in
  x.1.1 = Ok () ∧ pass_step (request <$> targets) (e, a) (final x).
Proof.
  revert e. induction targets as [|t ts IH]; intros e Hcfg; simpl.
  - split; [done|apply pass_step_nil].
  - destruct (bot_run_target_step e t Hcfg) as [Hok Hstep].
    cbv [mbind M_bind].
    destruct (BotAgent.run_target cfg t e a) as [[r e1] a1]. simpl in Hok. subst r.
    unfold final in Hstep; simpl in Hstep.
    assert (a1 = a) as -> by apply Hstep.
    assert (heap e1 !! cfg = Some (broadcast c)) as Hcfg1.
    { destruct Hstep as (_&Hh&_). simpl in Hh. by rewrite Hh. }
    destruct (IH e1 Hcfg1) as [Hok' Hstep'].
    split; [done|].
    exact (pass_step_app [request t] (request <$> ts) _ _ _ Hstep Hstep').
Qed.

Lemma bot_run_spec e :
  heap e !! cfg = Some (broadcast c) →
  let x := BotAgent.run cfg e a in
  let i := self_id (b_base a) in
  let bs := behaviors (record (b_base a)) in
  sends (wire x.1.2) = sends (wire e) ++ (request <$> bc_targets c) ∧
  (onlyOnce c = Some true →
     heap x.1.2 = alter BaseAgent.disable cfg (heap e) ∧
     updates (db_calls x.1.2)
       = updates (db_calls e) ++ [UpdateBehaviors i (snapshot (heap x.1.2) bs)] ∧
     (is_Some (tg_agents (storage e) !! i) →
      persisted_behaviors i x.1.2 = Some (snapshot (heap x.1.2) bs))) ∧
  (onlyOnce c ≠ Some true →
     x.1.1 = Ok () ∧ heap x.1.2 = heap e ∧
     updates (db_calls x.1.2) = updates (db_calls e) ∧
     ∀ j, persisted_behaviors j x.1.2 = persisted_behaviors j e).
Proof.
  intros Hcfg x i bs. subst x. unfold BotAgent.run.
  cbv [mbind M_bind BaseAgent.deref getEnv mret M_ret]. rewrite Hcfg.
  simpl from_option.
  destruct (bot_run_loop (bc_targets c) e Hcfg) as [Hok Hstep].
  destruct (for_of (bc_targets c) (BotAgent.run_target cfg) e a) as [[r e1] a1].
  simpl in Hok. subst r. unfold final, pass_step in Hstep. cbn [fst snd] in Hstep.
  destruct Hstep as (Hw&Hh&->&Hs&Hu&Hp&Hr&Ht). cbn [fst snd].
  rewrite Hh, Hcfg. cbn [get_broadcast option_bind].
  destruct (decide (onlyOnce c = Some true)) as [Honce|Honce].
  - rewrite bool_decide_eq_true_2 by done.
    cbv [BaseAgent.set_disabled modifyEnv BaseAgent.getRecord BaseAgent.this getSelf
         mbind M_bind mret M_ret].
    cbn [base BotAgent.extends]. rewrite Hh.
    set (e2 := set_heap _ e1). fold bs.
    pose proof (updateBehaviors_spec (S:=BotAgent) (λ _ _, eq_refl)
                  keeps_bot_onBehaviorsChanged bs e2 a) as (Hs2&Hd2&Hh2&_&Hw2&_&_).
    set (x := BaseAgent.updateBehaviors bs e2 a) in *. clearbody x.
    cbn [base BotAgent.extends] in Hs2, Hd2. fold i in Hs2, Hd2.
    assert (heap e2 = alter BaseAgent.disable cfg (heap e)) as Hhe2 by reflexivity.
    split; [by rewrite Hw2|]. split; [|done].
    intros _. rewrite Hh2, Hhe2. split; [done|].
    split. { rewrite Hd2, Hhe2. unfold updates in *. rewrite List.filter_app.
             simpl. by rewrite <-Hu. }
    intros Hrow. apply Hr in Hrow as [row Hrow].
    unfold persisted_behaviors. rewrite Hs2. subst e2. env_simpl.
    by rewrite lookup_alter_eq, Hrow.
  - rewrite bool_decide_eq_false_2 by done. cbn [fst snd].
    split; [done|]. split; [done|]. intros _. done.
Qed.

(** A pass keeps the row in step with the list of the agent's record:
    when it disables the behaviour object, it writes the list again. *)
Lemma bot_run_keeps_in_sync e :
  heap e !! cfg = Some (broadcast c) →
  let x := BotAgent.run cfg e a in
  let i := self_id (b_base a) in
  let bs := behaviors (record (b_base a)) in
  persisted_behaviors i e = Some (snapshot (heap e) bs) →
  persisted_behaviors i x.1.2 = Some (snapshot (heap x.1.2) bs).
Proof.
  intros Hcfg x i bs Hsync.
  destruct (bot_run_spec e Hcfg) as (_&Honce&Hmany). fold x i bs in Honce, Hmany.
  destruct (decide (onlyOnce c = Some true)) as [Ho|Ho].
  - apply Honce; [done|]. unfold persisted_behaviors in Hsync.
    by destruct (tg_agents (storage e) !! i).
  - destruct (Hmany Ho) as (_&Hh&_&Hp). by rewrite Hp, Hh.
Qed.
End BotPassAny.

Section UserBotPassAny.
Context (a : UserBotAgent) (cfg : loc) (c : BroadcastBehavior) (cl : TelegramClient).
Hypothesis Hclient : client a = Some cl.

Let request (t : string) : Request :=
  SendMessage t (message c) (Some (default "html" (parseMode c))).

Lemma user_run_target_step e t :
  heap e !! cfg = Some (broadcast c) →
  let x := UserBotAgent.run_target cfg t e a in
  x.1.1 = Ok () ∧ pass_step [request t] (e, a) (final x).
Proof.
  intros Hcfg x. subst x.
  destruct (w_answer (world e) (wire e) (request t)) eqn:Hans.
  6: { rewrite (user_run_target_fail e a cfg c cl Hcfg Hclient t err Hans).
       split; [done|]. by apply pass_step_failed. }
  all: rewrite (user_run_target_ok e a cfg c cl Hcfg Hclient t)
         by (intros err; fold (request t); by rewrite Hans).
  all: split; [done|]; unfold final; cbn [fst snd].
  all: by apply pass_step_sent_event.
Qed.

Lemma user_run_loop targets e :
  heap e !! cfg = Some (broadcast c) →
  let x := for_of targets (UserBotAgent.run_target cfg) e a in
  x.1.1 = Ok () ∧ pass_step (request <$> targets) (e, a) (final x).
Proof.
  revert e. induction targets as [|t ts IH]; intros e Hcfg; simpl.
  - split; [done|apply pass_step_nil].
  - destruct (user_run_target_step e t Hcfg) as [Hok Hstep].
    cbv [mbind M_bind].
    destruct (UserBotAgent.run_target cfg t e a) as [[r e1] a1]. simpl in Hok. subst r.
    unfold final in Hstep; simpl in Hstep.
    assert (a1 = a) as -> by apply Hstep.
    assert (heap e1 !! cfg = Some (broadcast c)) as Hcfg1.
    { destruct Hstep as (_&Hh&_). simpl in Hh. by rewrite Hh. }
    destruct (IH e1 Hcfg1) as [Hok' Hstep'].
    split; [done|].
    exact (pass_step_app [request t] (request <$> ts) _ _ _ Hstep Hstep').
Qed.

Lemma user_run_spec e :
  heap e !! cfg = Some (broadcast c) →
  let x := UserBotAgent.run cfg e a in
  let i := self_id (u_base a) in
  let bs := behaviors (record (u_base a)) in
  sends (wire x.1.2) = sends (wire e) ++ (request <$> bc_targets c) ∧
  (onlyOnce c = Some true →
     heap x.1.2 = alter BaseAgent.disable cfg (heap e) ∧
     updates (db_calls x.1.2)
       = updates (db_calls e) ++ [UpdateBehaviors i (snapshot (heap x.1.2) bs)] ∧
     (is_Some (tg_agents (storage e) !! i) →
      persisted_behaviors i x.1.2 = Some (snapshot (heap x.1.2) bs))) ∧
  (onlyOnce c ≠ Some true →
     x.1.1 = Ok () ∧ heap x.1.2 = heap e ∧
     updates (db_calls x.1.2) = updates (db_calls e) ∧
     ∀ j, persisted_behaviors j x.1.2 = persisted_behaviors j e).
Proof.
  intros Hcfg x i bs. subst x. unfold UserBotAgent.run.
  cbv [mbind M_bind BaseAgent.deref getEnv mret M_ret]. rewrite Hcfg.
  simpl from_option.
  destruct (user_run_loop (bc_targets c) e Hcfg) as [Hok Hstep].
  destruct (for_of (bc_targets c) (UserBotAgent.run_target cfg) e a) as [[r e1] a1].
  simpl in Hok. subst r. unfold final, pass_step in Hstep. cbn [fst snd] in Hstep.
  destruct Hstep as (Hw&Hh&->&Hs&Hu&Hp&Hr&Ht). cbn [fst snd].
  rewrite Hh, Hcfg. cbn [get_broadcast option_bind].
  destruct (decide (onlyOnce c = Some true)) as [Honce|Honce].
  - rewrite bool_decide_eq_true_2 by done.
    cbv [BaseAgent.set_disabled modifyEnv BaseAgent.getRecord BaseAgent.this getSelf
         mbind M_bind mret M_ret].
    cbn [base UserBotAgent.extends]. rewrite Hh.
    set (e2 := set_heap _ e1). fold bs.
    pose proof (updateBehaviors_spec (S:=UserBotAgent) (λ _ _, eq_refl)
                  keeps_user_onBehaviorsChanged bs e2 a) as (Hs2&Hd2&Hh2&_&Hw2&_&_).
    set (x := BaseAgent.updateBehaviors bs e2 a) in *. clearbody x.
    cbn [base UserBotAgent.extends] in Hs2, Hd2. fold i in Hs2, Hd2.
    assert (heap e2 = alter BaseAgent.disable cfg (heap e)) as Hhe2 by reflexivity.
    split; [by rewrite Hw2|]. split; [|done].
    intros _. rewrite Hh2, Hhe2. split; [done|].
    split. { rewrite Hd2, Hhe2. unfold updates in *. rewrite List.filter_app.
             simpl. by rewrite <-Hu. }
    intros Hrow. apply Hr in Hrow as [row Hrow].
    unfold persisted_behaviors. rewrite Hs2. subst e2. env_simpl.
    by rewrite lookup_alter_eq, Hrow.
  - rewrite bool_decide_eq_false_2 by done. cbn [fst snd].
    split; [done|]. split; [done|]. intros _. done.
Qed.

(** A pass keeps the row in step with the list of the agent's record:
    when it disables the behaviour object, it writes the list again. *)
Lemma user_run_keeps_in_sync e :
  heap e !! cfg = Some (broadcast c) →
  let x := UserBotAgent.run cfg e a in
  let i := self_id (u_base a) in
  let bs := behaviors (record (u_base a)) in
  persisted_behaviors i e = Some (snapshot (heap e) bs) →
  persisted_behaviors i x.1.2 = Some (snapshot (heap x.1.2) bs).
Proof.
  intros Hcfg x i bs Hsync.
  destruct (user_run_spec e Hcfg) as (_&Honce&Hmany). fold x i bs in Honce, Hmany.
  destruct (decide (onlyOnce c = Some true)) as [Ho|Ho].
  - apply Honce; [done|]. unfold persisted_behaviors in Hsync.
    by destruct (tg_agents (storage e) !! i).
  - destruct (Hmany Ho) as (_&Hh&_&Hp). by rewrite Hp, Hh.
Qed.
End UserBotPassAny.

(** C6. A broadcast pass with [onlyOnce] over the targets [A; B], set up
    for the broadcast behaviour of the agent, where the send to [A]
    succeeds and the send to [B] fails.  The failure is caught and the pass
    goes on to its end: [A] and [B] were each sent to once, one message was
    counted as sent, the behaviour object has [enabled = false], the list
    with the disabled behaviour was written to the store exactly once, and
    the reconciliation that follows starts no further pass.  This holds
    whether that reconciliation returns or throws.  Both classes. *)
Theorem broadcast_once_survives_failed_send
    (e : Env) (cfg : loc) (c : BroadcastBehavior) (A B : string) (row : Row) :
  heap e !! cfg = Some (broadcast c) →
  bc_targets c = [A; B] →
  onlyOnce c = Some true →
  (∀ a : BotAgent,
     let sendTo t := BotSendMessage t (message c) (BotAgent.parse_mode (parseMode c)) in
     is_Some (bot a) →
     BaseAgent.find_behavior (heap e) t_broadcast (behaviors (record (b_base a)))
       = Some cfg →
     tg_agents (storage e) !! self_id (b_base a) = Some row →
     (∀ h err, w_answer (world e) h (sendTo A) ≠ AFail err) →
     (∀ h, ∃ err, w_answer (world e) h (sendTo B) = AFail err) →
     pass_outcome (sendTo A) (sendTo B) cfg row e a (BotAgent.run cfg e a)) ∧
  (∀ a : UserBotAgent,
     let sendTo t := SendMessage t (message c) (Some (default "html" (parseMode c))) in
     is_Some (client a) →
     BaseAgent.find_behavior (heap e) t_broadcast (behaviors (record (u_base a)))
       = Some cfg →
     tg_agents (storage e) !! self_id (u_base a) = Some row →
     (∀ h err, w_answer (world e) h (sendTo A) ≠ AFail err) →
     (∀ h, ∃ err, w_answer (world e) h (sendTo B) = AFail err) →
     pass_outcome (sendTo A) (sendTo B) cfg row e a (UserBotAgent.run cfg e a)).
Proof.
  intros Hheap Htargets Honce. split.
  - intros a sendTo [b Hbot] Hfind Hrow HokA HfailB.
    unfold BotAgent.run.
    cbv [mbind M_bind BaseAgent.deref getEnv mret M_ret]. rewrite Hheap.
    simpl from_option. rewrite Htargets. simpl for_of. cbv [mbind M_bind mret M_ret].
    rewrite (bot_run_target_ok e a cfg c b Hheap Hbot A) by apply HokA.
    match goal with |- context [BotAgent.run_target cfg B ?e1 a] => set (eA := e1) end.
    destruct (HfailB (wire eA)) as [err Herr].
    rewrite (bot_run_target_fail eA a cfg c b Hheap Hbot B err Herr).
    match goal with |- context [heap ?e1 !! cfg] => set (eB := e1) end.
    change (heap eB) with (heap e). rewrite Hheap.
    cbn [get_broadcast option_bind]. rewrite Honce.
    rewrite bool_decide_eq_true_2 by done.
    cbv [BaseAgent.set_disabled modifyEnv BaseAgent.getRecord BaseAgent.this getSelf
         mbind M_bind mret M_ret].
    cbn [base BotAgent.extends]. change (heap eB) with (heap e).
    set (e2 := set_heap _ eB). set (bs := behaviors (record (b_base a))).
    pose proof (updateBehaviors_spec (S:=BotAgent) (λ _ _, eq_refl)
                  keeps_bot_onBehaviorsChanged bs e2 a) as (Hs&Hd&Hh&_&Hw&_&Ht).
    set (x := BaseAgent.updateBehaviors bs e2 a) in *. clearbody x.
    unfold pass_outcome. cbn [base BotAgent.extends]. fold bs.
    cbn [base BotAgent.extends] in Hs, Hd.
    assert (heap e2 = alter BaseAgent.disable cfg (heap e)) as Hh2 by reflexivity.
    rewrite Hh, Hh2 in *.
    split. { rewrite Hw. subst e2 eB eA. env_simpl. rewrite !sends_app. simpl.
             by rewrite <-app_assoc. }
    split. { unfold persisted_stats. rewrite Hs. subst e2 eB eA. env_simpl.
             by rewrite !lookup_alter_eq, Hrow. }
    split; [done|].
    split. { by rewrite list_lookup_alter_eq, Hheap. }
    split. { rewrite Hd. unfold updates. rewrite List.filter_app. simpl.
             f_equal. subst e2 eB eA. env_simpl. rewrite !List.filter_app. simpl.
             by rewrite !app_nil_r. }
    split. { unfold persisted_behaviors. rewrite Hs. subst e2 eB eA. env_simpl.
             by rewrite !lookup_alter_eq, Hrow. }
    rewrite Ht; [by subst e2 eB eA|]. by apply broadcast_off_disable.
  - intros a sendTo [cl Hclient] Hfind Hrow HokA HfailB.
    unfold UserBotAgent.run.
    cbv [mbind M_bind BaseAgent.deref getEnv mret M_ret]. rewrite Hheap.
    simpl from_option. rewrite Htargets. simpl for_of. cbv [mbind M_bind mret M_ret].
    rewrite (user_run_target_ok e a cfg c cl Hheap Hclient A) by apply HokA.
    match goal with |- context [UserBotAgent.run_target cfg B ?e1 a] => set (eA := e1) end.
    destruct (HfailB (wire eA)) as [err Herr].
    rewrite (user_run_target_fail eA a cfg c cl Hheap Hclient B err Herr).
    match goal with |- context [heap ?e1 !! cfg] => set (eB := e1) end.
    change (heap eB) with (heap e). rewrite Hheap.
    cbn [get_broadcast option_bind]. rewrite Honce.
    rewrite bool_decide_eq_true_2 by done.
    cbv [BaseAgent.set_disabled modifyEnv BaseAgent.getRecord BaseAgent.this getSelf
         mbind M_bind mret M_ret].
    cbn [base UserBotAgent.extends]. change (heap eB) with (heap e).
    set (e2 := set_heap _ eB). set (bs := behaviors (record (u_base a))).
    pose proof (updateBehaviors_spec (S:=UserBotAgent) (λ _ _, eq_refl)
                  keeps_user_onBehaviorsChanged bs e2 a) as (Hs&Hd&Hh&_&Hw&_&Ht).
    set (x := BaseAgent.updateBehaviors bs e2 a) in *. clearbody x.
    unfold pass_outcome. cbn [base UserBotAgent.extends]. fold bs.
    cbn [base UserBotAgent.extends] in Hs, Hd.
    assert (heap e2 = alter BaseAgent.disable cfg (heap e)) as Hh2 by reflexivity.
    rewrite Hh, Hh2 in *.
    split. { rewrite Hw. subst e2 eB eA. env_simpl. rewrite !sends_app. simpl.
             by rewrite <-app_assoc. }
    split. { unfold persisted_stats. rewrite Hs. subst e2 eB eA. env_simpl.
             by rewrite !lookup_alter_eq, Hrow. }
    split; [done|].
    split. { by rewrite list_lookup_alter_eq, Hheap. }
    split. { rewrite Hd. unfold updates. rewrite List.filter_app. simpl.
             f_equal. subst e2 eB eA. env_simpl. rewrite !List.filter_app. simpl.
             by rewrite !app_nil_r. }
    split. { unfold persisted_behaviors. rewrite Hs. subst e2 eB eA. env_simpl.
             by rewrite !lookup_alter_eq, Hrow. }
    rewrite Ht; [by subst e2 eB eA|]. by apply broadcast_off_disable.
Qed.

(** A started token agent with an [onlyOnce] broadcast to "@a" and "@b",
    in a world where every send to "@b" fails. *)
Lemma broadcast_once_survives_failed_send_witness :
  let w := Scenario.world_failing
             (λ r, match r with
                   | BotSendMessage t _ _ => String.eqb t "@b"
                   | _ => false
                   end) in
  let st := Scenario.running_bot w [Scenario.once ["@a"; "@b"]] in
  let x := BotAgent.run 0 st.1 st.2 in
  sends (wire x.1.2) = [BotSendMessage "@a" "news" "HTML"; BotSendMessage "@b" "news" "HTML"] ∧
  sent <$> persisted_stats Scenario.the_id x.1.2 = Some 1 ∧
  length (updates (db_calls x.1.2)) = 1%nat ∧
  persisted_behaviors Scenario.the_id x.1.2
  = Some [BaseAgent.disable (Scenario.once ["@a"; "@b"])].
Proof.
  intros w st x.
  destruct (tg_agents (storage st.1) !! self_id (b_base st.2)) as [row|] eqn:Hrow;
    [|by vm_compute in Hrow].
  destruct (heap st.1 !! 0%nat) as [[| |c|]|] eqn:Hc;
    try (vm_compute in Hc; discriminate Hc).
  assert (bc_targets c = ["@a"; "@b"] ∧ onlyOnce c = Some true ∧ message c = "news" ∧
          parseMode c = None) as (Ht&Ho&Hm&Hp).
  { vm_compute in Hc. by injection Hc as <-. }
  pose proof (proj1 (broadcast_once_survives_failed_send st.1 0%nat c "@a" "@b" row
                       Hc Ht Ho) st.2) as Hpass.
  rewrite Hm, Hp in Hpass.
  destruct Hpass as (Hs&Hn&Hh&_&Hu&Hb&_).
  - eexists. by vm_compute.
  - by vm_compute.
  - exact Hrow.
  - intros h err. by vm_compute.
  - intros h. eexists. by vm_compute.
  - fold x in Hs, Hn, Hh, Hu, Hb.
    change (self_id (base st.2)) with Scenario.the_id in *.
    split; [rewrite Hs; by vm_compute|].
    split; [rewrite Hn; vm_compute in Hrow; by injection Hrow as <-|].
    split; [rewrite Hu; by vm_compute|].
    rewrite Hb, Hh. by vm_compute.
Defined.

(** ** The pool *)

Lemma JsMap_get_set_eq {V} (k : string) (v : V) (m : JsMap.t V) :
  JsMap.get k (JsMap.set k v m) = Some v.
Proof.
  induction m as [|[k' v'] m IH]; simpl.
  - by rewrite decide_True.
  - destruct (decide (k = k')) as [->|Hne]; simpl.
    + by rewrite decide_True.
    + by rewrite decide_False.
Qed.

Lemma JsMap_get_set_ne {V} (j k : string) (v : V) (m : JsMap.t V) :
  j ≠ k → JsMap.get j (JsMap.set k v m) = JsMap.get j m.
Proof.
  intros Hne. induction m as [|[k' v'] m IH]; simpl.
  - by rewrite decide_False.
  - destruct (decide (k = k')) as [->|Hne']; simpl.
    + by rewrite !decide_False.
    + by rewrite IH.
Qed.

(** An entry found under a key is an entry of the map. *)
Lemma JsMap_get_elem {V} (k : string) (v : V) (m : JsMap.t V) :
  JsMap.get k m = Some v → (k, v) ∈ m.
Proof.
  induction m as [|[k' v'] m IH]; simpl; [done|].
  destruct (decide (k = k')) as [->|Hne].
  - intros [= ->]. apply list_elem_of_here.
  - intros Hget. apply list_elem_of_further. by apply IH.
Qed.


(** What [create] does when it is given a name and credentials with a
    type tag. *)
Lemma create_ok (nm ty : string) (c : AgentCredentials) (bs : list loc)
    (e : Env) (m : AgentManager) :
  cred_type c = Some ty →
  let r := {| id := w_randomUUID (world e) (wire e); name := nm; rec_type := ty;
              status := stopped; credentials := c; behaviors := bs;
              createdAt := clock e; updatedAt := clock e; lastError := None;
              stats := {| sent := 0; received := 0; parsed := 0 |} |} in
  AgentManager.create (Some nm) (Some c) bs e m
  = (Ok r, TelegramStorage.insertAgent r (add_wire RandomUUID 0 e),
     AgentManager.with_pool (JsMap.set (id r) (AgentManager.spawn r)) m).
Proof.
  intros Hty r. unfold AgentManager.create, AgentManager.randomUUID,
    TelegramStorage.saveAgent. mrun.
  cbn [o_name o_type]. rewrite Hty. mrun. reflexivity.
Qed.

(** Whenever [create] returns a record, it is the record of the agent
    pooled under its id. *)
Lemma create_returns_pooled (nm : option string) (creds : option AgentCredentials)
    (bs : list loc) (e : Env) (m : AgentManager) (r : AgentRecord) :
  let x := AgentManager.create nm creds bs e m in
  x.1.1 = Ok r →
  (id r, AgentManager.spawn r) ∈ pool x.2 ∧
  AgentManager.getRecord (AgentManager.spawn r) = r.
Proof.
  intros x. subst x.
  destruct creds as [c|]; [|by vm_compute].
  destruct nm as [nm|]; [|by vm_compute].
  destruct (cred_type c) as [ty|] eqn:Hty.
  - rewrite (create_ok nm ty c bs e m Hty). cbn [fst snd]. intros [= <-].
    split.
    + apply JsMap_get_elem. cbn [pool AgentManager.with_pool].
      apply JsMap_get_set_eq.
    + unfold AgentManager.spawn. by destruct (bool_decide _).
  - unfold AgentManager.create, AgentManager.randomUUID, TelegramStorage.saveAgent.
    mrun. cbn [o_name o_type]. rewrite Hty. by mrun.
Qed.




(** ** Reads through the gateway *)

Lemma truthy_false s : truthy s = false → s = "".
Proof.
  unfold truthy. intros Hs. apply negb_false_iff in Hs. by apply String.eqb_eq in Hs.
Qed.

Lemma slice0_length n s : (String.length (slice0 n s) ≤ n)%nat.
Proof.
  unfold slice0. revert s. induction n as [|n IH]; intros [|a s]; simpl; try lia.
  specialize (IH s). lia.
Qed.

(** [s.slice(0, n)] is the first [n] characters of [s], or all of it. *)
Lemma slice0_prefix n s :
  ∃ rest, s = slice0 n s +:+ rest ∧
          String.length (slice0 n s) = Nat.min n (String.length s).
Proof.
  unfold slice0. revert s. induction n as [|n IH]; intros [|a s]; simpl.
  - by exists "".
  - by exists (String a s).
  - by exists "".
  - destruct (IH s) as (rest & Hs & Hlen). exists rest.
    split; [exact (f_equal (String a) Hs)|exact (f_equal S Hlen)].
Qed.

(** What [safeRecord] does to a record: nothing but to the token, of which
    it keeps the first ten characters, and to the session string, which it
    replaces. *)
Lemma mask_shown (r0 : AgentRecord) :
  shown r0 (with_credentials (TelegramPlugin.mask (credentials r0)) r0).
Proof.
  unfold shown, with_credentials, TelegramPlugin.mask. cbn.
  repeat (split; [done|]). split.
  - destruct (token (credentials r0)) as [[|a t]|]; cbn; [done| |done].
    destruct (slice0_prefix 10 (String a t)) as (rest & Hs & Hlen).
    exists (slice0 10 (String a t)), rest. by repeat split.
  - by destruct (sessionString (credentials r0)) as [[|a t]|].
Qed.

Lemma safe_reply_other x (rep : Reply) : records_of rep = [] → safe_reply x rep.
Proof. intros Hnil r. rewrite Hnil. by intros ?%elem_of_nil. Qed.

(** The reply of the listing: the records of the pooled agents. *)
Lemma safe_reply_list e (m : AgentManager) :
  safe_reply (e, m)
    (RRecords ((TelegramPlugin.safeRecord ∘ Some)
                 <$> (AgentManager.getRecord <$> JsMap.values (pool m)))).
Proof.
  intros r. cbn [records_of]. rewrite list_elem_of_omap.
  intros (o & Ho & Hr). apply list_elem_of_fmap in Ho as (r0 & -> & Hr0).
  apply list_elem_of_fmap in Hr0 as (a & -> & Ha).
  unfold JsMap.values in Ha. apply list_elem_of_fmap in Ha as ([i a'] & -> & Hia).
  cbn in Hr. injection Hr as <-.
  exists (AgentManager.getRecord a'). split; [|apply mask_shown].
  left. by exists i, a'.
Qed.

(** The reply of a read by id: the record of the pooled agent, or else the
    record of the row. *)
Lemma safe_reply_get i e (m : AgentManager) :
  let x := AgentManager.get i e m in
  ∀ r, x.1.1 = Ok r → safe_reply (final x) (RRecord (TelegramPlugin.safeRecord r)).
Proof.
  intros x r. subst x. unfold AgentManager.get. mrun.
  destruct (JsMap.get i (pool m)) as [a|] eqn:Hget.
  - cbn. intros [= <-] r'. cbn. intros ->%list_elem_of_singleton.
    exists (AgentManager.getRecord a). split; [|apply mask_shown].
    left. exists i, a. split; [by apply JsMap_get_elem|done].
  - unfold TelegramStorage.getAgent.
    destruct (tg_agents (storage e) !! i) as [row|] eqn:Hrow; cbn.
    + intros [= <-] r'. cbn. intros ->%list_elem_of_singleton.
      eexists. split; [|apply mask_shown].
      right. exists i, row, e. by split.
    + intros [= <-]. by apply safe_reply_other.
Qed.

(** The reply of [create]: the record of the agent just pooled. *)
Lemma safe_reply_create nm creds bs e (m : AgentManager) :
  let x := AgentManager.create nm creds bs e m in
  ∀ r, x.1.1 = Ok r →
       safe_reply (final x) (RRecord (TelegramPlugin.safeRecord (Some r))).
Proof.
  intros x r Hr r'. cbn. intros ->%list_elem_of_singleton.
  exists r. split; [|apply mask_shown].
  destruct (create_returns_pooled nm creds bs e m r Hr) as [Hin Hrec].
  left. by exists (id r), (AgentManager.spawn r).
Qed.

(** C9. Every agent record in a reply of the WebSocket handler and in a
    response of the HTTP routes is a record the manager holds (that of a
    pooled agent, or that of a row of the store) as a reader may see it:
    all its fields are those of that record, but that of its token only
    the first ten characters are there, followed by the ellipsis, and that
    its session string is replaced by the placeholder "[saved]".  A read
    by id of a pooled agent returns the record of that agent, so shown, and
    the listing returns the records of the pooled agents, so shown, in the
    order of the pool.  The replies of the other methods carry no agent
    record at all. *)
Theorem external_reads_mask_credentials (e : Env) (m : AgentManager) :
  (∀ msg reply,
     let x := TelegramPlugin.handleMessage msg e m in
     x.1.1 = Ok (Some reply) →
     ∀ r, r ∈ records_of reply → ∃ r0, held (final x) r0 ∧ shown r0 r) ∧
  (∀ req resp,
     let x := TelegramPlugin.httpRoutes req e m in
     x.1.1 = Ok resp →
     ∀ r, r ∈ records_of (http_body resp) → ∃ r0, held (final x) r0 ∧ shown r0 r) ∧
  (∀ i a,
     JsMap.get i (pool m) = Some a →
     ∃ r, (TelegramPlugin.handleMessage (agent_get i) e m).1.1
          = Ok (Some (RRecord (Some r))) ∧
          (TelegramPlugin.httpRoutes (GET_agent i) e m).1.1
          = Ok {| http_status := 200; http_body := RRecord (Some r) |} ∧
          shown (AgentManager.getRecord a) r) ∧
  (∃ rs, (TelegramPlugin.handleMessage agent_list e m).1.1 = Ok (Some (RRecords rs)) ∧
         (TelegramPlugin.httpRoutes GET_agents e m).1.1
         = Ok {| http_status := 200; http_body := RRecords rs |} ∧
         Forall2 (λ kv o, ∃ r, o = Some r ∧ shown (AgentManager.getRecord kv.2) r)
                 (pool m) rs).
Proof.
  split; [|split; [|split]].
  - intros msg reply x. subst x.
    change (?P → ∀ r, ?Q r)
      with (P → safe_reply (final (TelegramPlugin.handleMessage msg e m)) reply).
    unfold TelegramPlugin.handleMessage.
    destruct msg as [|i|nm creds bs|i|i|i|i|i bs|i|i code password|i tool args
                    |i lim|i lim|method].
    4-14: (cbv [mbind M_bind try_catch mret M_ret final];
           repeat case_match; simplify_eq/=; intros [= <-]; by apply safe_reply_other).
    + cbv [mbind M_bind try_catch mret M_ret AgentManager.list getSelf final].
      cbn. intros [= <-]. apply safe_reply_list.
    + pose proof (safe_reply_get i e m) as Hget.
      cbv [mbind M_bind try_catch mret M_ret final] in *.
      destruct (AgentManager.get i e m) as [[[r|err] e'] m']; cbn in *.
      * intros [= <-]. by apply Hget.
      * intros [= <-]. by apply safe_reply_other.
    + cbv [mbind M_bind try_catch mret M_ret final TelegramPlugin.alloc getEnv
           modifyEnv].
      pose proof (safe_reply_create nm creds (seq (length (heap e)) (length (default [] bs)))
                    (set_heap (heap e ++ default [] bs) e) m) as Hcr.
      cbv [final] in Hcr.
      destruct (AgentManager.create nm creds _ _ m) as [[[r|err] e'] m']; cbn in *.
      * intros [= <-]. by apply Hcr.
      * intros [= <-]. by apply safe_reply_other.
  - intros req resp x. subst x.
    change (?P → ∀ r, ?Q r)
      with (P → safe_reply (final (TelegramPlugin.httpRoutes req e m)) (http_body resp)).
    unfold TelegramPlugin.httpRoutes.
    destruct req as [|i|nm creds bs|i|i|i|i|i bs|i|i code password|i tool args
                    |i lim|i lim].
    4-13: (cbv [mbind M_bind try_catch mret M_ret final];
           repeat case_match; simplify_eq/=; intros [= <-]; by apply safe_reply_other).
    + cbv [mbind M_bind try_catch mret M_ret AgentManager.list getSelf final].
      cbn. intros [= <-]. apply safe_reply_list.
    + pose proof (safe_reply_get i e m) as Hget.
      cbv [mbind M_bind try_catch mret M_ret final] in *.
      destruct (AgentManager.get i e m) as [[[[r|]|err] e'] m']; cbn in *.
      * intros [= <-]. by apply (Hget (Some r)).
      * intros [= <-]. by apply safe_reply_other.
      * done.
    + cbv [mbind M_bind try_catch mret M_ret final TelegramPlugin.alloc getEnv
           modifyEnv].
      pose proof (safe_reply_create nm creds (seq (length (heap e)) (length (default [] bs)))
                    (set_heap (heap e ++ default [] bs) e) m) as Hcr.
      cbv [final] in Hcr.
      destruct (AgentManager.create nm creds _ _ m) as [[[r|err] e'] m']; cbn in *.
      * intros [= <-]. by apply Hcr.
      * done.
  - intros i a Hget. eexists.
    unfold TelegramPlugin.handleMessage, TelegramPlugin.httpRoutes, AgentManager.get.
    mrun. rewrite Hget. cbn. split; [reflexivity|]. split; [reflexivity|].
    apply mask_shown.
  - eexists. split; [reflexivity|]. split; [reflexivity|].
    unfold JsMap.values. rewrite <-!list_fmap_compose.
    apply Forall2_fmap_r, Forall_Forall2_diag, Forall_forall.
    intros [i a] _. eexists. split; [reflexivity|]. apply mask_shown.
Qed.

Lemma external_reads_mask_credentials_witness :
  let w := Scenario.world_failing (λ _, false) in
  let b := Scenario.created w [] Scenario.bot_credentials in
  let u := Scenario.created w [] Scenario.userbot_credentials in
  (∃ r r0,
     (TelegramPlugin.handleMessage (agent_get Scenario.the_id) b.1 b.2).1.1
     = Ok (Some (RRecord (Some r))) ∧
     token (credentials r) = Some "123456:ABC…" ∧
     held (final (TelegramPlugin.handleMessage (agent_get Scenario.the_id) b.1 b.2)) r0 ∧
     shown r0 r) ∧
  (∃ r r0,
     (TelegramPlugin.httpRoutes (GET_agent Scenario.the_id) u.1 u.2).1.1
     = Ok {| http_status := 200; http_body := RRecord (Some r) |} ∧
     sessionString (credentials r) = Some "[saved]" ∧
     held (final (TelegramPlugin.httpRoutes (GET_agent Scenario.the_id) u.1 u.2)) r0 ∧
     shown r0 r).
Proof.
  intros w b u. split.
  - eexists.
    edestruct (proj1 (external_reads_mask_credentials b.1 b.2) (agent_get Scenario.the_id))
      as (r0 & Hheld & Hshown); [by vm_compute|by left|].
    exists r0. split; [by vm_compute|]. split; [by vm_compute|]. by split.
  - eexists.
    edestruct (proj1 (proj2 (external_reads_mask_credentials u.1 u.2))
                 (GET_agent Scenario.the_id))
      as (r0 & Hheld & Hshown); [by vm_compute|by left|].
    exists r0. split; [by vm_compute|]. split; [by vm_compute|]. by split.
Defined.

(** ** The conversation history *)

(** The trimmed history has at most twenty entries, and they are the most
    recent ones: what is dropped is a prefix, the oldest entries. *)
Lemma trim_spec (hist : list HistEntry) :
  (length (AiReplyEngine.trim hist) ≤ 20)%nat ∧
  ∃ oldest, hist = oldest ++ AiReplyEngine.trim hist ∧
            length oldest = (length hist - 20)%nat.
Proof.
  unfold AiReplyEngine.trim. destruct (20 <? length hist)%nat eqn:Hlen.
  - apply Nat.ltb_lt in Hlen. split; [rewrite length_drop; lia|].
    exists (take (length hist - 20) hist). rewrite take_drop, length_take. split; [done|lia].
  - apply Nat.ltb_ge in Hlen. split; [done|]. exists []. split; [done|simpl; lia].
Qed.

(** After any call of [aiReply], returning or throwing, the history stored
    under the key has at most twenty-one entries: twenty after the trim,
    and the reply. *)
Lemma aiReply_stored_bound {S} (text key : string) (prompt : option string)
    (e : Env) (s : S) (h : list HistEntry) :
  histories (AiReplyEngine.aiReply text key prompt e s).1.2 !! key = Some h →
  (length h ≤ 21)%nat.
Proof.
  unfold AiReplyEngine.aiReply.
  pose proof (proj1 (trim_spec (default [] (histories e !! key) ++ [AiReplyEngine.user text])))
    as Hhist. revert Hhist.
  cbv [mbind M_bind mret M_ret getEnv modifyEnv when await].
  generalize (AiReplyEngine.trim (default [] (histories e !! key) ++ [AiReplyEngine.user text])).
  intros hist Hhist.
  destruct (histories e !! key) as [h0|] eqn:Hkey; simpl;
    destruct (w_answer _ _ _); simpl; rewrite ?lookup_insert_eq, ?Hkey;
    intros [= <-]; rewrite ?length_app; simpl; lia.
Qed.

(** What the completion provider is sent: the stored history with the new
    message, trimmed to twenty entries. *)
Lemma aiReply_request {S} (text key : string) (prompt : option string)
    (e : Env) (s : S) :
  let hist := AiReplyEngine.trim (default [] (histories e !! key)
                                   ++ [AiReplyEngine.user text]) in
  wire (AiReplyEngine.aiReply text key prompt e s).1.2
    = wire e ++ [MessagesCreate (default AiReplyEngine.default_prompt prompt) hist] ∧
  (length hist ≤ 20)%nat.
Proof.
  intros hist. split; [|apply trim_spec].
  unfold AiReplyEngine.aiReply. fold hist.
  cbv [mbind M_bind mret M_ret getEnv modifyEnv when await].
  destruct (histories e !! key); simpl; by destruct (w_answer _ _ _).
Qed.

(** C2, at the failing input.  The trim to twenty entries is applied
    before the request, and the reply is pushed after it: from the
    eleventh exchange of a conversation on, the stored history has
    twenty-one entries.  The history sent with the request has twenty. *)
Theorem aiReply_stored_history_exceeds_cap :
  let e := Scenario.boot (Scenario.world_failing (λ _, false)) [] in
  let stored n := length <$> histories (Scenario.exchanges n "agent:42" e ()).1.2 !! "agent:42" in
  stored 10%nat = Some 20%nat ∧
  stored 11%nat = Some 21%nat ∧
  stored 12%nat = Some 21%nat ∧
  (∃ system messages,
     last (wire (Scenario.exchanges 11 "agent:42" e ()).1.2)
       = Some (MessagesCreate system messages) ∧ length messages = 20%nat).
Proof.
  intros e stored. repeat split; try by vm_compute.
  do 2 eexists. split; [by vm_compute|by vm_compute].
Qed.

(** C3, at the failing input.  A started token agent with an enabled
    [auto_reply] behaviour, [cooldownSeconds = 5], answers "hi" with
    "hello!".  Two such messages arrive in the same chat one second apart:
    both are answered, [handleText] has no cooldown. *)
Theorem bot_replies_within_cooldown :
  let st := Scenario.running_bot (Scenario.world_failing (λ _, false)) [Scenario.hello] in
  let '(e1, a1) := final (BotAgent.handleText Scenario.hi st.1 st.2) in
  let e1' := advance 1000 e1 in
  let '(e2, a2) := final (BotAgent.handleText Scenario.hi e1' a1) in
  (cooldownSeconds <$> (heap st.1 !! 0%nat ≫= λ b,
     match b with auto_reply c => Some c | _ => None end)) = Some (Some 5) ∧
  clock e1' - clock st.1 < 5000 ∧
  Scenario.replies (wire st.1) = [] ∧
  Scenario.replies (wire e2) = [CtxReply "42" "hello!"; CtxReply "42" "hello!"].
Proof. by vm_compute. Qed.

(** The session agent does have the cooldown: a message that arrives
    within the window after the last reply in the chat is dropped before
    anything is tracked or sent. *)
Lemma userbot_cooldown_suppresses (cfg : loc) (c : AutoReplyBehavior)
    (msg : Message) (last : Z) (e : Env) (a : UserBotAgent) :
  heap e !! cfg = Some (auto_reply c) →
  msg_out msg = false →
  cooldowns e !! (self_id (u_base a) +:+ ":" +:+ default "" (msg_chatId msg)) = Some last →
  clock e - last < default 5 (cooldownSeconds c) * 1000 →
  UserBotAgent.autoReplyHandler cfg {| ev_message := Some msg |} e a = (Ok (), e, a).
Proof.
  intros Hcfg Hout Hlast Hwin. unfold UserBotAgent.autoReplyHandler. simpl.
  rewrite Hout. mrun. rewrite Hcfg, Hlast. simpl.
  by rewrite bool_decide_eq_true_2.
Qed.

(** The same three messages on a session agent, at 0, 1 and 6 seconds:
    the first and the third are answered, the second is not. *)
Lemma userbot_cooldown_scenario :
  let st := Scenario.running_userbot (Scenario.world_failing (λ _, false)) [Scenario.hello] in
  let '(e1, a1) := final (UserBotAgent.autoReplyHandler 0 Scenario.hi_event st.1 st.2) in
  let '(e2, a2) := final (UserBotAgent.autoReplyHandler 0 Scenario.hi_event (advance 1000 e1) a1) in
  let '(e3, a3) := final (UserBotAgent.autoReplyHandler 0 Scenario.hi_event (advance 5000 e2) a2) in
  Scenario.replies (wire e1) = [MsgReply "42" "hello!"] ∧
  Scenario.replies (wire e2) = [MsgReply "42" "hello!"] ∧
  Scenario.replies (wire e3) = [MsgReply "42" "hello!"; MsgReply "42" "hello!"].
Proof. by vm_compute. Qed.

(** ** The store *)

Lemma snapshot_fresh (h vs : list BehaviorConfig) :
  snapshot (h ++ vs) (seq (length h) (length vs)) = vs.
Proof.
  revert h. induction vs as [|v vs IH]; intros h; [done|].
  unfold snapshot in *. cbn [length seq omap list_omap].
  rewrite lookup_app_r by lia. rewrite Nat.sub_diag. cbn. f_equal.
  specialize (IH (h ++ [v])). rewrite length_app in IH. simpl in IH.
  rewrite <-app_assoc in IH. simpl in IH. by rewrite Nat.add_1_r in IH.
Qed.

(** A record written with [saveAgent] is read back by [getAgent] field by
    field; its behaviour list comes back as new objects (so a change made
    to the copy does not reach the objects of the caller) with the values
    the objects had when the record was saved; reading writes nothing. *)
Theorem saveAgent_getAgent_round_trip {S} (o : RecordObject) (e : Env) (s : S)
    (r : AgentRecord) :
  let x := TelegramStorage.saveAgent o e s in
  x.1.1 = Ok r →
  let y := TelegramStorage.getAgent (id r) x.1.2 in
  ∃ r', y.1 = Some r' ∧
        with_behaviors (behaviors r) r' = r ∧
        snapshot (heap y.2) (behaviors r') = snapshot (heap e) (behaviors r) ∧
        (∀ l, l ∈ behaviors r' → (length (heap e) ≤ l)%nat) ∧
        storage y.2 = storage x.1.2 ∧
        (∀ l, (l < length (heap e))%nat → heap y.2 !! l = heap e !! l).
Proof.
  intros x. subst x. unfold TelegramStorage.saveAgent.
  destruct (o_name o) as [n|], (o_type o) as [t|]; mrun; try done.
  intros [= <-].
  unfold TelegramStorage.getAgent, TelegramStorage.insertAgent,
    TelegramStorage.with_agents.
  cbn [storage set_storage tg_agents id]. rewrite lookup_insert_eq.
  unfold TelegramStorage.toRecord. cbn.
  eexists. split; [reflexivity|]. split; [done|].
  split; [apply snapshot_fresh|]. split.
  - intros l Hl. apply elem_of_seq in Hl. lia.
  - split; [done|]. intros l Hl. by rewrite lookup_app_l.
Qed.

Lemma saveAgent_getAgent_round_trip_witness :
  let e := Scenario.boot (Scenario.world_failing (λ _, false)) [Scenario.hello] in
  let o := {| o_id := "a1"; o_name := Some "agent"; o_type := Some "bot";
              o_status := stopped; o_credentials := Scenario.bot_credentials;
              o_behaviors := [0%nat]; o_createdAt := 1000; o_updatedAt := 1000;
              o_lastError := None;
              o_stats := {| sent := 0; received := 0; parsed := 0 |} |} in
  let x := TelegramStorage.saveAgent o e () in
  ∃ r r', x.1.1 = Ok r ∧
          (TelegramStorage.getAgent "a1" x.1.2).1 = Some r' ∧
          name r' = "agent" ∧ behaviors r' = [1%nat] ∧
          snapshot (heap (TelegramStorage.getAgent "a1" x.1.2).2) (behaviors r')
          = [Scenario.hello].
Proof.
  intros e o x. eexists.
  edestruct (saveAgent_getAgent_round_trip (S:=()) o e ()) as (r' & Hr' & _ & Hs & _);
    [by vm_compute|].
  exists r'. split; [by vm_compute|]. split; [exact Hr'|].
  vm_compute in Hr'. injection Hr' as <-. by vm_compute.
Defined.

(** [getEvents] returns events of the log only, at most [limit] of them
    when the limit is not negative, and only those of the agent asked for
    when an agent is named; the event saved last is the first one
    returned. *)
Theorem getEvents_newest_first (i : option string) (lim : option Z) (e : Env) :
  let evs := TelegramStorage.getEvents i lim e in
  let n := default 200 lim in
  ((0 ≤ n)%Z → (length evs ≤ Z.to_nat n)%nat) ∧
  (∀ ev, ev ∈ evs →
     ev ∈ tg_events (storage e) ∧ ∀ j, i = Some j → j ≠ "" → agentId ev = j) ∧
  (∀ ev, n ≠ 0 →
     (∀ j, i = Some j → j ≠ "" → agentId ev = j) →
     head (TelegramStorage.getEvents i lim (TelegramStorage.saveEvent ev e)) = Some ev).
Proof.
  intros evs n. subst evs. unfold TelegramStorage.getEvents, TelegramStorage.sql_limit.
  fold n. clearbody n.
  split; [|split].
  - intros Hlim. destruct (Z.ltb_spec n 0); [lia|].
    rewrite length_take. lia.
  - intros ev Hev.
    assert (ev ∈ reverse (if truthy_opt i
                          then filter (λ ev, agentId ev = default "" i) (tg_events (storage e))
                          else tg_events (storage e))) as Hin.
    { destruct (n <? 0)%Z; [done|].
      apply elem_of_take in Hev as (k & Hk & _). by eapply list_elem_of_lookup_2. }
    rewrite elem_of_reverse in Hin. destruct i as [j|]; simpl in *.
    + destruct (truthy j) eqn:Hj.
      * apply list_elem_of_filter in Hin as [Hid Hin]. split; [done|].
        by intros ? [= <-] _.
      * split; [done|]. intros ? [= <-] Hne. apply truthy_false in Hj. done.
    + split; [done|]. by intros.
  - intros ev Hlim Hid. cbn [storage set_storage TelegramStorage.saveEvent tg_events].
    assert ((if truthy_opt i
             then filter (λ ev0, agentId ev0 = default "" i) (tg_events (storage e) ++ [ev])
             else tg_events (storage e) ++ [ev])
            = (if truthy_opt i
               then filter (λ ev0, agentId ev0 = default "" i) (tg_events (storage e))
               else tg_events (storage e)) ++ [ev]) as ->.
    { destruct i as [j|]; simpl; [|done]. destruct (truthy j) eqn:Hj; [|done].
      rewrite filter_app. f_equal. rewrite filter_cons_True; [done|].
      apply Hid; [done|]. intros ->. done. }
    rewrite reverse_app. simpl.
    destruct (Z.ltb_spec n 0); [done|].
    destruct (Z.to_nat n) eqn:Hn; [lia|done].
Qed.

Lemma getEvents_newest_first_witness :
  let e := Scenario.boot (Scenario.world_failing (λ _, false)) [] in
  let ev t := {| agentId := "a"; agentName := "agent"; ev_type := status_change;
                 payload := PStatus stopped None; timestamp := t |} in
  let e2 := TelegramStorage.saveEvent (ev 2) (TelegramStorage.saveEvent (ev 1) e) in
  let evs := TelegramStorage.getEvents (Some "a") (Some 1) e2 in
  head evs = Some (ev 2) ∧ (length evs ≤ 1)%nat.
Proof.
  intros e ev e2 evs. split.
  - apply (proj2 (proj2 (getEvents_newest_first (Some "a") (Some 1)
                           (TelegramStorage.saveEvent (ev 1) e))) (ev 2)).
    + simpl. lia.
    + intros j [= <-] _. reflexivity.
  - apply (proj1 (getEvents_newest_first (Some "a") (Some 1) e2)). simpl. lia.
Defined.

(** ** A completion that fails, a completion that succeeds *)

(** When the completion request fails, [aiReply] throws the error of the
    provider.  The message of the user has then already been pushed onto the
    array: a conversation that has a stored history keeps it there (a retry
    sends it a second time), a conversation that has none still has none.
    Whatever the outcome, no other conversation is touched. *)
Theorem aiReply_failure_keeps_user_turn {S} (text key : string) (prompt : option string)
    (e : Env) (s : S) (err : string) :
  let hist := AiReplyEngine.trim (default [] (histories e !! key)
                                   ++ [AiReplyEngine.user text]) in
  w_answer (world e) (wire e)
    (MessagesCreate (default AiReplyEngine.default_prompt prompt) hist) = AFail err →
  let x := AiReplyEngine.aiReply text key prompt e s in
  x.1.1 = Throw err ∧
  histories x.1.2 !! key
    = (λ h, AiReplyEngine.trim (h ++ [AiReplyEngine.user text])) <$> histories e !! key ∧
  (∀ k, k ≠ key → histories x.1.2 !! k = histories e !! k).
Proof.
  intros hist Hfail x. subst x hist. revert Hfail. unfold AiReplyEngine.aiReply.
  cbv [mbind M_bind mret M_ret getEnv modifyEnv when await].
  destruct (histories e !! key) as [h|] eqn:Hkey; simpl; intros ->; simpl.
  - rewrite lookup_insert_eq. split; [done|]. split; [done|].
    intros k Hk. by rewrite lookup_insert_ne.
  - rewrite Hkey. done.
Qed.

Lemma aiReply_failure_keeps_user_turn_witness :
  let w := Scenario.world_failing
             (λ r, match r with MessagesCreate _ [_; _; _] => true | _ => false end) in
  let e := (Scenario.exchanges 1 "agent:42" (Scenario.boot w []) ()).1.2 in
  let x := AiReplyEngine.aiReply "again" "agent:42" None e () in
  x.1.1 = Throw "Error: network" ∧
  histories x.1.2 !! "agent:42"
  = Some [AiReplyEngine.user "hello"; AiReplyEngine.assistant "ok";
          AiReplyEngine.user "again"].
Proof.
  intros w e x.
  destruct (aiReply_failure_keeps_user_turn (S:=()) "again" "agent:42" None e ()
              "Error: network") as (Hr & Hh & _).
  - by vm_compute.
  - split; [exact Hr|]. fold x in Hh. rewrite Hh. by vm_compute.
Defined.

(** When the provider answers, [aiReply] returns its text (the ellipsis
    when the first block is not text) and stores, under the key alone, the
    history that was sent followed by that reply; a key that [clearHistory]
    removed starts again from the message alone. *)
Theorem aiReply_success_appends_reply {S} (text key : string) (prompt : option string)
    (e : Env) (s : S) :
  let hist := AiReplyEngine.trim (default [] (histories e !! key)
                                   ++ [AiReplyEngine.user text]) in
  let ans := w_answer (world e) (wire e)
               (MessagesCreate (default AiReplyEngine.default_prompt prompt) hist) in
  (∀ err, ans ≠ AFail err) →
  let reply := match ans with AText t => t | _ => ellipsis end in
  let x := AiReplyEngine.aiReply text key prompt e s in
  x.1.1 = Ok reply ∧
  histories x.1.2 !! key = Some (hist ++ [AiReplyEngine.assistant reply]) ∧
  (∀ k, k ≠ key → histories x.1.2 !! k = histories e !! k) ∧
  wire (AiReplyEngine.aiReply text key prompt (AiReplyEngine.clearHistory key e) s).1.2
  = wire e ++ [MessagesCreate (default AiReplyEngine.default_prompt prompt)
                 [AiReplyEngine.user text]].
Proof.
  intros hist ans Hok reply x.
  split; [|split; [|split]].
  4: { clear. unfold AiReplyEngine.aiReply, AiReplyEngine.clearHistory.
       cbv [mbind M_bind mret M_ret getEnv modifyEnv when await].
       cbn [histories set_histories]. rewrite lookup_delete_eq. simpl.
       change (AiReplyEngine.trim [AiReplyEngine.user text]) with [AiReplyEngine.user text].
       by destruct (w_answer _ _ _). }
  all: subst x reply ans hist; revert Hok; unfold AiReplyEngine.aiReply;
    cbv [mbind M_bind mret M_ret getEnv modifyEnv when await];
    destruct (histories e !! key) as [h|] eqn:Hkey; simpl;
    destruct (w_answer (world e) (wire e) _) as [| | | | |er] eqn:Ha; simpl;
    intros Hok; try (by destruct (Hok er)); try done;
    rewrite ?lookup_insert_eq; try done;
    intros k Hk; by rewrite !lookup_insert_ne by done.
Qed.

Lemma aiReply_success_appends_reply_witness :
  let e := Scenario.boot (Scenario.world_failing (λ _, false)) [] in
  let x := AiReplyEngine.aiReply "hello" "agent:42" None e () in
  x.1.1 = Ok "ok" ∧
  histories x.1.2 !! "agent:42"
  = Some [AiReplyEngine.user "hello"; AiReplyEngine.assistant "ok"].
Proof.
  intros e x.
  destruct (aiReply_success_appends_reply (S:=()) "hello" "agent:42" None e ())
    as (Hr & Hh & _).
  - intros err. by vm_compute.
  - split; [exact Hr|exact Hh].
Defined.

(** ** What every method leaves alone *)


Section Steady.
Context {S : Type} `{Lawful S}.

Global Instance steady_preorder : PreOrder (steady (S:=S)).
Proof.
  split.
  - intros x. unfold steady. repeat split; try done; exists []; by rewrite app_nil_r.
  - intros x y z (Hw&Hi&Hn&Hf&Hid&Hlg&Ho&[r1 Hev]&[r2 Hem]&Hs)
                 (Hw'&Hi'&Hn'&Hf'&Hid'&Hlg'&Ho'&[r3 Hev']&[r4 Hem']&Hs').
    unfold steady.
    split; [congruence|]. split; [congruence|]. split; [congruence|].
    split; [congruence|].
    split; [intros j; by rewrite Hid', Hid|].
    split; [intros j; by rewrite Hlg', Hlg|].
    split; [intros j Hj; rewrite Ho', Ho; [done|done|congruence]|].
    split; [exists (r1 ++ r3); by rewrite Hev', Hev, app_assoc|].
    split; [exists (r2 ++ r4); by rewrite Hem', Hem, app_assoc|].
    auto.
Qed.

(** A change of the environment that leaves the store and the emitter. *)
Lemma steady_env (f : Env → Env) e (s : S) :
  world (f e) = world e → storage (f e) = storage e → emitted (f e) = emitted e →
  steady (e, s) (f e, s).
Proof.
  intros Hw Hs Hem. unfold steady, in_sync; cbn [fst snd]. rewrite Hw, Hs, Hem.
  repeat split; try done; exists []; by rewrite app_nil_r.
Qed.

(** A change of the object that leaves what [frozen] names and the status. *)
Lemma steady_self (f : S → S) e (s : S) :
  self_id (base (f s)) = self_id (base s) →
  self_name (base (f s)) = self_name (base s) →
  frozen (record (base (f s))) = frozen (record (base s)) →
  status (record (base (f s))) = status (record (base s)) →
  steady (e, s) (e, f s).
Proof.
  intros Hi Hn Hf Hst. unfold steady, in_sync; cbn [fst snd]. rewrite Hi, Hn, Hf, Hst.
  repeat split; try done; exists []; by rewrite app_nil_r.
Qed.

(** An [UPDATE] of the agent's own row that leaves identity, login and
    status. *)
Lemma steady_alter (g : Row → Row) (c : StorageCall) e (s : S) :
  (∀ row, identity (g row) = identity row) →
  (∀ row, login (c_credentials (g row)) = login (c_credentials row)) →
  (∀ row, c_status (g row) = c_status row) →
  steady (e, s)
    (set_storage (TelegramStorage.with_agents (alter g (self_id (base s)))) c e, s).
Proof.
  intros Hid Hlg Hst. unfold steady, in_sync; cbn.
  repeat split; try done; try (exists []; by rewrite app_nil_r).
  - intros j. destruct (decide (j = self_id (base s))) as [->|Hne].
    + rewrite lookup_alter_eq. destruct (tg_agents (storage e) !! _); simpl; [|done].
      by rewrite Hid.
    + by rewrite lookup_alter_ne.
  - intros j. destruct (decide (j = self_id (base s))) as [->|Hne].
    + rewrite lookup_alter_eq. destruct (tg_agents (storage e) !! _); simpl; [|done].
      by rewrite Hlg.
    + by rewrite lookup_alter_ne.
  - intros j Hj. by rewrite lookup_alter_ne.
  - intros Hsync row. rewrite lookup_alter_eq.
    destruct (tg_agents (storage e) !! _) as [row0|] eqn:Hrow; simpl; [|done].
    intros [= <-]. rewrite Hst. by apply Hsync.
Qed.

Lemma steady_saveEvent ev e (s : S) :
  steady (e, s) (add_emitted ev (TelegramStorage.saveEvent ev e), s).
Proof.
  unfold steady, in_sync; cbn.
  repeat split; try done; by eexists.
Qed.

Lemma keeps_steady_pushEvent ty p : keeps steady (BaseAgent.pushEvent (S:=S) ty p).
Proof. intros e s. apply steady_saveEvent. Qed.

Lemma keeps_steady_trackMessage d text chat :
  keeps steady (BaseAgent.trackMessage (S:=S) d text chat).
Proof.
  intros e s. unfold BaseAgent.trackMessage, BaseAgent.pushEvent. mrun.
  etrans; [|apply steady_saveEvent].
  by apply steady_alter.
Qed.

Lemma keeps_steady_setStatus st err : keeps steady (BaseAgent.setStatus (S:=S) st err).
Proof.
  intros e s. unfold BaseAgent.setStatus, BaseAgent.pushEvent. mrun.
  rewrite !base_with_base. cbn.
  unfold steady, in_sync; cbn. rewrite !base_with_base. cbn.
  repeat split; try done; try (by eexists).
  - intros j. destruct (decide (j = self_id (base s))) as [->|Hne].
    + rewrite lookup_alter_eq. by destruct (tg_agents (storage e) !! _).
    + by rewrite lookup_alter_ne.
  - intros j. destruct (decide (j = self_id (base s))) as [->|Hne].
    + rewrite lookup_alter_eq. by destruct (tg_agents (storage e) !! _).
    + by rewrite lookup_alter_ne.
  - intros j Hj. by rewrite lookup_alter_ne.
  - intros _ row. rewrite lookup_alter_eq.
    destruct (tg_agents (storage e) !! _); simpl; [|done]. by intros [= <-].
Qed.

Lemma keeps_steady_updateSession saved :
  keeps steady (BaseAgent.this (S:=S) ≫= λ b,
                modifyEnv (TelegramStorage.updateSession (self_id b) saved)).
Proof. intros e s. mrun. by apply steady_alter. Qed.

Lemma keeps_steady_aiReply text key prompt :
  keeps steady (AiReplyEngine.aiReply (S:=S) text key prompt).
Proof.
  unfold AiReplyEngine.aiReply.
  kapply @keeps_bind; [kapply @keeps_getEnv|]. intros e0.
  kapply @keeps_bind.
  { kapply @keeps_when. apply keeps_modifyEnv. intros; by apply steady_env. }
  intros _. kapply @keeps_bind.
  { apply keeps_await. intros; by apply steady_env. }
  intros res. kapply @keeps_bind; [|intros; kapply @keeps_ret].
  apply keeps_modifyEnv. intros; by apply steady_env.
Qed.

(** What is left to do after a step that is known to be steady. *)
Lemma steady_then {A} (m : M S A) x e1 s1 :
  steady x (e1, s1) → keeps steady m → steady x (final (m e1 s1)).
Proof. intros Hx Hm. etrans; [exact Hx|apply Hm]. Qed.

Context `{!Agent S}.
Hypothesis hook_steady : ∀ bs, keeps steady (onBehaviorsChanged (S:=S) bs).

Lemma keeps_steady_updateBehaviors bs : keeps steady (BaseAgent.updateBehaviors (S:=S) bs).
Proof.
  intros e s. unfold BaseAgent.updateBehaviors. mrun.
  rewrite base_with_base. cbn.
  apply steady_then; [|apply hook_steady].
  etrans.
  - apply (steady_self (with_base (with_record (with_behaviors bs)))).
    all: by rewrite base_with_base.
  - pose proof (steady_alter
      (λ row, {| c_id := c_id row; c_name := c_name row; c_type := c_type row;
                 c_status := c_status row; c_credentials := c_credentials row;
                 c_behaviors := snapshot (heap e) bs; c_created_at := c_created_at row;
                 c_updated_at := clock e; c_last_error := c_last_error row;
                 c_stats := c_stats row |})
      (UpdateBehaviors (self_id (base s)) (snapshot (heap e) bs)) e
      (with_base (with_record (with_behaviors bs)) s)) as Hst.
    rewrite base_with_base in Hst. cbn in Hst. by apply Hst.
Qed.

End Steady.

Ltac steady_step :=
  lazymatch goal with
  | |- keeps steady (notify _) => apply keeps_notify; intros; by apply steady_env
  | |- keeps steady (await _) => apply keeps_await; intros; by apply steady_env
  | |- keeps steady (invoke _) => apply keeps_invoke; intros; by apply steady_env
  | |- keeps steady (BaseAgent.pushEvent _ _) => apply keeps_steady_pushEvent
  | |- keeps steady (BaseAgent.trackMessage _ _ _) => apply keeps_steady_trackMessage
  | |- keeps steady (BaseAgent.setStatus _ _) => apply keeps_steady_setStatus
  | |- keeps steady (AiReplyEngine.aiReply _ _ _) => apply keeps_steady_aiReply
  | |- keeps steady (BaseAgent.this ≫= λ b, modifyEnv (TelegramStorage.updateSession _ _)) =>
      apply keeps_steady_updateSession
  | |- keeps steady (BaseAgent.spawn _) =>
      intros ? ?; by apply (steady_env (add_task _))
  | |- keeps steady (BaseAgent.delay _) =>
      apply keeps_modifyEnv; intros; by apply steady_env
  | |- keeps steady (BaseAgent.set_disabled _) =>
      apply keeps_modifyEnv; intros; by apply steady_env
  | |- keeps steady BaseAgent.clearCron =>
      apply keeps_modifySelf; intros ? ?; by apply steady_self
  | |- keeps steady (modifyEnv _) =>
      apply keeps_modifyEnv; intros; by apply steady_env
  | |- keeps steady (modifySelf _) =>
      apply keeps_modifySelf; intros ? ?; by apply steady_self
  | |- _ => keeps_step
  end.

Section SteadyBot.

Lemma keeps_steady_getBot : keeps steady BotAgent.getBot.
Proof. unfold BotAgent.getBot. repeat steady_step. Qed.

Lemma keeps_steady_newBot : keeps steady BotAgent.newBot.
Proof. unfold BotAgent.newBot, BotAgent.creds_token. repeat steady_step. Qed.

Lemma keeps_steady_bot_setupBroadcast : keeps steady BotAgent.setupBroadcast.
Proof.
  unfold BotAgent.setupBroadcast.
  do 3 steady_step; try apply keeps_steady_getBot.
  steady_step; [|steady_step]. destruct (_ && _); [|steady_step].
  steady_step; [steady_step|]. destruct (truthy_opt _); repeat steady_step.
Qed.

Lemma keeps_steady_setupMonitorViaUpdates : keeps steady BotAgent.setupMonitorViaUpdates.
Proof.
  unfold BotAgent.setupMonitorViaUpdates.
  do 3 steady_step; try apply keeps_steady_getBot.
  steady_step; [|steady_step]. destruct (_ && _); steady_step.
Qed.

Lemma keeps_steady_bot_registerBehaviors bs : keeps steady (BotAgent.registerBehaviors bs).
Proof.
  unfold BotAgent.registerBehaviors. repeat steady_step.
  - apply keeps_steady_bot_setupBroadcast.
  - apply keeps_steady_setupMonitorViaUpdates.
Qed.

Lemma keeps_steady_setupBaseHandlers : keeps steady BotAgent.setupBaseHandlers.
Proof.
  unfold BotAgent.setupBaseHandlers.
  steady_step; [apply keeps_steady_getBot|]. repeat steady_step.
Qed.

Lemma keeps_steady_bot_onBehaviorsChanged bs :
  keeps steady (BotAgent.onBehaviorsChanged bs).
Proof.
  unfold BotAgent.onBehaviorsChanged.
  steady_step; [apply keeps_steady_getBot|].
  steady_step; [steady_step; steady_step; [steady_step|apply keeps_steady_newBot]|].
  steady_step; [steady_step|].
  steady_step; [apply keeps_steady_bot_registerBehaviors|].
  steady_step; [apply keeps_steady_setupBaseHandlers|].
  steady_step; [steady_step|].
  destruct (decide _); [|steady_step].
  steady_step; [apply keeps_steady_getBot|]. repeat steady_step.
Qed.

Lemma keeps_steady_bot_updateBehaviors bs :
  keeps steady (BaseAgent.updateBehaviors (S:=BotAgent) bs).
Proof. apply keeps_steady_updateBehaviors, keeps_steady_bot_onBehaviorsChanged. Qed.

Lemma keeps_steady_bot_start : keeps steady BotAgent.start.
Proof.
  unfold BotAgent.start.
  steady_step; [steady_step|]. destruct (decide _); [steady_step|].
  steady_step; [steady_step|].
  steady_step.
  - steady_step; [apply keeps_steady_newBot|].
    steady_step; [steady_step|].
    steady_step; [apply keeps_steady_bot_registerBehaviors|].
    steady_step; [apply keeps_steady_setupBaseHandlers|]. steady_step.
  - repeat steady_step.
Qed.

Lemma keeps_steady_bot_stop : keeps steady BotAgent.stop.
Proof.
  unfold BotAgent.stop.
  steady_step; [steady_step|].
  steady_step; [apply keeps_steady_getBot|].
  repeat steady_step.
Qed.

Lemma keeps_steady_bot_callTool tool args : keeps steady (BotAgent.callTool tool args).
Proof.
  unfold BotAgent.callTool.
  steady_step; [apply keeps_steady_getBot|]. repeat steady_step.
Qed.




End SteadyBot.

Section SteadyUserBot.

Lemma keeps_steady_getClient : keeps steady UserBotAgent.getClient.
Proof. unfold UserBotAgent.getClient. repeat steady_step. Qed.

Lemma keeps_steady_creds : keeps steady UserBotAgent.creds.
Proof. unfold UserBotAgent.creds. repeat steady_step. Qed.

Lemma keeps_steady_set_creds s : keeps steady (UserBotAgent.set_creds_sessionString s).
Proof. unfold UserBotAgent.set_creds_sessionString. steady_step. Qed.

Lemma keeps_steady_user_setupBroadcast : keeps steady UserBotAgent.setupBroadcast.
Proof.
  unfold UserBotAgent.setupBroadcast.
  do 3 steady_step; try apply keeps_steady_getClient.
  steady_step; [|steady_step]. destruct (_ && _); [|steady_step].
  steady_step; [steady_step|]. destruct (truthy_opt _); repeat steady_step.
Qed.

Lemma keeps_steady_setupAutoReply : keeps steady UserBotAgent.setupAutoReply.
Proof.
  unfold UserBotAgent.setupAutoReply.
  do 3 steady_step; try apply keeps_steady_getClient.
  steady_step; [|steady_step]. destruct (_ && _); steady_step.
Qed.

Lemma keeps_steady_setupMonitor : keeps steady UserBotAgent.setupMonitor.
Proof.
  unfold UserBotAgent.setupMonitor.
  do 3 steady_step; try apply keeps_steady_getClient.
  steady_step; [|steady_step]. destruct (_ && _); steady_step.
Qed.

Lemma keeps_steady_user_registerBehaviors bs :
  keeps steady (UserBotAgent.registerBehaviors bs).
Proof.
  unfold UserBotAgent.registerBehaviors. repeat steady_step.
  - apply keeps_steady_setupAutoReply.
  - apply keeps_steady_setupMonitor.
  - apply keeps_steady_user_setupBroadcast.
Qed.

Lemma keeps_steady_user_onBehaviorsChanged bs :
  keeps steady (UserBotAgent.onBehaviorsChanged bs).
Proof.
  unfold UserBotAgent.onBehaviorsChanged.
  steady_step; [steady_step|].
  steady_step; [apply keeps_steady_getClient|].
  destruct (_ || _); [steady_step|].
  repeat steady_step. apply keeps_steady_user_registerBehaviors.
Qed.

Lemma keeps_steady_user_updateBehaviors bs :
  keeps steady (BaseAgent.updateBehaviors (S:=UserBotAgent) bs).
Proof. apply keeps_steady_updateBehaviors, keeps_steady_user_onBehaviorsChanged. Qed.

Lemma keeps_steady_user_start : keeps steady UserBotAgent.start.
Proof.
  unfold UserBotAgent.start.
  steady_step; [steady_step|]. destruct (decide _); [steady_step|].
  steady_step; [steady_step|].
  steady_step; [|repeat steady_step].
  steady_step; [steady_step|].
  destruct (_ || _); [steady_step|].
  steady_step; [apply keeps_steady_creds|].
  steady_step; [steady_step|].
  steady_step; [steady_step|].
  steady_step; [steady_step|].
  steady_step; [steady_step|].
  destruct (negb _); [steady_step|].
  steady_step; [steady_step|].
  steady_step.
  { steady_step. steady_step; [apply keeps_steady_set_creds|]. steady_step. }
  steady_step; [steady_step|].
  steady_step; [apply keeps_steady_user_registerBehaviors|]. steady_step.
Qed.

Lemma keeps_steady_user_stop : keeps steady UserBotAgent.stop.
Proof.
  unfold UserBotAgent.stop.
  steady_step; [steady_step|].
  steady_step; [apply keeps_steady_getClient|].
  repeat steady_step.
Qed.

Lemma keeps_steady_authStart : keeps steady UserBotAgent.authStart.
Proof.
  unfold UserBotAgent.authStart.
  steady_step; [steady_step|].
  steady_step; [steady_step|].
  steady_step; [steady_step|].
  steady_step; [apply keeps_steady_creds|]. repeat steady_step.
Qed.

Lemma keeps_steady_authSubmit code password :
  keeps steady (UserBotAgent.authSubmit code password).
Proof.
  unfold UserBotAgent.authSubmit.
  steady_step; [apply keeps_steady_getClient|].
  destruct a; [|steady_step].
  steady_step; [apply keeps_steady_creds|].
  steady_step; [steady_step|].
  steady_step; [steady_step|].
  steady_step; [apply keeps_steady_set_creds|]. steady_step.
Qed.

Lemma keeps_steady_user_callTool tool args :
  keeps steady (UserBotAgent.callTool tool args).
Proof.
  unfold UserBotAgent.callTool.
  steady_step; [apply keeps_steady_getClient|]. repeat steady_step.
Qed.




End SteadyUserBot.



(** ** Invariants of an agent *)

Global Instance preserves_preorder {S} (I : Env * S → Prop) : PreOrder (preserves I).
Proof. split; unfold preserves; [intros x; tauto|intros x y z; tauto]. Qed.








(** ** The pool and the store *)

Lemma JsMap_get_delete {V} (j k : string) (m : JsMap.t V) :
  JsMap.get j (JsMap.delete k m) = if decide (j = k) then None else JsMap.get j m.
Proof.
  unfold JsMap.delete, JsMap.t in *. induction m as [|[k' v'] m IH].
  - cbn. by destruct (decide (j = k)).
  - destruct (decide (k' = k)) as [->|Hne].
    + rewrite filter_cons_False by (cbn; tauto). rewrite IH. cbn [JsMap.get].
      destruct (decide (j = k)) as [->|Hne]; [done|done].
    + rewrite filter_cons_True by done. cbn [JsMap.get]. rewrite IH.
      destruct (decide (j = k')) as [->|Hne']; [|done]. by rewrite decide_False.
Qed.

(** A steady method of a pooled agent keeps the pool in order. *)
Lemma pool_ok_on_agent {A} (i : string) (a : PooledAgent)
    (mb : M BotAgent A) (mu : M UserBotAgent A) e m :
  JsMap.get i (pool m) = Some a →
  keeps steady mb → keeps steady mu →
  pool_ok (e, m) → pool_ok (final (AgentManager.on_agent i a mb mu e m)).
Proof.
  intros Hget Hb Hu Hok.
  destruct (Hok i a Hget) as (Hid & row & Hrow & Hst). cbn [fst snd] in *.
  assert (∀ (b' : BaseAgent) (e' : Env),
            self_id b' = i →
            (∀ j, identity <$> tg_agents (storage e') !! j
                  = identity <$> tg_agents (storage e) !! j) →
            (∀ j, j ≠ i → tg_agents (storage e') !! j = tg_agents (storage e) !! j) →
            (∀ row', tg_agents (storage e') !! i = Some row' →
                     c_status row' = status (record b')) →
            ∀ a', agent_base a' = b' →
            pool_ok (e', AgentManager.with_pool (JsMap.set i a') m)) as Hgen.
  { intros b' e' Hi' Hident Hother Hsync a' Ha' j aj. cbn.
    destruct (decide (j = i)) as [->|Hne].
    - rewrite JsMap_get_set_eq. intros [= <-]. rewrite Ha'. split; [done|].
      specialize (Hident i). rewrite Hrow in Hident.
      destruct (tg_agents (storage e') !! i) as [row'|] eqn:Hrow'; [|done].
      exists row'. split; [done|]. by apply Hsync.
    - rewrite JsMap_get_set_ne by done. intros Hj.
      destruct (Hok j aj Hj) as (Hidj & rowj & Hrowj & Hstj). cbn [fst snd] in *.
      split; [done|]. exists rowj. by rewrite Hother. }
  unfold AgentManager.on_agent. destruct a as [b|u]; cbn [agent_base] in *.
  - specialize (Hb e b). destruct (mb e b) as [[r e'] b']. unfold final in *.
    cbn [fst snd] in *.
    destruct Hb as (_&Hi'&_&_&Hident&_&Hother&_&_&Hsync). cbn [fst snd base BotAgent.extends] in *.
    apply (Hgen (b_base b') e').
    + congruence.
    + exact Hident.
    + intros j Hj. apply Hother. congruence.
    + intros row' Hrow'. apply Hsync.
      * intros row0. cbn. rewrite Hid, Hrow. by intros [= <-].
      * cbn. by rewrite Hi', Hid.
    + done.
  - specialize (Hu e u). destruct (mu e u) as [[r e'] u']. unfold final in *.
    cbn [fst snd] in *.
    destruct Hu as (_&Hi'&_&_&Hident&_&Hother&_&_&Hsync).
    cbn [fst snd base UserBotAgent.extends] in *.
    apply (Hgen (u_base u') e').
    + congruence.
    + exact Hident.
    + intros j Hj. apply Hother. congruence.
    + intros row' Hrow'. apply Hsync.
      * intros row0. cbn. rewrite Hid, Hrow. by intros [= <-].
      * cbn. by rewrite Hi', Hid.
    + done.
Qed.

(** The call of a method by id: [get_or_throw], then the method. *)
Lemma keeps_pool_call {A} (i : string) (mb : M BotAgent A) (mu : M UserBotAgent A) :
  keeps steady mb → keeps steady mu →
  keeps (preserves pool_ok)
    (AgentManager.get_or_throw i ≫= λ a, AgentManager.on_agent i a mb mu).
Proof.
  intros Hb Hu e m. unfold AgentManager.get_or_throw.
  cbv [mbind M_bind getSelf mret M_ret throw].
  destruct (JsMap.get i (pool m)) as [a|] eqn:Hget; [|by intros ?].
  intros Hok. exact (pool_ok_on_agent i a mb mu e m Hget Hb Hu Hok).
Qed.

Lemma keeps_steady_throw_bot {A} err : keeps steady (throw (S:=BotAgent) (A:=A) err).
Proof. kapply @keeps_throw. Qed.

Lemma keeps_pool_start i : keeps (preserves pool_ok) (AgentManager.start i).
Proof. apply keeps_pool_call; [apply keeps_steady_bot_start|apply keeps_steady_user_start]. Qed.

Lemma keeps_pool_stop i : keeps (preserves pool_ok) (AgentManager.stop i).
Proof. apply keeps_pool_call; [apply keeps_steady_bot_stop|apply keeps_steady_user_stop]. Qed.

Lemma keeps_pool_env (f : Env → Env) :
  (∀ e, storage (f e) = storage e) → keeps (preserves pool_ok) (modifyEnv f).
Proof.
  intros Hf e m Hok i a Hget. destruct (Hok i a Hget) as (?&row&?&?).
  cbn in *. split; [done|]. exists row. by rewrite Hf.
Qed.

Lemma keeps_pool_restart i : keeps (preserves pool_ok) (AgentManager.restart i).
Proof.
  unfold AgentManager.restart.
  kapply @keeps_bind; [apply keeps_pool_stop|]. intros _.
  kapply @keeps_bind; [by apply keeps_pool_env|]. intros _. apply keeps_pool_start.
Qed.

Lemma keeps_pool_setBehaviors i bs : keeps (preserves pool_ok) (AgentManager.setBehaviors i bs).
Proof.
  apply keeps_pool_call;
    [apply keeps_steady_bot_updateBehaviors|apply keeps_steady_user_updateBehaviors].
Qed.

Lemma keeps_pool_authStart i : keeps (preserves pool_ok) (AgentManager.authStart i).
Proof. apply keeps_pool_call; [apply keeps_steady_throw_bot|apply keeps_steady_authStart]. Qed.

Lemma keeps_pool_authSubmit i code password :
  keeps (preserves pool_ok) (AgentManager.authSubmit i code password).
Proof.
  apply keeps_pool_call; [apply keeps_steady_throw_bot|].
  kapply @keeps_bind; [apply keeps_steady_authSubmit|].
  intros _. apply keeps_steady_user_start.
Qed.

Lemma keeps_pool_callTool i tool args :
  keeps (preserves pool_ok) (AgentManager.callTool i tool args).
Proof.
  apply keeps_pool_call; [apply keeps_steady_bot_callTool|apply keeps_steady_user_callTool].
Qed.

(** Removing an agent from the pool and its row from the store. *)
Lemma pool_ok_remove i e (m : AgentManager) :
  pool_ok (e, m) →
  pool_ok (TelegramStorage.deleteAgent i e, AgentManager.with_pool (JsMap.delete i) m).
Proof.
  intros Hok j a. cbn. rewrite JsMap_get_delete.
  destruct (decide (j = i)) as [->|Hne]; [done|]. intros Hget.
  destruct (Hok j a Hget) as (?&row&?&?). cbn in *.
  split; [done|]. exists row. by rewrite lookup_delete_ne.
Qed.

Lemma keeps_pool_delete i : keeps (preserves pool_ok) (AgentManager.delete i).
Proof.
  intros e m Hok. unfold AgentManager.delete.
  cbv [mbind M_bind getSelf mret M_ret modifySelf modifyEnv].
  destruct (JsMap.get i (pool m)) as [a|] eqn:Hget.
  - pose proof (pool_ok_on_agent i a _ _ e m Hget keeps_steady_bot_stop
                  keeps_steady_user_stop Hok) as Hok1.
    destruct (AgentManager.on_agent i a BotAgent.stop UserBotAgent.stop e m)
      as [[[[]|err] e1] m1]; cbv [final] in *; cbn [fst snd] in *.
    + by apply pool_ok_remove.
    + exact Hok1.
  - cbv [final]. cbn [fst snd]. by apply pool_ok_remove.
Qed.

Lemma keeps_pool_create nm creds bs :
  keeps (preserves pool_ok) (AgentManager.create nm creds bs).
Proof.
  intros e m Hok.
  assert (pool_ok (add_wire RandomUUID 0 e, m)) as Hok1.
  { intros j a Hget. destruct (Hok j a Hget) as (?&row&?&?). cbn in *.
    split; [done|]. by exists row. }
  assert (pool_ok (set_storage (λ st, st) (SaveAgent (w_randomUUID (world e) (wire e)))
                     (add_wire RandomUUID 0 e), m)) as Hok2.
  { intros j a Hget. destruct (Hok j a Hget) as (?&row&?&?). cbn in *.
    split; [done|]. by exists row. }
  unfold AgentManager.create, AgentManager.randomUUID, TelegramStorage.saveAgent. mrun.
  destruct creds as [c|]; [|exact Hok1].
  cbn [o_name o_type o_id]. destruct nm as [nm|]; [|exact Hok2].
  destruct (cred_type c) as [ty|]; [|exact Hok2].
  mrun. unfold TelegramStorage.insertAgent, AgentManager.with_pool.
  intros j a. cbn -[JsMap.get JsMap.set].
  destruct (decide (j = w_randomUUID (world e) (wire e))) as [->|Hne].
  - rewrite JsMap_get_set_eq. intros [= <-]. rewrite lookup_insert_eq.
    unfold AgentManager.spawn. split; [by destruct (bool_decide _)|].
    eexists. split; [done|]. by destruct (bool_decide _).
  - rewrite JsMap_get_set_ne by done. intros Hget.
    destruct (Hok j a Hget) as (?&row&?&?). cbn in *.
    split; [done|]. exists row. by rewrite lookup_insert_ne.
Qed.

Lemma keeps_pool_get i : keeps (preserves pool_ok) (AgentManager.get i).
Proof.
  intros e m Hok. unfold AgentManager.get. mrun.
  destruct (JsMap.get i (pool m)); [done|].
  unfold TelegramStorage.getAgent. destruct (tg_agents (storage e) !! i); [|done].
  intros j a Hget. destruct (Hok j a Hget) as (?&row&?&?). cbn in *.
  split; [done|]. by exists row.
Qed.

Lemma keeps_pool_list : keeps (preserves pool_ok) AgentManager.list.
Proof. intros e m Hok. done. Qed.

Lemma keeps_pool_alloc vs : keeps (preserves pool_ok) (TelegramPlugin.alloc vs).
Proof.
  unfold TelegramPlugin.alloc.
  kapply @keeps_bind; [kapply @keeps_getEnv|]. intros e0.
  kapply @keeps_bind; [by apply keeps_pool_env|]. intros; kapply @keeps_ret.
Qed.

Lemma keeps_pool_shutdown : keeps (preserves pool_ok) AgentManager.shutdown.
Proof.
  unfold AgentManager.shutdown.
  kapply @keeps_bind; [kapply @keeps_getSelf|]. intros m.
  kapply @keeps_for_of. intros [i a].
  kapply @keeps_try_catch; [apply keeps_pool_stop|]. intros; kapply @keeps_ret.
Qed.

Ltac pool_step :=
  lazymatch goal with
  | |- keeps _ (mbind _ _) => kapply @keeps_bind; [|intros]
  | |- keeps _ (mret _) => kapply @keeps_ret
  | |- keeps _ (try_catch _ _) => kapply @keeps_try_catch; [|intros]
  | |- keeps _ AgentManager.list => apply keeps_pool_list
  | |- keeps _ (AgentManager.get _) => apply keeps_pool_get
  | |- keeps _ (AgentManager.create _ _ _) => apply keeps_pool_create
  | |- keeps _ (AgentManager.delete _) => apply keeps_pool_delete
  | |- keeps _ (AgentManager.start _) => apply keeps_pool_start
  | |- keeps _ (AgentManager.stop _) => apply keeps_pool_stop
  | |- keeps _ (AgentManager.restart _) => apply keeps_pool_restart
  | |- keeps _ (AgentManager.setBehaviors _ _) => apply keeps_pool_setBehaviors
  | |- keeps _ (AgentManager.authStart _) => apply keeps_pool_authStart
  | |- keeps _ (AgentManager.authSubmit _ _ _) => apply keeps_pool_authSubmit
  | |- keeps _ (AgentManager.callTool _ _ _) => apply keeps_pool_callTool
  | |- keeps _ (AgentManager.getEvents _ _) =>
      unfold AgentManager.getEvents; kapply @keeps_bind;
      [kapply @keeps_getEnv|intros; kapply @keeps_ret]
  | |- keeps _ (AgentManager.getParsed _ _) =>
      unfold AgentManager.getParsed; kapply @keeps_bind;
      [kapply @keeps_getEnv|intros; kapply @keeps_ret]
  | |- keeps _ (TelegramPlugin.alloc _) => apply keeps_pool_alloc
  | |- keeps _ (match ?x with _ => _ end) => destruct x
  end.

(** The pool and the store stay in step.  An empty pool is in order, and
    every message the gateway hands to the plugin, every HTTP route and
    [shutdown] keep it so, returning or throwing: afterwards every pooled
    agent is still pooled under its own id and has a row, and the status in
    that row is the status of the agent.  The same holds across every
    method, handler and broadcast pass of a pooled agent. *)
Theorem pool_and_store_stay_in_step :
  (∀ e, pool_ok (e, {| pool := [] |})) ∧
  (∀ msg, keeps (preserves pool_ok) (TelegramPlugin.handleMessage msg)) ∧
  (∀ req, keeps (preserves pool_ok) (TelegramPlugin.httpRoutes req)) ∧
  keeps (preserves pool_ok) AgentManager.shutdown ∧
  (∀ A i a (mb : M BotAgent A) (mu : M UserBotAgent A) e m,
     JsMap.get i (pool m) = Some a → keeps steady mb → keeps steady mu →
     pool_ok (e, m) → pool_ok (final (AgentManager.on_agent i a mb mu e m))).
Proof.
  split; [by intros e i a|].
  split; [|split; [|split; [apply keeps_pool_shutdown|]]].
  - intros msg. unfold TelegramPlugin.handleMessage. destruct msg; repeat pool_step.
  - intros req. unfold TelegramPlugin.httpRoutes. destruct req; repeat pool_step.
  - intros A i a mb mu e m. apply pool_ok_on_agent.
Qed.

Lemma pool_and_store_stay_in_step_witness :
  let w := Scenario.world_failing (λ r, match r with NewBot _ => true | _ => false end) in
  let c := Scenario.created w [] Scenario.bot_credentials in
  let x := TelegramPlugin.handleMessage (agent_start Scenario.the_id) c.1 c.2 in
  x.1.1 = Ok (Some (RError "Error: network")) ∧ pool_ok (final x).
Proof.
  intros w c x. split; [by vm_compute|].
  apply (proj1 (proj2 pool_and_store_stay_in_step) (agent_start Scenario.the_id) c.1 c.2).
  apply (proj1 (proj2 (proj2 pool_and_store_stay_in_step))
           (POST_agents (Some "agent") (Some Scenario.bot_credentials) None)
           (Scenario.boot w []) {| pool := [] |}).
  apply (proj1 pool_and_store_stay_in_step).
Defined.

(** ** Strings *)

Lemma prefix_spec (sub s : string) :
  String.prefix sub s = true ↔ ∃ post, s = sub +:+ post.
Proof.
  revert s. induction sub as [|a sub IH]; intros s.
  - split; [intros _; by exists s|intros _; by destruct s].
  - destruct s as [|b s]; simpl.
    + split; [done|]. by intros [post [=]].
    + destruct (Ascii.ascii_dec a b) as [->|Hne].
      * rewrite IH. split; intros [post Hp]; exists post; [by rewrite Hp|].
        by injection Hp.
      * split; [done|]. intros [post [= ? _]]. done.
Qed.

Lemma includes_spec (s sub : string) : includes s sub = true ↔ occurs_in sub s.
Proof.
  unfold occurs_in. induction s as [|a s IH]; cbn [includes].
  - destruct (String.prefix sub "") eqn:Hp.
    + apply prefix_spec in Hp as [post Hp]. split; [|done]. intros _.
      exists "", post. done.
    + split; [done|]. intros ([|b pre] & post & Hs).
      * assert (String.prefix sub "" = true) as Hp'
          by (apply prefix_spec; by exists post).
        congruence.
      * done.
  - destruct (String.prefix sub (String a s)) eqn:Hp.
    + apply prefix_spec in Hp as [post Hp]. split; [|done]. intros _.
      exists "", post. done.
    + rewrite IH. split.
      * intros (pre & post & ->). by exists (String a pre), post.
      * intros ([|b pre] & post & Hs).
        -- assert (String.prefix sub (String a s) = true) as Hp'
             by (apply prefix_spec; by exists post).
           congruence.
        -- injection Hs as -> ->. by exists pre, post.
Qed.

(** [shouldAutoReply] answers yes exactly when the behaviour is enabled,
    the chat passes the allow-list (there is none, or it is empty, or the
    chat is on it, or the chat id is empty), and the text passes the
    keywords (there are none, or one of them, lower-cased, occurs in the
    lower-cased text). *)
Theorem shouldAutoReply_iff (cfg : AutoReplyBehavior) (text chatId : string) :
  BaseAgent.shouldAutoReply cfg text chatId = true ↔
  ar_enabled cfg = true ∧
  (∀ c cs, onlyInChats cfg = Some (c :: cs) → chatId = "" ∨ chatId ∈ c :: cs) ∧
  (∀ k ks, triggerKeywords cfg = Some (k :: ks) →
           ∃ k', k' ∈ k :: ks ∧ occurs_in (toLowerCase k') (toLowerCase text)).
Proof.
  unfold BaseAgent.shouldAutoReply.
  destruct (ar_enabled cfg); simpl; [|by split; [|intros [? _]]].
  assert (has_length (onlyInChats cfg) && truthy chatId
          && negb (bool_decide (chatId ∈ default [] (onlyInChats cfg))) = false
          ↔ ∀ c cs, onlyInChats cfg = Some (c :: cs) → chatId = "" ∨ chatId ∈ c :: cs)
    as Hallow.
  { destruct (onlyInChats cfg) as [[|c cs]|]; simpl; try by split.
    destruct (truthy chatId) eqn:Htr; simpl.
    - rewrite negb_false_iff, bool_decide_eq_true. split.
      + intros Hin c' cs' [= <- <-]. by right.
      + intros Hin. destruct (Hin c cs eq_refl) as [->|?]; [done|done].
    - split; [|done]. intros _ c' cs' _. left. by apply truthy_false. }
  assert ((if has_length (triggerKeywords cfg)
           then existsb (λ k, includes (toLowerCase text) (toLowerCase k))
                        (default [] (triggerKeywords cfg))
           else true) = true
          ↔ ∀ k ks, triggerKeywords cfg = Some (k :: ks) →
                    ∃ k', k' ∈ k :: ks ∧ occurs_in (toLowerCase k') (toLowerCase text))
    as Hkey.
  { destruct (triggerKeywords cfg) as [[|k ks]|]; cbn [has_length default from_option id];
      try by split.
    rewrite existsb_exists. split.
    - intros (k' & Hin & Hinc) ?? [= <- <-]. exists k'.
      split; [by apply list_elem_of_In|by apply includes_spec].
    - intros Hk. destruct (Hk k ks eq_refl) as (k' & Hin & Hocc). exists k'.
      split; [by apply list_elem_of_In|by apply includes_spec]. }
  destruct (has_length (onlyInChats cfg) && truthy chatId
            && negb (bool_decide (chatId ∈ default [] (onlyInChats cfg)))) eqn:Hb.
  - split; [done|]. intros (_ & Ha & _). apply Hallow in Ha. done.
  - rewrite Hkey. split; [intros Hk|intros (_&_&Hk); exact Hk].
    split; [done|]. split; [by apply Hallow|done].
Qed.

Lemma shouldAutoReply_iff_witness :
  let cfg := {| ar_enabled := true; replyMode := template; aiSystemPrompt := None;
                triggerKeywords := Some ["Price"]; templates := None;
                onlyInChats := Some ["42"]; cooldownSeconds := None |} in
  BaseAgent.shouldAutoReply cfg "what is the PRICE?" "" = true ∧
  BaseAgent.shouldAutoReply cfg "what is the PRICE?" "7" = false.
Proof.
  intros cfg. split.
  - apply shouldAutoReply_iff. split; [done|]. split.
    + intros c cs _. by left.
    + intros k ks [= <- <-]. exists "Price". split; [by left|].
      by exists "what is the ", "?".
  - destruct (BaseAgent.shouldAutoReply cfg "what is the PRICE?" "7") eqn:Hs; [|done].
    apply shouldAutoReply_iff in Hs as (_ & Ha & _).
    destruct (Ha "42" [] eq_refl) as [?|Hin]; [done|].
    by apply list_elem_of_singleton in Hin.
Defined.

(** ** Stopping *)

(** [stop()] of both classes.  When it returns, the agent is stopped: it
    holds no handle and no cron job, its status is [stopped] in the record
    and in its row, and the one event emitted is that change.  It throws
    only when the transport refuses to stop; then the cron jobs are gone,
    but the handle and the status stay, nothing is written and nothing is
    emitted.  An agent that holds no handle is stopped without a request
    to the transport. *)
Theorem stop_outcomes (e : Env) :
  (∀ a : BotAgent,
     let x := BotAgent.stop e a in
     let i := self_id (b_base a) in
     (x.1.1 = Ok () →
        bot x.2 = None ∧ cronJobs (b_base x.2) = ∅ ∧
        status (record (b_base x.2)) = stopped ∧
        (c_status <$> tg_agents (storage x.1.2) !! i)
        = ((λ _, stopped) <$> tg_agents (storage e) !! i) ∧
        emitted x.1.2 = emitted e ++ [status_event (b_base a) stopped None (clock x.1.2)]) ∧
     (∀ err, x.1.1 = Throw err →
        w_answer (world e) (wire e) BotStop = AFail err ∧
        bot x.2 = bot a ∧ is_Some (bot a) ∧ cronJobs (b_base x.2) = ∅ ∧
        record (b_base x.2) = record (b_base a) ∧
        storage x.1.2 = storage e ∧ emitted x.1.2 = emitted e) ∧
     (bot a = None → x.1.1 = Ok () ∧ wire x.1.2 = wire e)) ∧
  (∀ a : UserBotAgent,
     let x := UserBotAgent.stop e a in
     let i := self_id (u_base a) in
     (x.1.1 = Ok () →
        client x.2 = None ∧ cronJobs (u_base x.2) = ∅ ∧
        status (record (u_base x.2)) = stopped ∧
        (c_status <$> tg_agents (storage x.1.2) !! i)
        = ((λ _, stopped) <$> tg_agents (storage e) !! i) ∧
        emitted x.1.2 = emitted e ++ [status_event (u_base a) stopped None (clock x.1.2)]) ∧
     (∀ err, x.1.1 = Throw err →
        w_answer (world e) (wire e) Disconnect = AFail err ∧
        client x.2 = client a ∧ is_Some (client a) ∧ cronJobs (u_base x.2) = ∅ ∧
        record (u_base x.2) = record (u_base a) ∧
        storage x.1.2 = storage e ∧ emitted x.1.2 = emitted e) ∧
     (client a = None → x.1.1 = Ok () ∧ wire x.1.2 = wire e)).
Proof.
  split; intros a x i; subst x i.
  - unfold BotAgent.stop, BotAgent.getBot, BaseAgent.setStatus, BaseAgent.pushEvent,
      await. mrun.
    destruct (bot a) as [b|] eqn:Hbot; cbn.
    + destruct (w_answer (world e) (wire e) BotStop) eqn:Hans; cbn;
        (split; [|split]); try done;
        try (intros _; repeat split; try done;
             rewrite lookup_alter_eq;
             by destruct (tg_agents (storage e) !! self_id (b_base a))).
      intros ? [= <-]. by repeat split.
    + split; [|split]; try done.
      intros _. repeat split; try done. rewrite lookup_alter_eq.
      by destruct (tg_agents (storage e) !! self_id (b_base a)).
  - unfold UserBotAgent.stop, UserBotAgent.getClient, BaseAgent.setStatus,
      BaseAgent.pushEvent, await. mrun.
    destruct (client a) as [b|] eqn:Hbot; cbn.
    + destruct (w_answer (world e) (wire e) Disconnect) eqn:Hans; cbn;
        (split; [|split]); try done;
        try (intros _; repeat split; try done;
             rewrite lookup_alter_eq;
             by destruct (tg_agents (storage e) !! self_id (u_base a))).
      intros ? [= <-]. by repeat split.
    + split; [|split]; try done.
      intros _. repeat split; try done. rewrite lookup_alter_eq.
      by destruct (tg_agents (storage e) !! self_id (u_base a)).
Qed.

Lemma stop_outcomes_witness :
  let w := Scenario.world_failing (λ r, match r with BotStop => true | _ => false end) in
  let st := Scenario.running_bot w [] in
  let x := BotAgent.stop st.1 st.2 in
  x.1.1 = Throw "Error: network" ∧
  status (record (b_base x.2)) = running ∧ is_Some (bot x.2).
Proof.
  intros w st x.
  destruct (proj1 (stop_outcomes st.1) st.2) as (_ & Hthrow & _).
  destruct (Hthrow "Error: network") as (_ & Hb & Hsome & _ & Hrec & _);
    [by vm_compute|].
  split; [by vm_compute|]. fold x in Hb, Hrec.
  rewrite Hrec, Hb. split; [by vm_compute|exact Hsome].
Defined.

(** ** Agents the pool does not know *)

(** An id that is not pooled: every operation on the agent throws
    "Agent not found" and changes nothing.  Reading is another matter:
    [get] falls back to the store and returns the record of the row, if
    there is one, and [delete] returns normally and removes the row. *)
Theorem unknown_agent_is_reported (i : string) (e : Env) (m : AgentManager) :
  JsMap.get i (pool m) = None →
  let not_found {A} (x : result A * Env * AgentManager) : Prop :=
    x = (Throw (Error ("Agent not found: " +:+ i)), e, m) in
  not_found (AgentManager.start i e m) ∧
  not_found (AgentManager.stop i e m) ∧
  not_found (AgentManager.restart i e m) ∧
  (∀ bs, not_found (AgentManager.setBehaviors i bs e m)) ∧
  not_found (AgentManager.authStart i e m) ∧
  (∀ code password, not_found (AgentManager.authSubmit i code password e m)) ∧
  (∀ tool args, not_found (AgentManager.callTool i tool args e m)) ∧
  (AgentManager.get i e m).1.1 = Ok (TelegramStorage.getAgent i e).1 ∧
  AgentManager.delete i e m
  = (Ok (), TelegramStorage.deleteAgent i e, AgentManager.with_pool (JsMap.delete i) m).
Proof.
  intros Hget not_found. subst not_found. cbv beta.
  unfold AgentManager.restart, AgentManager.start, AgentManager.stop,
    AgentManager.setBehaviors, AgentManager.authStart, AgentManager.authSubmit,
    AgentManager.callTool, AgentManager.get, AgentManager.delete,
    AgentManager.get_or_throw.
  mrun. rewrite Hget. cbn.
  repeat (split; [done|]). split; [|done].
  by destruct (TelegramStorage.getAgent i e).
Qed.

Lemma unknown_agent_is_reported_witness :
  let w := Scenario.world_failing (λ _, false) in
  let c := Scenario.created w [] Scenario.bot_credentials in
  let m := {| pool := [] |} in
  AgentManager.start Scenario.the_id c.1 m
  = (Throw "Error: Agent not found: 7f9c0000-0000-4000-8000-000000000001", c.1, m) ∧
  ∃ r, (AgentManager.get Scenario.the_id c.1 m).1.1 = Ok (Some r) ∧ name r = "agent".
Proof.
  intros w c m.
  destruct (unknown_agent_is_reported Scenario.the_id c.1 m eq_refl)
    as (Hs & _ & _ & _ & _ & _ & _ & Hg & _).
  split; [exact Hs|]. rewrite Hg. eexists. split; [by vm_compute|reflexivity].
Defined.

(** ** Errors at the gateway *)



(** ** Answering a message *)

(** [handleText] on a token agent.  When no reply is due (there is no
    [auto_reply] behaviour, or it is disabled, or [shouldAutoReply] says
    no), the message is tracked and nothing is asked of the transport or
    of the completion provider.  In template mode the provider is never
    asked: the reply is the response of the first template whose trigger
    matches; an empty reply is not sent, and a reply that is sent is
    counted once. *)
Theorem handleText_reply (ctx : Context) (e : Env) (a : BotAgent) :
  let text := default "" (ctx_text ctx) in
  let chat := default "" (ctx_chat ctx) in
  let cfg := BaseAgent.find_behavior (heap e) t_auto_reply (behaviors (record (b_base a)))
             ≫= λ l, heap e !! l in
  let i := self_id (b_base a) in
  let x := BotAgent.handleText ctx e a in
  ((∀ c, cfg = Some (auto_reply c) →
         ar_enabled c && BaseAgent.shouldAutoReply c text chat = false) →
   x.1.1 = Ok () ∧ wire x.1.2 = wire e ∧
   sent <$> persisted_stats i x.1.2 = sent <$> persisted_stats i e) ∧
  (∀ c, cfg = Some (auto_reply c) →
        ar_enabled c && BaseAgent.shouldAutoReply c text chat = true →
        replyMode c = template →
        let reply := BotAgent.template_reply c text in
        (reply = "" →
           x.1.1 = Ok () ∧ wire x.1.2 = wire e ∧
           sent <$> persisted_stats i x.1.2 = sent <$> persisted_stats i e) ∧
        (reply ≠ "" →
           wire x.1.2 = wire e ++ [CtxReply chat reply] ∧
           (x.1.1 = Ok () →
            sent <$> persisted_stats i x.1.2
            = (λ n, n + 1) <$> (sent <$> persisted_stats i e)))).
Proof.
  intros text chat cfg i x. subst x cfg.
  unfold BotAgent.handleText, BaseAgent.trackMessage, BaseAgent.pushEvent.
  fold text chat. mrun. fold i.
  unfold TelegramStorage.saveEvent, TelegramStorage.incrementStat. mrun.
  destruct (BaseAgent.find_behavior (heap e) t_auto_reply (behaviors (record (b_base a))))
    as [l|] eqn:Hfind; cbn [mbind option_bind from_option]; mrun.
  2: { split; [|done]. intros _. repeat split; try done.
       unfold persisted_stats; cbn. rewrite lookup_alter_eq.
       by destruct (tg_agents (storage e) !! i). }
  destruct (heap e !! l) as [[c| | |]|] eqn:Hl.
  2-5: (split; [|done]; intros _; repeat split; try done;
        unfold persisted_stats; cbn; rewrite lookup_alter_eq;
        by destruct (tg_agents (storage e) !! i)).
  destruct (ar_enabled c && BaseAgent.shouldAutoReply c text chat) eqn:Hel.
  - assert (negb (ar_enabled c) || negb (BaseAgent.shouldAutoReply c text chat) = false)
      as -> by (by destruct (ar_enabled c), (BaseAgent.shouldAutoReply c text chat)).
    split; [intros Hno; specialize (Hno c eq_refl); congruence|].
    intros c' [= <-] _ Hmode. rewrite Hmode. mrun.
    destruct (truthy (BotAgent.template_reply c text)) eqn:Htr.
    + split; [intros Hr; rewrite Hr in Htr; done|]. intros _.
      unfold await. mrun.
      destruct (w_answer _ _ _); cbn; (split; [done|]); try done;
        intros _; unfold persisted_stats; cbn; rewrite !lookup_alter_eq;
        by destruct (tg_agents (storage e) !! i).
    + apply truthy_false in Htr. split; [|done]. intros _. cbn.
      repeat split; try done.
      unfold persisted_stats; cbn. rewrite lookup_alter_eq.
      by destruct (tg_agents (storage e) !! i).
  - assert (negb (ar_enabled c) || negb (BaseAgent.shouldAutoReply c text chat) = true)
      as -> by (by destruct (ar_enabled c), (BaseAgent.shouldAutoReply c text chat)).
    cbn. split; [|intros c' [= <-] Hel'; congruence]. intros _. repeat split; try done.
    unfold persisted_stats; cbn. rewrite lookup_alter_eq.
    by destruct (tg_agents (storage e) !! i).
Qed.

Lemma handleText_reply_witness :
  let st := Scenario.running_bot (Scenario.world_failing (λ _, false)) [Scenario.hello] in
  let x := BotAgent.handleText Scenario.hi st.1 st.2 in
  wire x.1.2 = wire st.1 ++ [CtxReply "42" "hello!"].
Proof.
  intros st x.
  destruct (handleText_reply Scenario.hi st.1 st.2) as [_ Hreply].
  match type of Hreply with
  | ∀ c, _ = Some (auto_reply c) → _ =>
      destruct (Hreply (match Scenario.hello with auto_reply c => c
                        | _ => {| ar_enabled := false; replyMode := ai;
                                  aiSystemPrompt := None; triggerKeywords := None;
                                  templates := None; onlyInChats := None;
                                  cooldownSeconds := None |} end))
        as [_ Hsent]; [by vm_compute|by vm_compute|by vm_compute|]
  end.
  destruct Hsent as [Hw _]; [by vm_compute|]. exact Hw.
Defined.

(** The handler of a session agent leaves no trace of a message it does
    not answer: an event without a message, an outgoing message, a message
    within the cooldown window of its chat, and a message that
    [shouldAutoReply] turns down all leave the whole state as it was; the
    message is not even counted as received. *)
Theorem autoReplyHandler_leaves_no_trace (cfg : loc) (c : AutoReplyBehavior)
    (event : NewMessageEvent) (e : Env) (a : UserBotAgent) :
  heap e !! cfg = Some (auto_reply c) →
  (∀ msg, ev_message event = Some msg →
     let chat := default "" (msg_chatId msg) in
     msg_out msg = true ∨
     (∃ last, cooldowns e !! (self_id (u_base a) +:+ ":" +:+ chat) = Some last ∧
              clock e - last < default 5 (cooldownSeconds c) * 1000) ∨
     BaseAgent.shouldAutoReply c (default "" (msg_text msg)) chat = false) →
  UserBotAgent.autoReplyHandler cfg event e a = (Ok (), e, a).
Proof.
  intros Hcfg Hno. unfold UserBotAgent.autoReplyHandler.
  destruct (ev_message event) as [msg|]; [|done].
  destruct (Hno msg eq_refl) as [Hout|[(last & Hlast & Hwin)|Hshould]].
  - by rewrite Hout.
  - destruct (msg_out msg); [done|]. mrun. rewrite Hcfg, Hlast. cbn.
    by rewrite bool_decide_eq_true_2.
  - destruct (msg_out msg); [done|]. mrun. rewrite Hcfg. cbn.
    destruct (cooldowns e !! _) as [last|]; cbn;
      [destruct (bool_decide _); cbn|]; by rewrite ?Hshould.
Qed.

Lemma autoReplyHandler_leaves_no_trace_witness :
  let st := Scenario.running_userbot (Scenario.world_failing (λ _, false)) [Scenario.hello] in
  let out := {| ev_message := Some {| msg_out := true; msg_text := Some "hi";
                                      msg_chatId := Some "42" |} |} in
  UserBotAgent.autoReplyHandler 0 out st.1 st.2 = (Ok (), st.1, st.2).
Proof.
  intros st out.
  apply (autoReplyHandler_leaves_no_trace 0
           (match Scenario.hello with auto_reply c => c
            | _ => {| ar_enabled := false; replyMode := ai;
                      aiSystemPrompt := None; triggerKeywords := None;
                      templates := None; onlyInChats := None;
                      cooldownSeconds := None |} end)).
  - by vm_compute.
  - intros msg [= <-]. by left.
Defined.

(** ** Starting a token agent *)

Global Instance same_bot_preorder : PreOrder same_bot.
Proof. split; unfold same_bot; [done|intros x y z; congruence]. Qed.

Ltac same_bot_step :=
  lazymatch goal with
  | |- keeps same_bot (notify _) => apply keeps_notify; intros; reflexivity
  | |- keeps same_bot (await _) => apply keeps_await; intros; reflexivity
  | |- keeps same_bot (invoke _) => apply keeps_invoke; intros; reflexivity
  | |- keeps same_bot (BaseAgent.spawn _) => intros ? ?; reflexivity
  | |- keeps same_bot (modifyEnv _) => apply keeps_modifyEnv; intros; reflexivity
  | |- keeps same_bot (modifySelf (with_base _)) =>
      apply keeps_modifySelf; intros ? []; reflexivity
  | |- _ => keeps_step
  end.

Lemma keeps_same_bot_getBot : keeps same_bot BotAgent.getBot.
Proof. unfold BotAgent.getBot. repeat same_bot_step. Qed.

Lemma keeps_same_bot_registerBehaviors bs : keeps same_bot (BotAgent.registerBehaviors bs).
Proof.
  unfold BotAgent.registerBehaviors. repeat same_bot_step.
  - unfold BotAgent.setupBroadcast.
    do 3 same_bot_step; try apply keeps_same_bot_getBot.
    same_bot_step; [|same_bot_step]. destruct (_ && _); [|same_bot_step].
    same_bot_step; [same_bot_step|]. destruct (truthy_opt _); repeat same_bot_step.
  - unfold BotAgent.setupMonitorViaUpdates.
    do 3 same_bot_step; try apply keeps_same_bot_getBot.
    same_bot_step; [|same_bot_step]. destruct (_ && _); same_bot_step.
Qed.

Lemma keeps_same_bot_setupBaseHandlers : keeps same_bot BotAgent.setupBaseHandlers.
Proof.
  unfold BotAgent.setupBaseHandlers.
  same_bot_step; [apply keeps_same_bot_getBot|]. repeat same_bot_step.
Qed.

Lemma row_status_updateStatus i st err e :
  row_status i st err e (TelegramStorage.updateStatus i st err e).
Proof.
  unfold row_status, TelegramStorage.updateStatus. cbn. rewrite lookup_alter_eq.
  by destruct (tg_agents (storage e) !! i).
Qed.

Lemma row_status_then i st0 err0 st err e e1 e2 :
  row_status i st0 err0 e e1 → storage e2 = storage e1 →
  row_status i st err e (TelegramStorage.updateStatus i st err e2).
Proof.
  unfold row_status, TelegramStorage.updateStatus. cbn. intros H1 ->.
  rewrite lookup_alter_eq.
  destruct (tg_agents (storage e1) !! i), (tg_agents (storage e) !! i); done.
Qed.

(** [start()] of a token agent that is not running.  When it returns, the
    agent is [starting], not yet running: it holds a bot, the polling was
    asked for last, and the row says [starting].  When it throws, the
    agent is in [error]: the row holds the status and the text of the
    error thrown, and the change was emitted after the [starting] one. *)
Theorem bot_start_outcomes (e : Env) (a : BotAgent) :
  status (record (b_base a)) ≠ running →
  let x := BotAgent.start e a in
  let i := self_id (b_base a) in
  (x.1.1 = Ok () →
     status (record (b_base x.2)) = starting ∧
     row_status i starting None e x.1.2 ∧
     is_Some (bot x.2) ∧
     last (wire x.1.2) = Some (BotStart true) ∧
     emitted x.1.2 = emitted e ++ [status_event (b_base a) starting None (clock e)]) ∧
  (∀ err, x.1.1 = Throw err →
     status (record (b_base x.2)) = error ∧
     row_status i error (Some err) e x.1.2 ∧
     emitted x.1.2
     = emitted e ++ [status_event (b_base a) starting None (clock e);
                     status_event (b_base a) error (Some err) (clock x.1.2)]).
Proof.
  intros Hst x i. generalize (eq_refl : BotAgent.start e a = x). clearbody x.
  unfold BotAgent.start.
  cbv [mbind M_bind BaseAgent.getStatus BaseAgent.this getSelf mret M_ret].
  cbn [base BotAgent.extends].
  destruct (decide (status (record (b_base a)) = running)) as [|_]; [done|].
  unfold BaseAgent.setStatus at 1. unfold BaseAgent.pushEvent at 1. mrun.
  match goal with
  | |- context [BotAgent.newBot ?e0 ?a0] => set (e1 := e0); set (a1 := a0)
  end.
  assert (row_status i starting None e e1) as Hrow1.
  { apply (row_status_updateStatus i starting None e). }
  assert (emitted e1 = emitted e ++ [status_event (b_base a) starting None (clock e)])
    as Hem1 by reflexivity.
  (* new Bot *)
  pose proof (keeps_newBot e1 a1) as Hq.
  pose proof (keeps_steady_newBot e1 a1) as (_&_&Hn&_).
  assert ((BotAgent.newBot e1 a1).1.1 = Ok () → is_Some (bot (BotAgent.newBot e1 a1).2))
    as Hb.
  { unfold BotAgent.newBot, BotAgent.creds_token, invoke. mrun.
    destruct (w_answer _ _ _); cbn; try done; by eexists. }
  destruct (BotAgent.newBot e1 a1) as [[[[]|err1] e2] a2]; unfold final in Hq, Hn;
    cbn [fst snd base BotAgent.extends] in Hq, Hn, Hb.
  2: { (* the constructor threw *)
    destruct Hq as (_&Hs&_&_&Hem&_&Hr&Hi&_). cbn [fst snd base BotAgent.extends] in *.
    unfold BaseAgent.setStatus, BaseAgent.pushEvent. mrun. intros <-. cbn [fst snd].
    split; [done|]. intros ? [= <-].
    split; [done|]. split.
    - rewrite ?Hi3, ?Hi2, Hi.
      apply (row_status_then i starting None error (Some err1) e e1 _ Hrow1).
      by rewrite ?Hs3, ?Hs2, Hs.
    - cbn. rewrite Hem, Hem1, <-app_assoc. cbn.
      unfold status_event. by rewrite Hi, Hn. }
  specialize (Hb eq_refl).
  (* the registration *)
  cbv [BaseAgent.getRecord BaseAgent.this getSelf mbind M_bind mret M_ret].
  cbn [base BotAgent.extends].
  pose proof (keeps_bot_registerBehaviors (behaviors (record (b_base a2))) e2 a2) as Hq2.
  pose proof (keeps_same_bot_registerBehaviors (behaviors (record (b_base a2))) e2 a2) as Hb2.
  pose proof (keeps_steady_bot_registerBehaviors (behaviors (record (b_base a2))) e2 a2)
    as (_&_&Hn2&_).
  destruct (BotAgent.registerBehaviors _ e2 a2) as [[[[]|err2] e3] a3];
    unfold final, same_bot in Hq2, Hb2, Hn2;
    cbn [fst snd base BotAgent.extends] in Hq2, Hb2, Hn2.
  2: { destruct Hq as (_&Hs&_&_&Hem&_&Hr&Hi&_).
    destruct Hq2 as (_&Hs2&_&_&Hem2&_&Hr2&Hi2&_).
    cbn [fst snd base BotAgent.extends] in *.
    unfold BaseAgent.setStatus, BaseAgent.pushEvent. mrun. intros <-. cbn [fst snd].
    split; [done|]. intros ? [= <-].
    split; [done|]. split.
    - rewrite ?Hi3, ?Hi2, Hi.
      apply (row_status_then i starting None error (Some err2) e e1 _ Hrow1).
      by rewrite ?Hs3, ?Hs2, Hs.
    - cbn. rewrite Hem2, Hem, Hem1, <-app_assoc. cbn.
      unfold status_event. by rewrite Hi2, Hi, Hn2, Hn. }
  pose proof (keeps_setupBaseHandlers e3 a3) as Hq3.
  pose proof (keeps_same_bot_setupBaseHandlers e3 a3) as Hb3.
  pose proof (keeps_steady_setupBaseHandlers e3 a3) as (_&_&Hn3&_).
  destruct (BotAgent.setupBaseHandlers e3 a3) as [[[[]|err3] e4] a4];
    unfold final, same_bot in Hq3, Hb3, Hn3;
    cbn [fst snd base BotAgent.extends] in Hq3, Hb3, Hn3.
  2: { destruct Hq as (_&Hs&_&_&Hem&_&Hr&Hi&_).
    destruct Hq2 as (_&Hs2&_&_&Hem2&_&Hr2&Hi2&_).
    destruct Hq3 as (_&Hs3&_&_&Hem3&_&Hr3&Hi3&_).
    cbn [fst snd base BotAgent.extends] in *.
    unfold BaseAgent.setStatus, BaseAgent.pushEvent. mrun. intros <-. cbn [fst snd].
    split; [done|]. intros ? [= <-].
    split; [done|]. split.
    - rewrite ?Hi3, ?Hi2, Hi.
      apply (row_status_then i starting None error (Some err3) e e1 _ Hrow1).
      by rewrite ?Hs3, ?Hs2, Hs.
    - cbn. rewrite Hem3, Hem2, Hem, Hem1, <-app_assoc. cbn.
      unfold status_event. by rewrite Hi3, Hi2, Hi, Hn3, Hn2, Hn. }
  destruct Hq as (_&Hs&_&_&Hem&_&Hr&Hi&_).
  destruct Hq2 as (_&Hs2&_&_&Hem2&_&Hr2&Hi2&_).
  destruct Hq3 as (_&Hs3&_&_&Hem3&_&Hr3&Hi3&_).
  cbn [fst snd base BotAgent.extends] in *. mrun. intros <-. cbn [fst snd].
  split; [|done]. intros _.
  split; [by rewrite Hr3, Hr2, Hr|].
  split; [unfold row_status in *;
          change (storage (add_wire (BotStart true) 0 e4)) with (storage e4);
          by rewrite Hs3, Hs2, Hs|].
  split; [by rewrite Hb3, Hb2|].
  split; [change (wire (add_wire (BotStart true) 0 e4)) with (wire e4 ++ [BotStart true]);
          by rewrite last_snoc|].
  change (emitted (add_wire (BotStart true) 0 e4)) with (emitted e4).
  by rewrite Hem3, Hem2, Hem, Hem1.
Qed.

Lemma bot_start_outcomes_witness :
  let w := Scenario.world_failing (λ r, match r with NewBot _ => true | _ => false end) in
  let c := Scenario.created w [] Scenario.bot_credentials in
  let x := BotAgent.start c.1 (Scenario.bot_of c.2) in
  x.1.1 = Throw "Error: network" ∧
  (c_last_error <$> tg_agents (storage x.1.2) !! Scenario.the_id)
  = Some (Some "Error: network").
Proof.
  intros w c x.
  destruct (bot_start_outcomes c.1 (Scenario.bot_of c.2)) as [_ Hthrow];
    [by vm_compute|].
  destruct (Hthrow "Error: network") as (_ & Hrow & _); [by vm_compute|].
  split; [by vm_compute|].
  unfold row_status in Hrow. fold x in Hrow.
  apply (f_equal (fmap snd)) in Hrow. rewrite <-!option_fmap_compose in Hrow.
  change (self_id (b_base (Scenario.bot_of c.2))) with Scenario.the_id in Hrow.
  etrans; [exact Hrow|]. by vm_compute.
Defined.

(** ** Starting a session agent *)








(** ** Deleting an agent *)



